(** * talk_codex_gemini: the debate engine and its CLI runner

    A shallow embedding of [server/cli-runner.ts], [server/run-log-store.ts],
    [server/session-store.ts] and [server/debate-engine.ts].

    Conventions.
    - A JS string is a [string] that holds the bytes of its UTF-8 encoding
      (a lone surrogate as the three bytes of its code point).  [trim] strips
      the white space and the line terminators of ECMAScript, [length16] and
      [slice0] count UTF-16 code units as [length] and [slice] do.
    - [round] is a [Z].  [maxRounds], which the code takes as any number, is
      a [Z] too: the development covers the runs whose number of rounds is an
      integer.
    - [x || undefined] on a string is [nonEmpty x : option string].
    - The asynchronous engine is a labelled transition function [exec]: every
      label is one job of the event loop (a public method called by a client,
      or a continuation run by the settlement of the promise it awaits), run
      up to its next suspension point. *)

From Stdlib Require Import String Ascii List ZArith Bool Lia DecimalString.
Import ListNotations.
Open Scope string_scope.
Open Scope Z_scope.

(** ** Strings as the JS code uses them *)

Module JsString.

Definition nl : string := String (ascii_of_nat 10) "".
Definition dquote : ascii := ascii_of_nat 34.
Definition squote : ascii := ascii_of_nat 39.
Definition esc : string := String (ascii_of_nat 27) "".

(** [String.prototype.trim] removes the white space and the line terminators
    of ECMAScript.  Those of one byte: U+0009 to U+000D and U+0020. *)
Definition isWhite (c : ascii) : bool :=
  let n := nat_of_ascii c in
  ((9 <=? n)%nat && (n <=? 13)%nat) || (n =? 32)%nat.

(** Of two bytes: U+00A0 (C2 A0). *)
Definition isWhite2 (a b : ascii) : bool :=
  (nat_of_ascii a =? 194)%nat && (nat_of_ascii b =? 160)%nat.

(** Of three bytes: U+1680 (E1 9A 80); U+2000 to U+200A, U+2028, U+2029 and
    U+202F (E2 80 80 to 8A, A8, A9, AF); U+205F (E2 81 9F); U+3000 (E3 80 80);
    U+FEFF (EF BB BF). *)
Definition isWhite3 (a b c : ascii) : bool :=
  let x := nat_of_ascii a in
  let y := nat_of_ascii b in
  let z := nat_of_ascii c in
  ((x =? 225) && (y =? 154) && (z =? 128))%nat
  || ((x =? 226) && (y =? 128)
      && (((128 <=? z) && (z <=? 138)) || (z =? 168) || (z =? 169) || (z =? 175)))%nat
  || ((x =? 226) && (y =? 129) && (z =? 159))%nat
  || ((x =? 227) && (y =? 128) && (z =? 128))%nat
  || ((x =? 239) && (y =? 187) && (z =? 191))%nat.

Fixpoint trimStart (s : string) : string :=
  match s with
  | String a r =>
      if isWhite a then trimStart r
      else
        match r with
        | String b r1 =>
            if isWhite2 a b then trimStart r1
            else
              match r1 with
              | String c r2 => if isWhite3 a b c then trimStart r2 else s
              | EmptyString => s
              end
        | EmptyString => s
        end
  | EmptyString => EmptyString
  end.

(** Whether [s] begins with white space or a line terminator. *)
Definition headWhite (s : string) : bool :=
  match s with
  | String a r =>
      isWhite a
      || match r with
         | String b r1 =>
             isWhite2 a b
             || match r1 with
                | String c _ => isWhite3 a b c
                | EmptyString => false
                end
         | EmptyString => false
         end
  | EmptyString => false
  end.

(** The same for the bytes in reverse order. *)
Definition headWhite_rev (s : string) : bool :=
  match s with
  | String c r =>
      isWhite c
      || match r with
         | String b r1 =>
             isWhite2 b c
             || match r1 with
                | String a _ => isWhite3 a b c
                | EmptyString => false
                end
         | EmptyString => false
         end
  | EmptyString => false
  end.

Fixpoint rev_string (s acc : string) : string :=
  match s with
  | String c r => rev_string r (String c acc)
  | EmptyString => acc
  end.

(** [trimStart] on the bytes in reverse order. *)
Fixpoint trimStart_rev (s : string) : string :=
  match s with
  | String c r =>
      if isWhite c then trimStart_rev r
      else
        match r with
        | String b r1 =>
            if isWhite2 b c then trimStart_rev r1
            else
              match r1 with
              | String a r2 => if isWhite3 a b c then trimStart_rev r2 else s
              | EmptyString => s
              end
        | EmptyString => s
        end
  | EmptyString => EmptyString
  end.

Definition trimEnd (s : string) : string :=
  rev_string (trimStart_rev (rev_string s "")) "".

Definition trim (s : string) : string := trimEnd (trimStart s).

(** Truthiness of a string: [""] is the only falsy string. *)
Definition truthy (s : string) : bool :=
  match s with EmptyString => false | _ => true end.

(** [s || undefined]. *)
Definition nonEmpty (s : string) : option string :=
  if truthy s then Some s else None.

(** [n || undefined] on a number. *)
Definition nonZero (n : Z) : option Z :=
  if n =? 0 then None else Some n.

(** Truthiness of [string | undefined]. *)
Definition truthyOpt (o : option string) : bool :=
  match o with Some s => truthy s | None => false end.

(** [`${n}`] for an integer. *)
Definition ofZ (n : Z) : string := NilZero.string_of_int (Z.to_int n).

(** [lines.join("\n")]. *)
Fixpoint joinLines (l : list string) : string :=
  match l with
  | [] => ""
  | [x] => x
  | x :: r => x ++ nl ++ joinLines r
  end.

(** [s.split("\n")]. *)
Fixpoint splitLines_go (s cur : string) : list string :=
  match s with
  | EmptyString => [rev_string cur ""]
  | String c r =>
      if Ascii.eqb c (ascii_of_nat 10)
      then rev_string cur "" :: splitLines_go r ""
      else splitLines_go r (String c cur)
  end.

Definition splitLines (s : string) : list string := splitLines_go s "".

(** The UTF-16 code units of the code point that starts with the byte [c]:
    none for a continuation byte (80 to BF), two for the first byte of a
    sequence of four bytes (F0 and above), one otherwise. *)
Definition isContinuation (c : ascii) : bool :=
  let n := nat_of_ascii c in ((128 <=? n) && (n <? 192))%nat.

Definition isLead4 (c : ascii) : bool := (240 <=? nat_of_ascii c)%nat.

(** [s.length]. *)
Fixpoint length16 (s : string) : nat :=
  match s with
  | EmptyString => 0
  | String c r =>
      ((if isContinuation c then 0 else if isLead4 c then 2 else 1) + length16 r)%nat
  end.

(** The high surrogate of the code point above U+FFFF that the four bytes
    encode, as the three bytes of its own code point. *)
Definition highSurrogate (b0 b1 b2 b3 : ascii) : string :=
  let byte (c : ascii) : Z := Z.of_N (N_of_ascii c) in
  let cp := (byte b0 mod 8) * 262144 + (byte b1 mod 64) * 4096
            + (byte b2 mod 64) * 64 + byte b3 mod 64 in
  let hi := 55296 + (cp - 65536) / 1024 in
  String (ascii_of_nat 237)
         (String (ascii_of_N (Z.to_N (128 + (hi / 64) mod 64)))
                 (String (ascii_of_N (Z.to_N (128 + hi mod 64))) "")).

(** [s.slice(0, n)]: the first [n] code units; a code point of two units
    that the cut falls in gives its high surrogate. *)
Fixpoint slice0 (n : nat) (s : string) : string :=
  match s with
  | EmptyString => ""
  | String c r =>
      if isContinuation c then String c (slice0 n r)
      else
        match n with
        | O => ""
        | S k =>
            if isLead4 c then
              match k with
              | S k' => String c (slice0 k' r)
              | O =>
                  match r with
                  | String b1 (String b2 (String b3 _)) => highSurrogate c b1 b2 b3
                  | _ => ""
                  end
              end
            else String c (slice0 k r)
        end
  end.

(** [s.startsWith(p)]. *)
Fixpoint startsWith (s p : string) {struct p} : bool :=
  match p, s with
  | EmptyString, _ => true
  | String c p', String d s' => Ascii.eqb c d && startsWith s' p'
  | String _ _, EmptyString => false
  end.

(** [s.includes(t)]. *)
Fixpoint includes (s t : string) : bool :=
  startsWith s t || match s with String _ r => includes r t | EmptyString => false end.

(** ["c".repeat(n)]. *)
Fixpoint repeat (c : ascii) (n : nat) : string :=
  match n with O => "" | S k => String c (repeat c k) end.

(** The letters A to Z in lower case, the others as they are: the case
    folding under which the flag [i] of a pattern of ASCII letters (the
    default consensus pattern) matches. *)
Definition lowerAscii (c : ascii) : ascii :=
  let n := nat_of_ascii c in
  if ((65 <=? n)%nat && (n <=? 90)%nat)%bool then ascii_of_nat (n + 32) else c.

Fixpoint toLowerCase (s : string) : string :=
  match s with
  | EmptyString => EmptyString
  | String c r => String (lowerAscii c) (toLowerCase r)
  end.

End JsString.
Import JsString.

(** ** server/cli-runner.ts: quoting and template rendering *)

Module CliRunner.

(** The replacement text of [shQuote]: the template literal
    [`'\"'\"'`] is the five characters quote, double quote, quote,
    double quote, quote. *)
Definition quoteEscape : string :=
  String squote (String dquote (String squote (String dquote (String squote "")))).

(** [value.replace(/'/g, quoteEscape)]; the replacement text holds no [$],
    so it is inserted as it is. *)
Fixpoint escapeQuotes (value : string) : string :=
  match value with
  | EmptyString => EmptyString
  | String c r =>
      if Ascii.eqb c squote then quoteEscape ++ escapeQuotes r
      else String c (escapeQuotes r)
  end.

Definition shQuote (value : string) : string :=
  String squote (escapeQuotes value ++ String squote "").

(** [GetSubstitution] of ECMAScript for a string pattern (no captures, no
    named groups): in the replacement text [$$] stands for [$], [$&] for the
    matched text, [$`] for the text before the match and [$'] for the text
    after it; any other [$] is literal. *)
Fixpoint getSubstitution (matched before after repl : string) : string :=
  match repl with
  | EmptyString => EmptyString
  | String c r =>
      if Ascii.eqb c "$" then
        match r with
        | String d r' =>
            if Ascii.eqb d "$" then String "$" (getSubstitution matched before after r')
            else if Ascii.eqb d "&" then matched ++ getSubstitution matched before after r'
            else if Ascii.eqb d "`" then before ++ getSubstitution matched before after r'
            else if Ascii.eqb d squote then after ++ getSubstitution matched before after r'
            else String c (getSubstitution matched before after r)
        | EmptyString => String c EmptyString
        end
      else String c (getSubstitution matched before after r)
  end.

(** Drop the first [n] units. *)
Fixpoint drop (n : nat) (s : string) : string :=
  match n, s with
  | S k, String _ r => drop k r
  | _, _ => s
  end.

(** [String.prototype.replaceAll(search, repl)] for a non-empty [search]
    (the engine only searches for [{key}]): the matches are found left to
    right in the original string, without overlap.  [before] is the text
    already scanned (reversed), [skip] the units of the current match still
    to be passed over. *)
Fixpoint replaceAll_go (search repl : string) (before : string) (skip : nat)
         (rest : string) : string :=
  match rest with
  | EmptyString => EmptyString
  | String c r =>
      match skip with
      | S k => replaceAll_go search repl (String c before) k r
      | O =>
          if startsWith rest search then
            getSubstitution search (rev_string before "")
                            (drop (String.length search) rest) repl
            ++ replaceAll_go search repl (String c before)
                             (Nat.pred (String.length search)) r
          else String c (replaceAll_go search repl (String c before) O r)
      end
  end.

Definition replaceAll (s search repl : string) : string :=
  replaceAll_go search repl "" O s.

(** [renderTemplate(template, vars)]; [vars] in [Object.entries] order. *)
Fixpoint renderTemplate (template : string) (vars : list (string * string)) : string :=
  match vars with
  | [] => template
  | (key, value) :: rest =>
      renderTemplate (replaceAll template ("{" ++ key ++ "}") (shQuote value)) rest
  end.

(** *** The process side of [CliAgentRunner.runAgent]

    [JSON.parse] and the regular expressions of [extractSessionId] are the
    platform's; the three extraction functions are taken as they are
    declared, over an opaque type of parsed values. *)

Record CommandTemplates := mkTemplates { tpl_start : string; tpl_resume : string }.

Inductive AgentName := gemini | codex.

Definition agentName (a : AgentName) : string :=
  match a with gemini => "gemini" | codex => "codex" end.

Record AgentRunOptions := mkOptions {
  opt_agent : AgentName;
  opt_prompt : string;
  opt_sessionId : option string;
  opt_timeoutMs : Z;
  opt_commandTemplates : CommandTemplates
}.

Record AgentRunResult := mkResult {
  res_stdout : string;
  res_stderr : string;
  res_text : string;
  res_sessionId : string;
  res_command : string
}.

(** How the promise returned by [runAgent] settles. *)
Inductive Settled :=
| Resolved (result : AgentRunResult)
| Rejected (message : string).

(** [a || b] on strings. *)
Definition orElse (a b : string) : string := if truthy a then a else b.

(** [options.sessionId ?? ""]. *)
Definition orEmpty (o : option string) : string :=
  match o with Some s => s | None => "" end.

(** The command line [runAgent] hands to the shell. *)
Definition command (options : AgentRunOptions) : string :=
  renderTemplate
    (if truthyOpt (opt_sessionId options)
     then tpl_resume (opt_commandTemplates options)
     else tpl_start (opt_commandTemplates options))
    [("prompt", opt_prompt options); ("session_id", orEmpty (opt_sessionId options))].

Section OnClose.

Variable unknown : Type.
Variable tryParseJson : string -> unknown.
Variable extractText : string -> unknown -> string.
Variable extractSessionId : string -> unknown -> string.

(** The [close] handler of [runAgent], when the promise is not settled yet:
    [exitCode] is [None] for a process ended by a signal. *)
Definition onClose (options : AgentRunOptions) (exitCode : option Z)
           (stdout stderr : string) : Settled :=
  let code := match exitCode with Some c => c | None => 1 end in
  if negb (code =? 0) then
    Rejected (agentName (opt_agent options) ++ " command failed (exit=" ++ ofZ code ++ ")"
              ++ (if truthy stderr then ": " ++ stderr else ""))
  else
    let parsed := tryParseJson stdout in
    Resolved {|
      res_stdout := stdout;
      res_stderr := stderr;
      res_text := extractText stdout parsed;
      res_sessionId :=
        orElse (orElse (extractSessionId stdout parsed) (orEmpty (opt_sessionId options))) "";
      res_command := command options
    |}.

End OnClose.

End CliRunner.
Import CliRunner.

(** ** A POSIX-shell-style tokenizer

    The reference against which the quoting of [shQuote] is read: words are
    separated by blanks; inside single quotes every character is literal;
    inside double quotes a backslash escapes [$], the backquote, the double
    quote, the backslash and the newline; outside quotes a backslash makes the
    next character literal (a backslash-newline pair disappears).  Expansions
    are not performed.  [None] is an unterminated quote or escape. *)

Module Posix.




Definition started (cur : option string) : string :=
  match cur with Some w => w | None => "" end.




End Posix.




(** ** server/types.ts *)

Inductive PanelName := panel_left | panel_center | panel_right.
Inductive AgentStatus := agent_idle | agent_connecting | agent_ready | agent_error.
Inductive DebateStatus :=
  idle | running | pause_requested | paused | stopping | stopped | completed.

Definition AgentName_eqb (a b : AgentName) : bool :=
  match a, b with gemini, gemini | codex, codex => true | _, _ => false end.

Definition AgentStatus_eqb (a b : AgentStatus) : bool :=
  match a, b with
  | agent_idle, agent_idle | agent_connecting, agent_connecting
  | agent_ready, agent_ready | agent_error, agent_error => true
  | _, _ => false
  end.

Definition DebateStatus_eqb (a b : DebateStatus) : bool :=
  match a, b with
  | idle, idle | running, running | pause_requested, pause_requested
  | paused, paused | stopping, stopping | stopped, stopped
  | completed, completed => true
  | _, _ => false
  end.

Definition statusName (s : DebateStatus) : string :=
  match s with
  | idle => "idle" | running => "running" | pause_requested => "pause_requested"
  | paused => "paused" | stopping => "stopping" | stopped => "stopped"
  | completed => "completed"
  end.

Record AgentSession := mkSession {
  as_agent : AgentName;
  as_sessionId : string;
  as_status : AgentStatus;
  as_lastConnectedAt : string;
  as_lastError : option string
}.

Record TranscriptEntry := mkEntry {
  te_runId : string;
  te_ts : string;
  te_round : Z;
  te_from : AgentName;
  te_to : AgentName;
  te_prompt : string;
  te_response : string;
  te_rawStdout : string;
  te_rawStderr : string
}.

Record DebateStateSnapshot := mkDebate {
  status : DebateStatus;
  runId : string;
  round : Z;
  topic : string;
  maxRounds : Z;
  reason : option string
}.

Record RuntimeConfig := mkConfig {
  port : Z;
  defaultMaxRounds : Z;
  turnTimeoutMs : Z;
  consensusRegex : string -> bool;     (* [consensusRegex.test], flag [i] only *)
  commandTemplates : AgentName -> CommandTemplates
}.

Inductive ServerEvent :=
| agent_status (agent : AgentName) (st : AgentStatus)
               (sessionId : option string) (error : option string)
| debate_state (st : DebateStatus) (runId : option string) (round : option Z)
               (reason : option string) (topic : option string) (maxRounds : option Z)
| turn_log (entry : TranscriptEntry)
| panel_output (panel : PanelName) (line : string)
| error_event (code message : string) (detail : option string).

(** ** server/session-store.ts

    The session file is held as the data [read] returns for it (a missing or
    corrupt file reads as three empty strings). *)

Module SessionStore.

Record SessionFileData := mkData {
  updatedAt : string;
  sf_gemini : string;
  sf_codex : string
}.

Definition empty : SessionFileData := mkData "" "" "".

Definition upsert (now : string) (agent : AgentName) (sessionId : string)
           (current : SessionFileData) : SessionFileData :=
  {| updatedAt := now;
     sf_gemini := match agent with gemini => sessionId | codex => sf_gemini current end;
     sf_codex := match agent with codex => sessionId | gemini => sf_codex current end |}.

End SessionStore.

(** ** server/run-log-store.ts

    The runs directory holds, per run id, a summary file and a line-per-entry
    log file; each is kept here as an association list on the run id, the
    first binding being the file's content. *)

Module RunLogStore.

Record RunSummary := mkSummary {
  rs_runId : string;
  rs_createdAt : string;
  rs_updatedAt : string;
  rs_topic : string;
  rs_maxRounds : Z;
  rs_textLimit : option Z;
  rs_status : DebateStatus;
  rs_round : Z;
  rs_reason : option string
}.

(** [Partial<RunSummary>]: a key is there, with a value, or not.  The keys
    [textLimit] and [reason] may be there with [undefined]. *)
Record Patch := mkPatch {
  p_runId : option string;
  p_createdAt : option string;
  p_updatedAt : option string;
  p_topic : option string;
  p_maxRounds : option Z;
  p_textLimit : option (option Z);
  p_status : option DebateStatus;
  p_round : option Z;
  p_reason : option (option string)
}.

(** [{}]. *)
Definition noPatch : Patch := mkPatch None None None None None None None None None.

(** [patch.key ?? previous.key] for a key that is there or not. *)
Definition over {A} (written : option A) (previous : A) : A :=
  match written with Some x => x | None => previous end.

Record t := mkStore {
  summaryFiles : list (string * RunSummary);
  jsonlFiles : list (string * list TranscriptEntry)
}.

Definition empty : t := mkStore [] [].

Fixpoint lookup {A} (k : string) (l : list (string * A)) : option A :=
  match l with
  | [] => None
  | (k', v) :: r => if String.eqb k k' then Some v else lookup k r
  end.

(** [run_<stamp>_<suffix>]: the date stamp and the random suffix come from
    the platform. *)
Definition makeRunId (stamp suffix : string) : string :=
  "run_" ++ stamp ++ "_" ++ suffix.

Definition createRun (now stamp suffix : string) (topic : string) (maxRounds : Z)
           (textLimit : option Z) (s : t) : RunSummary * t :=
  let summary := {|
    rs_runId := makeRunId stamp suffix;
    rs_createdAt := now;
    rs_updatedAt := now;
    rs_topic := topic;
    rs_maxRounds := maxRounds;
    rs_textLimit := textLimit;
    rs_status := running;
    rs_round := 0;
    rs_reason := None |} in
  (summary,
   {| summaryFiles := (rs_runId summary, summary) :: summaryFiles s;
      jsonlFiles := (rs_runId summary, []) :: jsonlFiles s |}).

Definition append (entry : TranscriptEntry) (s : t) : t :=
  let old := match lookup (te_runId entry) (jsonlFiles s) with
             | Some es => es | None => [] end in
  {| summaryFiles := summaryFiles s;
     jsonlFiles := (te_runId entry, (old ++ [entry])%list) :: jsonlFiles s |}.

Definition readSummary (runId : string) (s : t) : option RunSummary :=
  lookup runId (summaryFiles s).

(** [{ ...previous, ...patch, updatedAt: now }]. *)
Definition applyPatch (now : string) (patch : Patch) (previous : RunSummary) : RunSummary :=
  {| rs_runId := over (p_runId patch) (rs_runId previous);
     rs_createdAt := over (p_createdAt patch) (rs_createdAt previous);
     rs_updatedAt := now;
     rs_topic := over (p_topic patch) (rs_topic previous);
     rs_maxRounds := over (p_maxRounds patch) (rs_maxRounds previous);
     rs_textLimit := over (p_textLimit patch) (rs_textLimit previous);
     rs_status := over (p_status patch) (rs_status previous);
     rs_round := over (p_round patch) (rs_round previous);
     rs_reason := over (p_reason patch) (rs_reason previous) |}.

(** [None] when the run has no summary file ([updateSummary] throws). *)
Definition updateSummary (now : string) (runId : string) (patch : Patch) (s : t) : option t :=
  match readSummary runId s with
  | None => None
  | Some previous =>
      Some {| summaryFiles := (runId, applyPatch now patch previous) :: summaryFiles s;
              jsonlFiles := jsonlFiles s |}
  end.

Definition readRun (runId : string) (s : t)
  : option (RunSummary * list TranscriptEntry) :=
  match readSummary runId s with
  | None => None
  | Some summary =>
      Some (summary,
            match lookup runId (jsonlFiles s) with Some es => es | None => [] end)
  end.

End RunLogStore.

(** ** server/debate-engine.ts *)

Module Engine.

Import RunLogStore.

Definition CONNECT_PROMPT : string := "세션 연결 상태 점검입니다. 짧게 OK로만 응답하세요.".
Definition ANSI_RESET : string := esc ++ "[0m".
Definition ANSI_DIM : string := esc ++ "[2m".
Definition ANSI_BOLD : string := esc ++ "[1m".
Definition ANSI_CYAN : string := esc ++ "[36m".
Definition ANSI_GREEN : string := esc ++ "[32m".
Definition ANSI_YELLOW : string := esc ++ "[33m".
Definition ANSI_MAGENTA : string := esc ++ "[35m".

Definition panelForAgent (agent : AgentName) : PanelName :=
  match agent with gemini => panel_left | codex => panel_right end.

Definition otherAgent (agent : AgentName) : AgentName :=
  match agent with gemini => codex | codex => gemini end.

Definition colorAgent (agent : AgentName) : string :=
  match agent with
  | codex => ANSI_CYAN ++ "CODEX" ++ ANSI_RESET
  | gemini => ANSI_GREEN ++ "GEMINI" ++ ANSI_RESET
  end.

Definition turnSlot (from : AgentName) : string :=
  match from with codex => "A" | gemini => "B" end.

Definition relayDivider (round : Z) : string :=
  ANSI_DIM ++ "━━━━━━━━━━━━━━━━━ ROUND " ++ ofZ round ++ " ━━━━━━━━━━━━━━━━━" ++ ANSI_RESET.

Definition relayRequestLine (round : Z) (from to : AgentName) : string :=
  ANSI_BOLD ++ ANSI_YELLOW ++ "[R" ++ ofZ round ++ "-T" ++ turnSlot from ++ "]" ++ ANSI_RESET ++ " "
  ++ colorAgent from ++ " " ++ ANSI_MAGENTA ++ "→" ++ ANSI_RESET ++ " " ++ colorAgent to ++ " "
  ++ ANSI_BOLD ++ "요청 실행" ++ ANSI_RESET.

Definition relayResponseLine (round : Z) (from : AgentName) (response : string) : string :=
  ANSI_BOLD ++ ANSI_YELLOW ++ "[R" ++ ofZ round ++ "-T" ++ turnSlot from ++ "]" ++ ANSI_RESET ++ " "
  ++ colorAgent from ++ " " ++ ANSI_BOLD ++ "응답" ++ ANSI_RESET ++ ": "
  ++ orElse response "(empty)".

(** [Record<AgentName, AgentSession>]. *)
Record Agents := mkAgents { ag_gemini : AgentSession; ag_codex : AgentSession }.

Definition agentOf (a : Agents) (agent : AgentName) : AgentSession :=
  match agent with gemini => ag_gemini a | codex => ag_codex a end.

Definition setAgent (agent : AgentName) (v : AgentSession) (a : Agents) : Agents :=
  match agent with
  | gemini => {| ag_gemini := v; ag_codex := ag_codex a |}
  | codex => {| ag_gemini := ag_gemini a; ag_codex := v |}
  end.

Record ControlFlags := mkControl { pauseRequested : bool; stopRequested : bool }.

(** Who awaits a [runAgent] promise, with the locals it resumes with:
    [connectAgent], or [invokeTurn] (whose caller is [runLoop]). *)
Inductive Awaiter :=
| ByConnect (agent : AgentName)
| ByTurn (from to : AgentName) (round : Z) (prompt runId : string).

Record PendingCall := mkPending { pc_options : AgentRunOptions; pc_awaiter : Awaiter }.

(** The suspension points of [runLoop], with its live locals. *)
Inductive LoopState :=
| LNone
    (* no [runLoop] is in progress *)
| LAwaitTurn (round : Z) (codexTurn : option AgentRunResult)
    (* [await this.invokeTurn(...)]: codex's turn of [round] when [None],
       gemini's when [Some codex] *)
| LAwaitResume (round : Z) (latestGemini : string) (released : bool)
    (* [await this.waitUntilResumedOrStopped()]; [released] once the awaited
       promise is resolved and the continuation is queued *)
| LSettled.
    (* [runLoop] has returned; the [finally] callback of [startDebate] is
       queued *)

Record DebateEngine := mkEngine {
  debate : DebateStateSnapshot;   (* [this.state.debate] *)
  agents : Agents;   (* [this.state.agents] *)
  currentRun : option RunLogStore.RunSummary;
  executionPromise : bool;   (* [this.executionPromise !== null] *)
  control : ControlFlags;
  pauseWait : bool;   (* [this.pauseWait !== null] *)
  consecutiveEmptyResponses : Z;
  sessionStore : SessionStore.SessionFileData;   (* the session file *)
  runLogStore : RunLogStore.t;   (* the runs directory *)
  emitted : list ServerEvent;   (* what [emit] was called with, oldest first *)
  calls : list PendingCall;   (* every call of [runner.runAgent] with its caller, oldest first *)
  cancels : nat;   (* how often [runner.cancelActive] was called *)
  pending : list PendingCall;   (* the [runAgent] promises not settled yet, each with its awaiter *)
  loop : LoopState;   (* where [runLoop] is suspended *)
  clock : string   (* what [new Date().toISOString()] returns *)
}.

Definition set_debate (v : DebateStateSnapshot) (e : DebateEngine) : DebateEngine :=
  {| debate := v;
     agents := agents e;
     currentRun := currentRun e;
     executionPromise := executionPromise e;
     control := control e;
     pauseWait := pauseWait e;
     consecutiveEmptyResponses := consecutiveEmptyResponses e;
     sessionStore := sessionStore e;
     runLogStore := runLogStore e;
     emitted := emitted e;
     calls := calls e;
     cancels := cancels e;
     pending := pending e;
     loop := loop e;
     clock := clock e |}.

Definition set_agents (v : Agents) (e : DebateEngine) : DebateEngine :=
  {| debate := debate e;
     agents := v;
     currentRun := currentRun e;
     executionPromise := executionPromise e;
     control := control e;
     pauseWait := pauseWait e;
     consecutiveEmptyResponses := consecutiveEmptyResponses e;
     sessionStore := sessionStore e;
     runLogStore := runLogStore e;
     emitted := emitted e;
     calls := calls e;
     cancels := cancels e;
     pending := pending e;
     loop := loop e;
     clock := clock e |}.

Definition set_currentRun (v : option RunLogStore.RunSummary) (e : DebateEngine) : DebateEngine :=
  {| debate := debate e;
     agents := agents e;
     currentRun := v;
     executionPromise := executionPromise e;
     control := control e;
     pauseWait := pauseWait e;
     consecutiveEmptyResponses := consecutiveEmptyResponses e;
     sessionStore := sessionStore e;
     runLogStore := runLogStore e;
     emitted := emitted e;
     calls := calls e;
     cancels := cancels e;
     pending := pending e;
     loop := loop e;
     clock := clock e |}.

Definition set_executionPromise (v : bool) (e : DebateEngine) : DebateEngine :=
  {| debate := debate e;
     agents := agents e;
     currentRun := currentRun e;
     executionPromise := v;
     control := control e;
     pauseWait := pauseWait e;
     consecutiveEmptyResponses := consecutiveEmptyResponses e;
     sessionStore := sessionStore e;
     runLogStore := runLogStore e;
     emitted := emitted e;
     calls := calls e;
     cancels := cancels e;
     pending := pending e;
     loop := loop e;
     clock := clock e |}.

Definition set_control (v : ControlFlags) (e : DebateEngine) : DebateEngine :=
  {| debate := debate e;
     agents := agents e;
     currentRun := currentRun e;
     executionPromise := executionPromise e;
     control := v;
     pauseWait := pauseWait e;
     consecutiveEmptyResponses := consecutiveEmptyResponses e;
     sessionStore := sessionStore e;
     runLogStore := runLogStore e;
     emitted := emitted e;
     calls := calls e;
     cancels := cancels e;
     pending := pending e;
     loop := loop e;
     clock := clock e |}.

Definition set_pauseWait (v : bool) (e : DebateEngine) : DebateEngine :=
  {| debate := debate e;
     agents := agents e;
     currentRun := currentRun e;
     executionPromise := executionPromise e;
     control := control e;
     pauseWait := v;
     consecutiveEmptyResponses := consecutiveEmptyResponses e;
     sessionStore := sessionStore e;
     runLogStore := runLogStore e;
     emitted := emitted e;
     calls := calls e;
     cancels := cancels e;
     pending := pending e;
     loop := loop e;
     clock := clock e |}.

Definition set_consecutiveEmptyResponses (v : Z) (e : DebateEngine) : DebateEngine :=
  {| debate := debate e;
     agents := agents e;
     currentRun := currentRun e;
     executionPromise := executionPromise e;
     control := control e;
     pauseWait := pauseWait e;
     consecutiveEmptyResponses := v;
     sessionStore := sessionStore e;
     runLogStore := runLogStore e;
     emitted := emitted e;
     calls := calls e;
     cancels := cancels e;
     pending := pending e;
     loop := loop e;
     clock := clock e |}.

Definition set_sessionStore (v : SessionStore.SessionFileData) (e : DebateEngine) : DebateEngine :=
  {| debate := debate e;
     agents := agents e;
     currentRun := currentRun e;
     executionPromise := executionPromise e;
     control := control e;
     pauseWait := pauseWait e;
     consecutiveEmptyResponses := consecutiveEmptyResponses e;
     sessionStore := v;
     runLogStore := runLogStore e;
     emitted := emitted e;
     calls := calls e;
     cancels := cancels e;
     pending := pending e;
     loop := loop e;
     clock := clock e |}.

Definition set_runLogStore (v : RunLogStore.t) (e : DebateEngine) : DebateEngine :=
  {| debate := debate e;
     agents := agents e;
     currentRun := currentRun e;
     executionPromise := executionPromise e;
     control := control e;
     pauseWait := pauseWait e;
     consecutiveEmptyResponses := consecutiveEmptyResponses e;
     sessionStore := sessionStore e;
     runLogStore := v;
     emitted := emitted e;
     calls := calls e;
     cancels := cancels e;
     pending := pending e;
     loop := loop e;
     clock := clock e |}.

Definition set_emitted (v : list ServerEvent) (e : DebateEngine) : DebateEngine :=
  {| debate := debate e;
     agents := agents e;
     currentRun := currentRun e;
     executionPromise := executionPromise e;
     control := control e;
     pauseWait := pauseWait e;
     consecutiveEmptyResponses := consecutiveEmptyResponses e;
     sessionStore := sessionStore e;
     runLogStore := runLogStore e;
     emitted := v;
     calls := calls e;
     cancels := cancels e;
     pending := pending e;
     loop := loop e;
     clock := clock e |}.

Definition set_calls (v : list PendingCall) (e : DebateEngine) : DebateEngine :=
  {| debate := debate e;
     agents := agents e;
     currentRun := currentRun e;
     executionPromise := executionPromise e;
     control := control e;
     pauseWait := pauseWait e;
     consecutiveEmptyResponses := consecutiveEmptyResponses e;
     sessionStore := sessionStore e;
     runLogStore := runLogStore e;
     emitted := emitted e;
     calls := v;
     cancels := cancels e;
     pending := pending e;
     loop := loop e;
     clock := clock e |}.

Definition set_cancels (v : nat) (e : DebateEngine) : DebateEngine :=
  {| debate := debate e;
     agents := agents e;
     currentRun := currentRun e;
     executionPromise := executionPromise e;
     control := control e;
     pauseWait := pauseWait e;
     consecutiveEmptyResponses := consecutiveEmptyResponses e;
     sessionStore := sessionStore e;
     runLogStore := runLogStore e;
     emitted := emitted e;
     calls := calls e;
     cancels := v;
     pending := pending e;
     loop := loop e;
     clock := clock e |}.

Definition set_pending (v : list PendingCall) (e : DebateEngine) : DebateEngine :=
  {| debate := debate e;
     agents := agents e;
     currentRun := currentRun e;
     executionPromise := executionPromise e;
     control := control e;
     pauseWait := pauseWait e;
     consecutiveEmptyResponses := consecutiveEmptyResponses e;
     sessionStore := sessionStore e;
     runLogStore := runLogStore e;
     emitted := emitted e;
     calls := calls e;
     cancels := cancels e;
     pending := v;
     loop := loop e;
     clock := clock e |}.

Definition set_loop (v : LoopState) (e : DebateEngine) : DebateEngine :=
  {| debate := debate e;
     agents := agents e;
     currentRun := currentRun e;
     executionPromise := executionPromise e;
     control := control e;
     pauseWait := pauseWait e;
     consecutiveEmptyResponses := consecutiveEmptyResponses e;
     sessionStore := sessionStore e;
     runLogStore := runLogStore e;
     emitted := emitted e;
     calls := calls e;
     cancels := cancels e;
     pending := pending e;
     loop := v;
     clock := clock e |}.

Definition set_clock (v : string) (e : DebateEngine) : DebateEngine :=
  {| debate := debate e;
     agents := agents e;
     currentRun := currentRun e;
     executionPromise := executionPromise e;
     control := control e;
     pauseWait := pauseWait e;
     consecutiveEmptyResponses := consecutiveEmptyResponses e;
     sessionStore := sessionStore e;
     runLogStore := runLogStore e;
     emitted := emitted e;
     calls := calls e;
     cancels := cancels e;
     pending := pending e;
     loop := loop e;
     clock := v |}.

(** What a job reports to whoever started it: a method that returns or
    throws, a promise that is fulfilled or rejected; [Ignored] for a label
    that is not enabled in the state. *)
Inductive Reply := Returned | Threw (message : string) | Ignored.

(** The jobs of the event loop. *)
Inductive Label :=
| ConnectAgent (agent : AgentName) (resumeSessionId : option string)
| StartDebate (topic : string) (maxRounds : option Z) (stamp suffix : string)
| PauseDebate
| ResumeDebate
| StopDebate
| Settle (k : nat) (outcome : Settled)   (* the [k]th pending [runAgent] promise settles *)
| StdoutLine (k : nat) (line : string)   (* the runner calls [onStdoutLine] of the [k]th *)
| StderrLine (k : nat) (line : string)
| Wake                                   (* [runLoop] resumes after its pause wait *)
| Finalize                               (* the [finally] callback of [startDebate] *)
| Tick (now : string).                   (* time passes *)

Section WithConfig.

Variable config : RuntimeConfig.

Definition initial (persisted : SessionStore.SessionFileData) : DebateEngine :=
  {| debate := {| status := idle; runId := ""; round := 0; topic := "";
                  maxRounds := defaultMaxRounds config; reason := None |};
     agents := {| ag_gemini := mkSession gemini (SessionStore.sf_gemini persisted) agent_idle "" None;
                  ag_codex := mkSession codex (SessionStore.sf_codex persisted) agent_idle "" None |};
     currentRun := None;
     executionPromise := false;
     control := mkControl false false;
     pauseWait := false;
     consecutiveEmptyResponses := 0;
     sessionStore := persisted;
     runLogStore := RunLogStore.empty;
     emitted := [];
     calls := [];
     cancels := O;
     pending := [];
     loop := LNone;
     clock := "" |}.

Definition emit (event : ServerEvent) (e : DebateEngine) : DebateEngine :=
  set_emitted (emitted e ++ [event])%list e.

Definition setDebateStatus (st : DebateStatus) (rsn : option string)
           (e : DebateEngine) : DebateEngine :=
  let d := debate e in
  let e := set_debate {| status := st; runId := runId d; round := round d; topic := topic d;
                         maxRounds := maxRounds d; reason := rsn |} e in
  emit (debate_state st (nonEmpty (runId d)) (nonZero (round d)) rsn
                     (nonEmpty (topic d)) (nonZero (maxRounds d))) e.

(** [details] of [setAgentStatus], as its two optional fields. *)
Definition setAgentStatus (agent : AgentName) (st : AgentStatus)
           (sessionId error : option string) (e : DebateEngine) : DebateEngine :=
  let a := agentOf (agents e) agent in
  let updated := truthyOpt sessionId in
  let a' := {| as_agent := as_agent a;
               as_sessionId := if updated then orEmpty sessionId else as_sessionId a;
               as_status := st;
               as_lastConnectedAt := if updated then clock e else as_lastConnectedAt a;
               as_lastError := error |} in
  let e := set_agents (setAgent agent a' (agents e)) e in
  emit (agent_status agent st
                     (nonEmpty (match sessionId with
                                | Some s => s
                                | None => as_sessionId a'
                                end))
                     error) e.

Definition panelOutput (panel : PanelName) (line : string) (e : DebateEngine) : DebateEngine :=
  emit (panel_output panel line) e.

Definition runAgent (options : AgentRunOptions) (awaiter : Awaiter)
           (e : DebateEngine) : DebateEngine :=
  set_pending (pending e ++ [mkPending options awaiter])%list
              (set_calls (calls e ++ [mkPending options awaiter])%list e).

(** *** connectAgent *)

Definition connectAgent (agent : AgentName) (resumeSessionId : option string)
           (e : DebateEngine) : DebateEngine * Reply :=
  match status (debate e) with
  | running | pause_requested =>
      (e, Threw "토론 실행 중에는 에이전트 재연결을 할 수 없습니다.")
  | _ =>
      let currentSessionId := as_sessionId (agentOf (agents e) agent) in
      let resolvedSessionId :=
        match resumeSessionId with Some s => s | None => currentSessionId end in
      let e := setAgentStatus agent agent_connecting None None e in
      let e := panelOutput panel_center ("[" ++ agentName agent ++ "] 연결 시도 중...") e in
      (runAgent {| opt_agent := agent;
                   opt_prompt := CONNECT_PROMPT;
                   opt_sessionId := nonEmpty resolvedSessionId;
                   opt_timeoutMs := turnTimeoutMs config;
                   opt_commandTemplates := commandTemplates config agent |}
                (ByConnect agent) e,
       Returned)
  end.

Definition connectFailed (agent : AgentName) (message : string)
           (e : DebateEngine) : DebateEngine * Reply :=
  let e := setAgentStatus agent agent_error None (Some message) e in
  let e := panelOutput panel_center ("[" ++ agentName agent ++ "] 연결 실패: " ++ message) e in
  (e, Threw message).

(** [connectAgent] after its [await]. *)
Definition connectAgent_resume (agent : AgentName) (outcome : Settled)
           (e : DebateEngine) : DebateEngine * Reply :=
  match outcome with
  | Rejected message => connectFailed agent message e
  | Resolved result =>
      if negb (truthy (res_sessionId result)) then
        connectFailed agent (agentName agent ++ " session id를 추출하지 못했습니다.") e
      else
        let e := set_sessionStore
                   (SessionStore.upsert (clock e) agent (res_sessionId result) (sessionStore e)) e in
        let e := setAgentStatus agent agent_ready (Some (res_sessionId result)) None e in
        let e := panelOutput panel_center
                   ("[" ++ agentName agent ++ "] 연결 완료 (" ++ res_sessionId result ++ ")") e in
        (e, Returned)
  end.

(** *** runLoop and invokeTurn *)

(** [{ status: finalStatus, round: this.state.debate.round, reason: finalReason }]. *)
Definition finalPatch (finalStatus : DebateStatus) (rnd : Z) (finalReason : string) : Patch :=
  {| p_runId := None; p_createdAt := None; p_updatedAt := None; p_topic := None;
     p_maxRounds := None; p_textLimit := None;
     p_status := Some finalStatus; p_round := Some rnd;
     p_reason := Some (Some finalReason) |}.

(** [{ round }]. *)
Definition roundPatch (rnd : Z) : Patch :=
  {| p_runId := None; p_createdAt := None; p_updatedAt := None; p_topic := None;
     p_maxRounds := None; p_textLimit := None;
     p_status := None; p_round := Some rnd; p_reason := None |}.

(** The [finally] block of [runLoop]; the promise of [runLoop] settles
    after it. *)
Definition runLoop_finally (finalStatus : DebateStatus) (finalReason : string)
           (e : DebateEngine) : DebateEngine :=
  let e := set_control (mkControl false false) e in
  let e := setDebateStatus finalStatus (Some finalReason) e in
  let e := panelOutput panel_center
             ("=== 토론 종료: " ++ statusName finalStatus ++ " (" ++ finalReason ++ ") ===") e in
  let e :=
    match currentRun e with
    | Some run =>
        match updateSummary (clock e) (rs_runId run)
                            (finalPatch finalStatus (round (debate e)) finalReason)
                            (runLogStore e) with
        | Some store => set_runLogStore store e
        | None => e
        end
    | None => e
    end in
  set_loop LSettled e.

(** The [catch] block of [runLoop]. *)
Definition runLoop_catch (message : string) (e : DebateEngine) : DebateEngine :=
  let e := emit (error_event "RUN_LOOP_ERROR" "토론 실행 중 오류가 발생했습니다." (Some message)) e in
  let e := panelOutput panel_center ("토론 오류: " ++ message) e in
  runLoop_finally stopped message e.

(** The code after the [for] loop, reached by its natural exit and by every
    [break]. *)
Definition runLoop_after (finalStatus : DebateStatus) (finalReason : string)
           (e : DebateEngine) : DebateEngine :=
  let finalReason :=
    if negb (stopRequested (control e)) && (maxRounds (debate e) <=? round (debate e))
    then (if String.eqb finalReason "completed" then "max rounds reached" else finalReason)
    else finalReason in
  runLoop_finally finalStatus finalReason e.

(** [for (const line of lines) this.panelOutput(panel, line)]. *)
Definition emitLines (panel : PanelName) (lines : list string) (e : DebateEngine) : DebateEngine :=
  set_emitted (emitted e ++ map (panel_output panel) lines)%list e.

(** [invokeTurn] up to its [await]; [inr] is a throw. *)
Definition invokeTurn (from to : AgentName) (rnd : Z) (prompt : string)
           (e : DebateEngine) : DebateEngine + string :=
  let rid := runId (debate e) in
  if negb (truthy rid) then inr "runId가 없습니다."
  else
    let panel := panelForAgent from in
    let e := panelOutput panel (nl ++ "$ Prompt (round " ++ ofZ rnd ++ "):") e in
    let e := emitLines panel (splitLines prompt) e in
    let e := panelOutput panel_center (relayDivider rnd) e in
    let e := panelOutput panel_center (relayRequestLine rnd from to) e in
    let currentSession := as_sessionId (agentOf (agents e) from) in
    inl (runAgent {| opt_agent := from;
                     opt_prompt := prompt;
                     opt_sessionId := nonEmpty currentSession;
                     opt_timeoutMs := turnTimeoutMs config;
                     opt_commandTemplates := commandTemplates config from |}
                  (ByTurn from to rnd prompt rid) e).

(** [invokeTurn] after its [await], for a fulfilled [runAgent]; [inr] is a
    throw. *)
Definition invokeTurn_resume (from to : AgentName) (rnd : Z) (prompt rid : string)
           (result : AgentRunResult) (e : DebateEngine) : DebateEngine * option string :=
  let e :=
    if truthy (res_sessionId result)
       && negb (String.eqb (res_sessionId result) (as_sessionId (agentOf (agents e) from)))
    then
      let e := set_sessionStore
                 (SessionStore.upsert (clock e) from (res_sessionId result) (sessionStore e)) e in
      setAgentStatus from agent_ready (Some (res_sessionId result)) None e
    else e in
  let responseText := trim (res_text result) in
  let e :=
    if negb (truthy responseText)
    then set_consecutiveEmptyResponses (consecutiveEmptyResponses e + 1) e
    else set_consecutiveEmptyResponses 0 e in
  if negb (truthy responseText) && (2 <=? consecutiveEmptyResponses e) then
    (e, Some "연속 2회 빈 응답으로 토론을 중단합니다.")
  else
    let entry := {| te_runId := rid; te_ts := clock e; te_round := rnd;
                    te_from := from; te_to := to; te_prompt := prompt;
                    te_response := responseText;
                    te_rawStdout := res_stdout result;
                    te_rawStderr := res_stderr result |} in
    let e := set_runLogStore (append entry (runLogStore e)) e in
    match updateSummary (clock e) rid (roundPatch rnd) (runLogStore e) with
    | None => (e, Some ("Run summary not found: " ++ rid))
    | Some store =>
        let e := set_runLogStore store e in
        let e := emit (turn_log entry) e in
        let short := if (300 <? length16 responseText)%nat
                     then slice0 300 responseText ++ "..." else responseText in
        (panelOutput panel_center (relayResponseLine rnd from short) e, None)
    end.

Definition codexPrompt (rnd : Z) (topic latestGemini : string) : string :=
  if rnd =? 1 then
    joinLines [ "토론 주제: " ++ topic;
                "당신은 Codex 역할입니다. 토론을 시작하세요.";
                "형식: 주장 2개, 예상 리스크 1개." ]
  else
    joinLines [ "토론 주제: " ++ topic;
                "토론 라운드: " ++ ofZ rnd;
                "상대(Gemini) 최신 의견:" ++ nl ++ latestGemini;
                "상대 의견을 반박/수용으로 나누어 답변하세요." ].

Definition geminiPrompt (rnd : Z) (topic codexText : string) : string :=
  joinLines [ "토론 주제: " ++ topic;
              "토론 라운드: " ++ ofZ rnd;
              "상대(Codex) 최신 의견:" ++ nl ++ codexText;
              "상대 의견에 대한 반박/수용과 개선안을 제시하세요." ].

(** One pass through the head of the [for] loop, from its condition to the
    [await] of codex's turn. *)
Definition runLoop_head (rnd : Z) (latestGemini : string) (e : DebateEngine) : DebateEngine :=
  if rnd <=? maxRounds (debate e) then
    if stopRequested (control e) then runLoop_after stopped "manual stop" e
    else
      let d := debate e in
      let e := set_debate {| status := status d; runId := runId d; round := rnd;
                             topic := topic d; maxRounds := maxRounds d;
                             reason := reason d |} e in
      let e := setDebateStatus (status (debate e)) (reason (debate e)) e in
      match invokeTurn codex gemini rnd (codexPrompt rnd (topic (debate e)) latestGemini) e with
      | inl e => set_loop (LAwaitTurn rnd None) e
      | inr message => runLoop_catch message e
      end
  else runLoop_after completed "completed" e.

(** [runLoop] from its first line to its first suspension. *)
Definition runLoop (e : DebateEngine) : DebateEngine :=
  match currentRun e with
  | None => set_loop LSettled e
  | Some _ => runLoop_head 1 "" e
  end.

(** [waitUntilResumedOrStopped] up to its [await]; the flag tells whether
    the awaited promise is resolved already. *)
Definition waitUntilResumedOrStopped (e : DebateEngine) : DebateEngine * bool :=
  if stopRequested (control e) then (e, true)
  else if negb (DebateStatus_eqb (status (debate e)) paused) then (e, true)
  else (set_pauseWait true e, false).

(** [runLoop] after codex's turn of [rnd] returned [codexTurn]. *)
Definition runLoop_afterCodex (rnd : Z) (codexTurn : AgentRunResult)
           (e : DebateEngine) : DebateEngine :=
  if stopRequested (control e) then runLoop_after stopped "manual stop" e
  else
    match invokeTurn gemini codex rnd
                     (geminiPrompt rnd (topic (debate e)) (res_text codexTurn)) e with
    | inl e => set_loop (LAwaitTurn rnd (Some codexTurn)) e
    | inr message => runLoop_catch message e
    end.

(** [runLoop] after gemini's turn of [rnd] returned [geminiTurn]. *)
Definition runLoop_afterGemini (rnd : Z) (codexTurn geminiTurn : AgentRunResult)
           (e : DebateEngine) : DebateEngine :=
  let latestGemini := res_text geminiTurn in
  if stopRequested (control e) then runLoop_after stopped "manual stop" e
  else if consensusRegex config (res_text codexTurn)
          || consensusRegex config (res_text geminiTurn) then
    let e := panelOutput panel_center
               ("합의 키워드 감지로 라운드 " ++ ofZ rnd ++ "에서 종료합니다.") e in
    runLoop_after completed "consensus detected" e
  else if pauseRequested (control e) then
    let e := setDebateStatus paused (Some "paused at turn boundary") e in
    let (e, released) := waitUntilResumedOrStopped e in
    set_loop (LAwaitResume rnd latestGemini released) e
  else runLoop_head (rnd + 1) latestGemini e.

(** [runLoop] after the pause wait. *)
Definition runLoop_afterWait (rnd : Z) (latestGemini : string)
           (e : DebateEngine) : DebateEngine :=
  if stopRequested (control e) then runLoop_after stopped "manual stop" e
  else runLoop_head (rnd + 1) latestGemini e.

(** The settlement of a turn's [runAgent] promise: [invokeTurn] resumes,
    then [runLoop]. *)
Definition turnSettled (from to : AgentName) (rnd : Z) (prompt rid : string)
           (outcome : Settled) (e : DebateEngine) : DebateEngine * Reply :=
  match loop e with
  | LAwaitTurn r codexTurn =>
      match outcome with
      | Rejected message => (runLoop_catch message e, Returned)
      | Resolved result =>
          match invokeTurn_resume from to rnd prompt rid result e with
          | (e, Some message) => (runLoop_catch message e, Returned)
          | (e, None) =>
              match codexTurn with
              | None => (runLoop_afterCodex r result e, Returned)
              | Some c => (runLoop_afterGemini r c result e, Returned)
              end
          end
      end
  | _ => (e, Ignored)
  end.

(** *** startDebate, pauseDebate, resumeDebate, stopDebate *)

Definition startDebate (topic0 : string) (maxRounds0 : option Z) (stamp suffix : string)
           (e : DebateEngine) : DebateEngine * Reply :=
  let trimmedTopic := trim topic0 in
  if negb (truthy trimmedTopic) then (e, Threw "토론 주제가 비어 있습니다.")
  else if executionPromise e then (e, Threw "이미 실행 중인 토론이 있습니다.")
  else if negb (AgentStatus_eqb (as_status (ag_gemini (agents e))) agent_ready)
          || negb (AgentStatus_eqb (as_status (ag_codex (agents e))) agent_ready)
  then (e, Threw "Gemini와 Codex 모두 ready 상태여야 시작할 수 있습니다.")
  else
    let rounds := match maxRounds0 with Some n => n | None => defaultMaxRounds config end in
    let e := set_control (mkControl false false) e in
    let e := set_consecutiveEmptyResponses 0 e in
    let (run, store) := createRun (clock e) stamp suffix trimmedTopic rounds None (runLogStore e) in
    let e := set_runLogStore store e in
    let e := set_currentRun (Some run) e in
    let e := set_debate {| status := running; runId := rs_runId run; round := 0;
                           topic := trimmedTopic; maxRounds := rounds; reason := None |} e in
    let e := setDebateStatus running None e in
    let e := panelOutput panel_center
               ("=== 토론 시작: " ++ trimmedTopic ++ " (runId=" ++ rs_runId run ++ ") ===") e in
    let e := runLoop e in
    (set_executionPromise true e, Returned).

Definition pauseDebate (e : DebateEngine) : DebateEngine * Reply :=
  if negb (DebateStatus_eqb (status (debate e)) running)
  then (e, Threw "running 상태에서만 일시정지 가능합니다.")
  else
    let e := set_control (mkControl true (stopRequested (control e))) e in
    let e := setDebateStatus pause_requested (Some "pause requested") e in
    (panelOutput panel_center "일시정지 요청됨. 현재 라운드 완료 후 정지합니다." e, Returned).

(** [this.pauseWait.resolve(); this.pauseWait = null]. *)
Definition releasePauseWait (e : DebateEngine) : DebateEngine :=
  if pauseWait e then
    let e := match loop e with
             | LAwaitResume r g _ => set_loop (LAwaitResume r g true) e
             | _ => e
             end in
    set_pauseWait false e
  else e.

Definition resumeDebate (e : DebateEngine) : DebateEngine * Reply :=
  if negb (DebateStatus_eqb (status (debate e)) paused)
  then (e, Threw "paused 상태에서만 재개 가능합니다.")
  else
    let e := set_control (mkControl false (stopRequested (control e))) e in
    let e := setDebateStatus running (Some "resumed") e in
    let e := panelOutput panel_center "토론을 재개합니다." e in
    (releasePauseWait e, Returned).

Definition stopDebate (e : DebateEngine) : DebateEngine * Reply :=
  match status (debate e) with
  | running | pause_requested | paused =>
      let e := set_control (mkControl (pauseRequested (control e)) true) e in
      let e := setDebateStatus stopping (Some "stop requested") e in
      let e := panelOutput panel_center "중지 요청됨. 실행 중 프로세스를 종료합니다." e in
      let e := set_cancels (S (cancels e)) e in
      (releasePauseWait e, Returned)
  | _ => (e, Threw "현재 중지할 수 있는 토론이 없습니다.")
  end.

(** *** The event loop *)

Fixpoint removeNth {A} (k : nat) (l : list A) : list A :=
  match k, l with
  | O, _ :: r => r
  | S k, x :: r => x :: removeNth k r
  | _, [] => []
  end.

Definition exec (l : Label) (e : DebateEngine) : DebateEngine * Reply :=
  match l with
  | ConnectAgent agent resumeSessionId => connectAgent agent resumeSessionId e
  | StartDebate topic0 maxRounds0 stamp suffix => startDebate topic0 maxRounds0 stamp suffix e
  | PauseDebate => pauseDebate e
  | ResumeDebate => resumeDebate e
  | StopDebate => stopDebate e
  | Settle k outcome =>
      match nth_error (pending e) k with
      | None => (e, Ignored)
      | Some call =>
          match pc_awaiter call with
          | ByConnect agent =>
              connectAgent_resume agent outcome (set_pending (removeNth k (pending e)) e)
          | ByTurn from to rnd prompt rid =>
              match loop e with
              | LAwaitTurn _ _ =>
                  turnSettled from to rnd prompt rid outcome
                              (set_pending (removeNth k (pending e)) e)
              | _ => (e, Ignored)
              end
          end
      end
  | StdoutLine k line =>
      match nth_error (pending e) k with
      | None => (e, Ignored)
      | Some call =>
          (panelOutput (panelForAgent (opt_agent (pc_options call))) line e, Returned)
      end
  | StderrLine k line =>
      match nth_error (pending e) k with
      | None => (e, Ignored)
      | Some call =>
          (panelOutput (panelForAgent (opt_agent (pc_options call))) ("ERR: " ++ line) e,
           Returned)
      end
  | Wake =>
      match loop e with
      | LAwaitResume rnd latestGemini true =>
          (runLoop_afterWait rnd latestGemini e, Returned)
      | _ => (e, Ignored)
      end
  | Finalize =>
      match loop e with
      | LSettled => (set_loop LNone (set_executionPromise false e), Returned)
      | _ => (e, Ignored)
      end
  | Tick now => (set_clock now e, Returned)
  end.

(** A run of the event loop. *)
Fixpoint run (ls : list Label) (e : DebateEngine) : DebateEngine :=
  match ls with
  | [] => e
  | l :: r => run r (fst (exec l e))
  end.

Inductive reachable (persisted : SessionStore.SessionFileData) : DebateEngine -> Prop :=
| reach_init : reachable persisted (initial persisted)
| reach_step : forall e l, reachable persisted e -> reachable persisted (fst (exec l e)).

End WithConfig.

End Engine.

(** ** Vocabulary of the properties *)

Import Engine.

(** [s] holds the character [c]. *)
Fixpoint hasChar (c : ascii) (s : string) : bool :=
  match s with
  | EmptyString => false
  | String d r => Ascii.eqb d c || hasChar c r
  end.

(** A call of [runAgent] made by [invokeTurn] (a turn), as opposed to the
    probe of [connectAgent]. *)
Definition isTurn (c : PendingCall) : bool :=
  match pc_awaiter c with ByTurn _ _ _ _ _ => true | ByConnect _ => false end.

Definition turnsOf (l : list PendingCall) : list PendingCall := filter isTurn l.

(** The agent whose turn [runLoop] awaits. *)
Definition turnAgent (codexTurn : option AgentRunResult) : AgentName :=
  match codexTurn with None => codex | Some _ => gemini end.

(** The part of the state that decides the control flow of the engine. *)
Record Core := mkCore {
  k_debate : DebateStateSnapshot;
  k_loop : LoopState;
  k_pending : list PendingCall;
  k_calls : list PendingCall;
  k_executionPromise : bool;
  k_control : ControlFlags;
  k_counter : Z
}.

Definition core (e : DebateEngine) : Core :=
  mkCore (debate e) (loop e) (pending e) (calls e) (executionPromise e) (control e)
         (consecutiveEmptyResponses e).

Definition withStatus (st : DebateStatus) (rsn : option string)
           (d : DebateStateSnapshot) : DebateStateSnapshot :=
  {| status := st; runId := runId d; round := round d; topic := topic d;
     maxRounds := maxRounds d; reason := rsn |}.

Definition withRound (rnd : Z) (d : DebateStateSnapshot) : DebateStateSnapshot :=
  {| status := status d; runId := runId d; round := rnd; topic := topic d;
     maxRounds := maxRounds d; reason := reason d |}.

(** The core after [runLoop] has left through its [finally] block. *)
Definition endCore (st : DebateStatus) (rsn : string) (e : DebateEngine) : Core :=
  mkCore (withStatus st (Some rsn) (debate e)) LSettled (pending e) (calls e)
         (executionPromise e) (mkControl false false) (consecutiveEmptyResponses e).

(** The reason [runLoop] ends with, after the check that follows the loop. *)
Definition afterReason (rsn : string) (e : DebateEngine) : string :=
  if negb (stopRequested (control e)) && (maxRounds (debate e) <=? round (debate e))
  then (if String.eqb rsn "completed" then "max rounds reached" else rsn)
  else rsn.

(** The call [invokeTurn] makes. *)
Definition turnCall (config : RuntimeConfig) (from to : AgentName) (rnd : Z)
           (prompt : string) (e : DebateEngine) : PendingCall :=
  mkPending {| opt_agent := from;
               opt_prompt := prompt;
               opt_sessionId := nonEmpty (as_sessionId (agentOf (agents e) from));
               opt_timeoutMs := turnTimeoutMs config;
               opt_commandTemplates := commandTemplates config from |}
            (ByTurn from to rnd prompt (runId (debate e))).

(** The core once a turn has been invoked and [runLoop] awaits it. *)
Definition awaitCore (d : DebateStateSnapshot) (rnd : Z) (codexTurn : option AgentRunResult)
           (call : PendingCall) (e : DebateEngine) : Core :=
  mkCore d (LAwaitTurn rnd codexTurn) (pending e ++ [call])%list (calls e ++ [call])%list
         (executionPromise e) (control e) (consecutiveEmptyResponses e).

(** The core after one pass through the head of the loop. *)
Definition headCore (config : RuntimeConfig) (rnd : Z) (latestGemini : string)
           (e : DebateEngine) : Core :=
  if rnd <=? maxRounds (debate e) then
    if stopRequested (control e) then endCore stopped "manual stop" e
    else awaitCore (withRound rnd (debate e)) rnd None
                   (turnCall config codex gemini rnd
                             (codexPrompt rnd (topic (debate e)) latestGemini) e) e
  else endCore completed (afterReason "completed" e) e.

(** The summaries of [e] are still there in [e']. *)
Definition keepsSummaries (e e' : DebateEngine) : Prop :=
  forall k, RunLogStore.readSummary k (runLogStore e) <> None ->
            RunLogStore.readSummary k (runLogStore e') <> None.

(** The events of [e] are still there in [e']. *)
Definition keepsEvents (e e' : DebateEngine) : Prop :=
  forall ev, In ev (emitted e) -> In ev (emitted e').

(** The core after codex's turn of [rnd] has returned. *)
Definition afterCodexCore (config : RuntimeConfig) (rnd : Z) (codexTurn : AgentRunResult)
           (e : DebateEngine) : Core :=
  if stopRequested (control e) then endCore stopped "manual stop" e
  else awaitCore (debate e) rnd (Some codexTurn)
                 (turnCall config gemini codex rnd
                           (geminiPrompt rnd (topic (debate e)) (res_text codexTurn)) e) e.

(** The core after gemini's turn of [rnd] has returned. *)
Definition afterGeminiCore (config : RuntimeConfig) (rnd : Z)
           (codexTurn geminiTurn : AgentRunResult) (e : DebateEngine) : Core :=
  if stopRequested (control e) then endCore stopped "manual stop" e
  else if consensusRegex config (res_text codexTurn)
          || consensusRegex config (res_text geminiTurn)
  then endCore completed "consensus detected" e
  else if pauseRequested (control e)
  then mkCore (withStatus paused (Some "paused at turn boundary") (debate e))
              (LAwaitResume rnd (res_text geminiTurn) false)
              (pending e) (calls e) (executionPromise e) (control e)
              (consecutiveEmptyResponses e)
  else headCore config (rnd + 1) (res_text geminiTurn) e.

(** The core after the pause wait. *)
Definition afterWaitCore (config : RuntimeConfig) (rnd : Z) (latestGemini : string)
           (e : DebateEngine) : Core :=
  if stopRequested (control e) then endCore stopped "manual stop" e
  else headCore config (rnd + 1) latestGemini e.

(** [startDebate] past its three guards, up to the call of [runLoop]. *)
Definition prepared (config : RuntimeConfig) (topic0 : string) (maxRounds0 : option Z)
           (stamp suffix : string) (e : DebateEngine) : DebateEngine :=
  let rounds := match maxRounds0 with Some n => n | None => defaultMaxRounds config end in
  let e := set_control (mkControl false false) e in
  let e := set_consecutiveEmptyResponses 0 e in
  let (run, store) := RunLogStore.createRun (clock e) stamp suffix (trim topic0) rounds None
                                            (runLogStore e) in
  let e := set_runLogStore store e in
  let e := set_currentRun (Some run) e in
  let e := set_debate {| status := running; runId := RunLogStore.rs_runId run; round := 0;
                         topic := trim topic0; maxRounds := rounds; reason := None |} e in
  let e := setDebateStatus running None e in
  panelOutput panel_center
    ("=== 토론 시작: " ++ trim topic0 ++ " (runId=" ++ RunLogStore.rs_runId run ++ ") ===") e.

(** [startDebate] past its three guards. *)
Definition started (config : RuntimeConfig) (topic0 : string) (maxRounds0 : option Z)
           (stamp suffix : string) (e : DebateEngine) : DebateEngine :=
  set_executionPromise true (runLoop config (prepared config topic0 maxRounds0 stamp suffix e)).

(** What holds of the core of every state the engine reaches. *)
Definition InvCore (c : Core) : Prop :=
  (runId (k_debate c) <> "" \/ (status (k_debate c) = idle /\ k_loop c = LNone))
  /\ (k_loop c <> LNone -> k_executionPromise c = true)
  /\ match k_loop c with
     | LAwaitTurn r x =>
         1 <= r /\ round (k_debate c) = r
         /\ exists options prompt,
              turnsOf (k_pending c)
              = [mkPending options
                           (ByTurn (turnAgent x) (otherAgent (turnAgent x)) r prompt
                                   (runId (k_debate c)))]
              /\ opt_agent options = turnAgent x
     | LAwaitResume r _ _ =>
         1 <= r /\ round (k_debate c) = r /\ turnsOf (k_pending c) = []
     | _ => turnsOf (k_pending c) = []
     end.

(** What holds of every state the engine reaches. *)
Definition Inv (e : DebateEngine) : Prop :=
  InvCore (core e)
  /\ (runId (debate e) <> "" ->
      RunLogStore.readSummary (runId (debate e)) (runLogStore e) <> None).

(** The probe [connectAgent] makes. *)
Definition probeCall (config : RuntimeConfig) (agent : AgentName)
           (resumeSessionId : option string) (e : DebateEngine) : PendingCall :=
  mkPending {| opt_agent := agent;
               opt_prompt := CONNECT_PROMPT;
               opt_sessionId :=
                 nonEmpty (match resumeSessionId with
                           | Some s => s
                           | None => as_sessionId (agentOf (agents e) agent)
                           end);
               opt_timeoutMs := turnTimeoutMs config;
               opt_commandTemplates := commandTemplates config agent |}
            (ByConnect agent).

(** The loop once [this.pauseWait], if there is one, has been resolved. *)
Definition releasedLoop (wait : bool) (l : LoopState) : LoopState :=
  if wait then
    match l with LAwaitResume r g _ => LAwaitResume r g true | _ => l end
  else l.

(** Whether [startDebate] passes its three guards. *)
Definition startable (topic0 : string) (e : DebateEngine) : bool :=
  truthy (trim topic0) && negb (executionPromise e)
  && AgentStatus_eqb (as_status (ag_gemini (agents e))) agent_ready
  && AgentStatus_eqb (as_status (ag_codex (agents e))) agent_ready.

(** The core of the state a job leaves, computed from the state it finds. *)
Definition step_core (config : RuntimeConfig) (l : Label) (e : DebateEngine) : Core :=
  match l with
  | ConnectAgent agent resumeSessionId =>
      match status (debate e) with
      | running | pause_requested => core e
      | _ =>
          let probe := probeCall config agent resumeSessionId e in
          mkCore (debate e) (loop e) (pending e ++ [probe])%list (calls e ++ [probe])%list
                 (executionPromise e) (control e) (consecutiveEmptyResponses e)
      end
  | StartDebate topic0 maxRounds0 stamp suffix =>
      if startable topic0 e then
        let c := headCore config 1 "" (prepared config topic0 maxRounds0 stamp suffix e) in
        mkCore (k_debate c) (k_loop c) (k_pending c) (k_calls c) true (k_control c)
               (k_counter c)
      else core e
  | PauseDebate =>
      if DebateStatus_eqb (status (debate e)) running then
        mkCore (withStatus pause_requested (Some "pause requested") (debate e)) (loop e)
               (pending e) (calls e) (executionPromise e)
               (mkControl true (stopRequested (control e))) (consecutiveEmptyResponses e)
      else core e
  | ResumeDebate =>
      if DebateStatus_eqb (status (debate e)) paused then
        mkCore (withStatus running (Some "resumed") (debate e))
               (releasedLoop (pauseWait e) (loop e))
               (pending e) (calls e) (executionPromise e)
               (mkControl false (stopRequested (control e))) (consecutiveEmptyResponses e)
      else core e
  | StopDebate =>
      match status (debate e) with
      | running | pause_requested | paused =>
          mkCore (withStatus stopping (Some "stop requested") (debate e))
                 (releasedLoop (pauseWait e) (loop e))
                 (pending e) (calls e) (executionPromise e)
                 (mkControl (pauseRequested (control e)) true) (consecutiveEmptyResponses e)
      | _ => core e
      end
  | Settle k outcome =>
      match nth_error (pending e) k with
      | None => core e
      | Some call =>
          match pc_awaiter call with
          | ByConnect _ =>
              mkCore (debate e) (loop e) (removeNth k (pending e)) (calls e)
                     (executionPromise e) (control e) (consecutiveEmptyResponses e)
          | ByTurn from to rnd prompt rid =>
              match loop e with
              | LAwaitTurn r x =>
                  let e0 := set_pending (removeNth k (pending e)) e in
                  match outcome with
                  | Rejected message => endCore stopped message e0
                  | Resolved result =>
                      let r1 := invokeTurn_resume from to rnd prompt rid result e0 in
                      match snd r1 with
                      | Some message => endCore stopped message (fst r1)
                      | None =>
                          match x with
                          | None => afterCodexCore config r result (fst r1)
                          | Some c => afterGeminiCore config r c result (fst r1)
                          end
                      end
                  end
              | _ => core e
              end
          end
      end
  | StdoutLine _ _ | StderrLine _ _ | Tick _ => core e
  | Wake =>
      match loop e with
      | LAwaitResume r g true => afterWaitCore config r g e
      | _ => core e
      end
  | Finalize =>
      match loop e with
      | LSettled =>
          mkCore (debate e) LNone (pending e) (calls e) false (control e)
                 (consecutiveEmptyResponses e)
      | _ => core e
      end
  end.

(** *** Configurations and runs used as examples *)

(** [/(합의|동의|consensus|agreed)/i.test], the default of [loadRuntimeConfig]. *)
Definition defaultConsensus (s : string) : bool :=
  let t := toLowerCase s in
  includes t "합의" || includes t "동의" || includes t "consensus" || includes t "agreed".

(** The configuration of the engine's test suite. *)
Definition testConfig : RuntimeConfig :=
  {| port := 8787;
     defaultMaxRounds := 2;
     turnTimeoutMs := 2000;
     consensusRegex := defaultConsensus;
     commandTemplates := fun agent =>
       match agent with
       | gemini => mkTemplates "gemini {prompt}" "gemini --resume {session_id} {prompt}"
       | codex => mkTemplates "codex {prompt}" "codex --resume {session_id} {prompt}"
       end |}.

(** A runner's answer, as the stub runner of the test suite builds it. *)
Definition reply (agent : AgentName) (text : string) : AgentRunResult :=
  {| res_stdout := text; res_stderr := ""; res_text := text;
     res_sessionId := agentName agent ++ "-s1"; res_command := "stub" |}.

Definition answer (agent : AgentName) (text : string) : Settled :=
  Resolved (reply agent text).

(** The oldest call of the runner that is not settled yet. *)
Definition firstPending (e : DebateEngine) : PendingCall :=
  nth 0 (pending e) (mkPending (mkOptions gemini "" None 0 (mkTemplates "" "")) (ByConnect gemini)).

(** Both agents connected, no debate yet. *)
Definition connected : DebateEngine :=
  run testConfig
      [ConnectAgent codex None; Settle 0 (answer codex "OK");
       ConnectAgent gemini None; Settle 0 (answer gemini "OK")]
      (initial testConfig SessionStore.empty).

(** A debate of three rounds started: codex's turn of round 1 is in flight. *)
Definition inRound1 : DebateEngine :=
  run testConfig [StartDebate "pause test" (Some 3) "20240101_000000" "abc123"] connected.

(** Round 1 played with a pause requested during it: the loop waits. *)
Definition pausedAfterRound1 : DebateEngine :=
  run testConfig
      [Settle 0 (answer codex "codex response"); PauseDebate;
       Settle 0 (answer gemini "gemini response")]
      inRound1.

(** The run paused after round 1, an agent reconnected during the pause and
    the run resumed while the probe is still in flight: codex's turn of
    round 2 is invoked beside it. *)
Definition probeBesideTurn : DebateEngine :=
  run testConfig [ConnectAgent gemini None; ResumeDebate; Wake] pausedAfterRound1.

(** U+00A0, U+3000 and U+FEFF, white space that is not of one byte. *)
Definition noBreakSpace : string :=
  String (ascii_of_nat 194) (String (ascii_of_nat 160) "").
Definition ideographicSpace : string :=
  String (ascii_of_nat 227) (String (ascii_of_nat 128) (String (ascii_of_nat 128) "")).
Definition byteOrderMark : string :=
  String (ascii_of_nat 239) (String (ascii_of_nat 187) (String (ascii_of_nat 191) "")).

(** The failure of [invokeTurn] on the second empty response in a row. *)
Definition emptyTwice : string := "연속 2회 빈 응답으로 토론을 중단합니다.".

(** A request that makes the engine call the runner. *)
Definition invokes (l : Label) : bool :=
  match l with
  | ConnectAgent _ _ | StartDebate _ _ _ _ => true
  | _ => false
  end.

(** A job that is neither [startDebate] nor the settlement of a turn. *)
Definition betweenTurns (l : Label) (e : DebateEngine) : Prop :=
  match l with
  | StartDebate _ _ _ _ => False
  | Settle k _ =>
      match nth_error (pending e) k with
      | Some call => isTurn call = false
      | None => True
      end
  | _ => True
  end.

(** A run of jobs none of which starts a debate or settles a turn. *)
Fixpoint quietRun (config : RuntimeConfig) (ls : list Label) (e : DebateEngine) : Prop :=
  match ls with
  | [] => True
  | l :: r => betweenTurns l e /\ quietRun config r (fst (exec config l e))
  end.

(** The run that refutes C3: stop is requested while gemini's turn of round 1
    is in flight, and gemini then answers with the consensus word. *)
Definition stoppedDespiteConsensus : DebateEngine :=
  run testConfig
      [Settle 0 (answer codex "codex response"); StopDebate;
       Settle 0 (answer gemini "agreed")]
      inRound1.

(** A run of two rounds in which both agents answer with 180 characters in
    round 1, as in the test of the context limit. *)
Definition longAnswers : DebateEngine :=
  run testConfig
      [StartDebate "limit test" (Some 2) "20240101_000000" "abc123";
       Settle 0 (answer codex (repeat "c" 180));
       Settle 0 (answer gemini (repeat "g" 180))]
      connected.

(** Round 1 of a debate with codex's turn played: gemini's is in flight. *)
Definition afterCodex1 : DebateEngine :=
  run testConfig [Settle 0 (answer codex "codex turn response")] inRound1.

(** The engine booted on a session file that holds a session id for gemini. *)
Definition resumable : DebateEngine :=
  initial testConfig (SessionStore.mkData "2024-01-01T00:00:00.000Z" "gem-7" "").

(** Extraction functions for a process that prints plain text without any
    session id. *)
Definition plainText (stdout : string) (parsed : unit) : string := trim stdout.
Definition noSessionId (stdout : string) (parsed : unit) : string := "".

(** The core with which [runLoop] goes on after a turn has returned. *)
Definition afterTurnCore (config : RuntimeConfig) (rnd : Z) (codexTurn : option AgentRunResult)
           (result : AgentRunResult) (e : DebateEngine) : Core :=
  match codexTurn with
  | None => afterCodexCore config rnd result e
  | Some c => afterGeminiCore config rnd c result e
  end.

(** Round 1 of a debate with a blank response from codex. *)
Definition afterBlankCodex1 : DebateEngine :=
  fst (exec testConfig (Settle 0 (Resolved (reply codex "  "))) inRound1).

(** To whom a turn's call of the runner is addressed, and in which round. *)
Definition turnKey (c : PendingCall) : AgentName * Z :=
  match pc_awaiter c with
  | ByTurn _ _ rnd _ _ => (opt_agent (pc_options c), rnd)
  | ByConnect _ => (opt_agent (pc_options c), 0)
  end.

(** The [n]th turn of a run, counting from 0: codex and gemini alternate,
    two turns to a round, rounds counted from 1. *)
Definition expectedTurn (n : nat) : AgentName * Z :=
  (if Z.even (Z.of_nat n) then codex else gemini, Z.of_nat n / 2 + 1).

(** The turns are those of a run, in order. *)
Definition inOrder (turns : list (AgentName * Z)) : Prop :=
  turns = map expectedTurn (seq 0 (length turns)).

(** The turns invoked so far, against the point [runLoop] has reached. *)
Definition onSchedule (turns : nat) (l : LoopState) : Prop :=
  match l with
  | LAwaitTurn r None => Z.of_nat turns = 2 * r - 1
  | LAwaitTurn r (Some _) => Z.of_nat turns = 2 * r
  | LAwaitResume r _ _ => Z.of_nat turns = 2 * r
  | _ => True
  end.

(** What holds of a run since its [startDebate], [base] being the calls made
    before. *)
Definition RunInv (base : list PendingCall) (c : Core) : Prop :=
  exists new,
    k_calls c = (base ++ new)%list
    /\ inOrder (map turnKey (turnsOf new))
    /\ onSchedule (length (turnsOf new)) (k_loop c).

Definition notStart (l : Label) : bool :=
  match l with StartDebate _ _ _ _ => false | _ => true end.

(** A debate of three rounds with round 1 played: codex's turn of round 2
    is in flight. *)
Definition round1Played : list Label :=
  [Settle 0 (answer codex "codex response"); Settle 0 (answer gemini "gemini response")].






(** The run of [longAnswers] with codex's answer of round 1 in: gemini's turn
    is in flight. *)
Definition longCodex1 : DebateEngine :=
  run testConfig
      [StartDebate "limit test" (Some 2) "20240101_000000" "abc123";
       Settle 0 (answer codex (repeat "c" 180))]
      connected.


(** ** server/cli-runner.ts: templates checked, output read

    [JSON.parse] is the platform's: the functions that use it take it as
    [parse], [None] being a throw, over the values it returns.  The fields of
    an object are listed in [Object.values] order. *)

Module CliText.

(** [ensureTemplate(name, template, keys)]: [None] when it returns, the
    message of the error when it throws. *)
Fixpoint ensureKeys (name template : string) (keys : list string) : option string :=
  match keys with
  | [] => None
  | key :: rest =>
      if negb (includes template ("{" ++ key ++ "}"))
      then Some (name ++ " must include {" ++ key ++ "}")
      else ensureKeys name template rest
  end.

Definition ensureTemplate (name template : string) (keys : list string) : option string :=
  if negb (truthy template) then Some ("Missing template: " ++ name)
  else ensureKeys name template keys.

(** What [JSON.parse] returns. *)
#[warnings="-register-all"]
Inductive Json :=
| JNull
| JBool (b : bool)
| JNumber (n : Z)
| JString (s : string)
| JArray (items : list Json)
| JObject (fields : list (string * Json)).

(** [input[key]] on an object. *)
Fixpoint getField (key : string) (fields : list (string * Json)) : option Json :=
  match fields with
  | [] => None
  | (k, v) :: rest => if String.eqb key k then Some v else getField key rest
  end.

(** The first loop of [deepFindString]: the first of [keys] whose value is a
    string that is not blank, trimmed. *)
Fixpoint ownString (fields : list (string * Json)) (keys : list string) : string :=
  match keys with
  | [] => ""
  | key :: rest =>
      match getField key fields with
      | Some (JString value) =>
          if truthy (trim value) then trim value else ownString fields rest
      | _ => ownString fields rest
      end
  end.

(** [typeof value === "object" && value]. *)
Definition isObject (value : Json) : bool :=
  match value with JArray _ | JObject _ => true | _ => false end.

Fixpoint deepFindString (input : Json) (keys : list string) : string :=
  match input with
  | JObject fields =>
      let own := ownString fields keys in
      if truthy own then own
      else
        (fix values (l : list (string * Json)) : string :=
           match l with
           | [] => ""
           | (_, value) :: rest =>
               if isObject value then
                 let nested := deepFindString value keys in
                 if truthy nested then nested else values rest
               else values rest
           end) fields
  | JArray items =>
      (fix values (l : list Json) : string :=
         match l with
         | [] => ""
         | value :: rest =>
             if isObject value then
               let nested := deepFindString value keys in
               if truthy nested then nested else values rest
             else values rest
         end) items
  | _ => ""
  end.

Definition textKeys : list string :=
  ["text"; "output_text"; "response"; "content"; "message"; "answer"].

Definition extractText (raw : string) (parsed : Json) : string :=
  let fromJson := deepFindString parsed textKeys in
  if truthy fromJson then fromJson else trim raw.

Section TryParseJson.

Variable parse : string -> option Json.

(** The loop of [tryParseJson] over the lines, last line first. *)
Fixpoint firstParsed (lines : list string) : Json :=
  match lines with
  | [] => JNull
  | line :: rest =>
      match parse line with
      | Some value => value
      | None => firstParsed rest
      end
  end.

Definition tryParseJson (text : string) : Json :=
  let trimmed := trim text in
  if negb (truthy trimmed) then JNull
  else
    match parse trimmed with
    | Some value => value
    | None => firstParsed (rev (filter truthy (map trim (splitLines trimmed))))
    end.

End TryParseJson.

(** [combined.split(/\r?\n/)]: the text between the line ends, a line end
    being a line feed with the carriage return before it, if there is one. *)
Definition carriageReturn : ascii := ascii_of_nat 13.
Definition lineFeed : ascii := ascii_of_nat 10.

Definition consHead (c : ascii) (lines : list string) : list string :=
  match lines with
  | [] => [String c ""]
  | line :: rest => String c line :: rest
  end.

Fixpoint splitCrLf (s : string) : list string :=
  match s with
  | EmptyString => [""]
  | String c r =>
      if Ascii.eqb c lineFeed then "" :: splitCrLf r
      else if Ascii.eqb c carriageReturn then
        match r with
        | String d r' => if Ascii.eqb d lineFeed then "" :: splitCrLf r'
                         else consHead c (splitCrLf r)
        | EmptyString => consHead c (splitCrLf r)
        end
      else consHead c (splitCrLf r)
  end.

(** [streamLines(chunk, remainder, sink)]: the lines handed to [sink], in
    order, and the remainder returned. *)
Definition streamLines (chunk remainder : string) : list string * string :=
  let lines := splitCrLf (remainder ++ chunk) in
  (filter truthy (removelast lines), last lines "").

(** The [data] handler of a stream called on each of [chunks] in turn, from
    the remainder [remainder]: the lines reported, and the remainder left. *)
Fixpoint onData (chunks : list string) (remainder : string) : list string * string :=
  match chunks with
  | [] => ([], remainder)
  | chunk :: rest =>
      let (reported, remainder') := streamLines chunk remainder in
      let (later, final) := onData rest remainder' in
      ((reported ++ later)%list, final)
  end.

(** [stdout] once [chunks] have been received: [stdout += chunk]. *)
Definition received (chunks : list string) : string := fold_right append "" chunks.

(** All the lines reported for a stream that delivers [chunks] and is then
    closed: the [close] handler reports the remainder, unless it is empty. *)
Definition reportedLines (chunks : list string) : list string :=
  let (reported, remainder) := onData chunks "" in
  (reported ++ (if truthy remainder then [remainder] else []))%list.

End CliText.

(** *** Writes to the runs directory *)

(** A write to the runs directory after a run was created: [append], or
    [updateSummary] (which writes nothing when it throws). *)
Inductive StoreOp :=
| OpAppend (entry : TranscriptEntry)
| OpUpdate (now runId : string) (patch : RunLogStore.Patch).

Definition applyOp (s : RunLogStore.t) (op : StoreOp) : RunLogStore.t :=
  match op with
  | OpAppend entry => RunLogStore.append entry s
  | OpUpdate now runId patch =>
      match RunLogStore.updateSummary now runId patch s with
      | Some s' => s'
      | None => s
      end
  end.

(** The patch leaves what tells the run: its id, its creation time, its
    topic and its number of rounds.  The patches of the engine do. *)
Definition keepsRun (patch : RunLogStore.Patch) : Prop :=
  RunLogStore.p_runId patch = None /\ RunLogStore.p_createdAt patch = None
  /\ RunLogStore.p_topic patch = None /\ RunLogStore.p_maxRounds patch = None.

Definition opKeepsRun (op : StoreOp) : Prop :=
  match op with
  | OpAppend _ => True
  | OpUpdate _ _ patch => keepsRun patch
  end.

(** The entries that [ops] append for the run [runId], in order. *)
Fixpoint appended (runId : string) (ops : list StoreOp) : list TranscriptEntry :=
  match ops with
  | [] => []
  | OpAppend entry :: rest =>
      if String.eqb runId (te_runId entry) then entry :: appended runId rest
      else appended runId rest
  | OpUpdate _ _ _ :: rest => appended runId rest
  end.

(** ** web/src/state.ts: the state of the page and its reducer *)

Module Ui.

Record UiAgentState := mkUiAgent {
  ua_status : AgentStatus;
  ua_sessionId : string;
  ua_error : option string
}.

Record UiDebateState := mkUiDebate {
  ud_status : DebateStatus;
  ud_runId : string;
  ud_round : Z;
  ud_topic : string;
  ud_maxRounds : Z;
  ud_reason : option string
}.

(** [Record<AgentName, UiAgentState>]. *)
Record UiAgents := mkUiAgents { ui_gemini : UiAgentState; ui_codex : UiAgentState }.

Record Panels := mkPanels {
  left : list string;
  center : list string;
  right : list string
}.

Record UiState := mkUi {
  topicInput : string;
  maxRoundsInput : Z;
  agents : UiAgents;
  debate : UiDebateState;
  panels : Panels;
  errorBanner : string
}.

Record ControlAvailability := mkControls {
  canStart : bool;
  canPause : bool;
  canResume : bool;
  canStop : bool
}.

Definition initialUiState : UiState :=
  {| topicInput := "";
     maxRoundsInput := 6;
     agents := {| ui_gemini := mkUiAgent agent_idle "" None;
                  ui_codex := mkUiAgent agent_idle "" None |};
     debate := {| ud_status := idle; ud_runId := ""; ud_round := 0; ud_topic := "";
                  ud_maxRounds := 6; ud_reason := None |};
     panels := mkPanels [] [] [];
     errorBanner := "" |}.

(** [["running", "pause_requested", "paused", "stopping"].includes(status)]. *)
Definition inRun (st : DebateStatus) : bool :=
  match st with
  | running | pause_requested | paused | stopping => true
  | _ => false
  end.

Definition getControlAvailability (state : UiState) : ControlAvailability :=
  let bothReady := AgentStatus_eqb (ua_status (ui_gemini (agents state))) agent_ready
                   && AgentStatus_eqb (ua_status (ui_codex (agents state))) agent_ready in
  let topicFilled := (0 <? String.length (trim (topicInput state)))%nat in
  {| canStart := bothReady && topicFilled && negb (inRun (ud_status (debate state)));
     canPause := DebateStatus_eqb (ud_status (debate state)) running;
     canResume := DebateStatus_eqb (ud_status (debate state)) paused;
     canStop := inRun (ud_status (debate state)) |}.

(** The [debate] of the payload of [hydrate]: its key [reason] is optional,
    there (with a string or [undefined]) or not. *)
Record DebatePayload := mkDebatePayload {
  dp_status : DebateStatus;
  dp_runId : string;
  dp_round : Z;
  dp_topic : string;
  dp_maxRounds : Z;
  dp_reason : option (option string)
}.

(** [Partial<UiState>], the payload of [hydrate]: a field is there or not. *)
Record Hydration := mkHydration {
  h_topicInput : option string;
  h_maxRoundsInput : option Z;
  h_agents : option UiAgents;
  h_debate : option DebatePayload;
  h_panels : option Panels;
  h_errorBanner : option string
}.

Inductive UiAction :=
| set_topic (topic : string)
| set_max_rounds (value : Z)
| ui_agent_status (agent : AgentName) (st : AgentStatus)
                  (sessionId : option string) (error : option string)
| ui_debate_state (st : DebateStatus) (runId : option string) (round : option Z)
                  (reason : option string) (topic : option string) (maxRounds : option Z)
| ui_panel_output (panel : PanelName) (line : string)
| ui_error (message : string)
| clear_error
| reset_panels
| hydrate (payload : Hydration).

(** [pushLine(lines, line, max)]. *)
Definition pushLine (lines : list string) (line : string) (max : nat) : list string :=
  let next := (lines ++ [line])%list in
  if (max <? length next)%nat then skipn (length next - max) next else next.

Definition maxLines : nat := 2000.

Definition agentState (a : UiAgents) (agent : AgentName) : UiAgentState :=
  match agent with gemini => ui_gemini a | codex => ui_codex a end.

Definition setAgentState (agent : AgentName) (v : UiAgentState) (a : UiAgents) : UiAgents :=
  match agent with
  | gemini => {| ui_gemini := v; ui_codex := ui_codex a |}
  | codex => {| ui_gemini := ui_gemini a; ui_codex := v |}
  end.

Definition panel (p : Panels) (name : PanelName) : list string :=
  match name with panel_left => left p | panel_center => center p | panel_right => right p end.

Definition setPanel (name : PanelName) (v : list string) (p : Panels) : Panels :=
  match name with
  | panel_left => {| left := v; center := center p; right := right p |}
  | panel_center => {| left := left p; center := v; right := right p |}
  | panel_right => {| left := left p; center := center p; right := v |}
  end.

(** [a ?? b]. *)
Definition orKeep {A} (a : option A) (b : A) : A :=
  match a with Some x => x | None => b end.

Definition uiReducer (state : UiState) (action : UiAction) : UiState :=
  match action with
  | set_topic topic =>
      {| topicInput := topic; maxRoundsInput := maxRoundsInput state;
         agents := agents state; debate := debate state; panels := panels state;
         errorBanner := errorBanner state |}
  | set_max_rounds value =>
      {| topicInput := topicInput state; maxRoundsInput := value;
         agents := agents state; debate := debate state; panels := panels state;
         errorBanner := errorBanner state |}
  | ui_agent_status agent st sessionId error =>
      let current := agentState (agents state) agent in
      {| topicInput := topicInput state; maxRoundsInput := maxRoundsInput state;
         agents := setAgentState agent
                     {| ua_status := st;
                        ua_sessionId := orKeep sessionId (ua_sessionId current);
                        ua_error := error |}
                     (agents state);
         debate := debate state; panels := panels state;
         errorBanner := errorBanner state |}
  | ui_debate_state st runId round reason topic maxRounds =>
      {| topicInput := topicInput state; maxRoundsInput := maxRoundsInput state;
         agents := agents state;
         debate := {| ud_status := st;
                      ud_runId := orKeep runId (ud_runId (debate state));
                      ud_round := orKeep round (ud_round (debate state));
                      ud_topic := orKeep topic (ud_topic (debate state));
                      ud_maxRounds := orKeep maxRounds (ud_maxRounds (debate state));
                      ud_reason := reason |};
         panels := panels state; errorBanner := errorBanner state |}
  | ui_panel_output name line =>
      {| topicInput := topicInput state; maxRoundsInput := maxRoundsInput state;
         agents := agents state; debate := debate state;
         panels := setPanel name (pushLine (panel (panels state) name) line maxLines)
                            (panels state);
         errorBanner := errorBanner state |}
  | ui_error message =>
      {| topicInput := topicInput state; maxRoundsInput := maxRoundsInput state;
         agents := agents state; debate := debate state; panels := panels state;
         errorBanner := message |}
  | clear_error =>
      {| topicInput := topicInput state; maxRoundsInput := maxRoundsInput state;
         agents := agents state; debate := debate state; panels := panels state;
         errorBanner := "" |}
  | reset_panels =>
      {| topicInput := topicInput state; maxRoundsInput := maxRoundsInput state;
         agents := agents state; debate := debate state; panels := mkPanels [] [] [];
         errorBanner := errorBanner state |}
  | hydrate payload =>
      {| topicInput := orKeep (h_topicInput payload) (topicInput state);
         maxRoundsInput := orKeep (h_maxRoundsInput payload) (maxRoundsInput state);
         agents := orKeep (h_agents payload) (agents state);
         debate := match h_debate payload with
                   | Some p =>
                       {| ud_status := dp_status p; ud_runId := dp_runId p;
                          ud_round := dp_round p; ud_topic := dp_topic p;
                          ud_maxRounds := dp_maxRounds p;
                          ud_reason := orKeep (dp_reason p) (ud_reason (debate state)) |}
                   | None => debate state
                   end;
         panels := orKeep (h_panels payload) (panels state);
         errorBanner := orKeep (h_errorBanner payload) (errorBanner state) |}
  end.

(** *** web/src/App.tsx: what the page dispatches *)

(** The action dispatched for an event received on the socket; none for a
    [turn_log] event. *)
Definition actionOf (event : ServerEvent) : option UiAction :=
  match event with
  | agent_status agent st sessionId error => Some (ui_agent_status agent st sessionId error)
  | debate_state st runId round reason topic maxRounds =>
      Some (ui_debate_state st runId round reason topic maxRounds)
  | panel_output name line => Some (ui_panel_output name line)
  | error_event _ message detail =>
      Some (ui_error (if truthyOpt detail then message ++ ": " ++ orEmpty detail else message))
  | turn_log _ => None
  end.

Definition onEvent (state : UiState) (event : ServerEvent) : UiState :=
  match actionOf event with
  | Some action => uiReducer state action
  | None => state
  end.

(** [applyServerState(serverState)], on what [getState] of the engine
    returns. *)
Definition applyServerState (d : DebateStateSnapshot) (a : Engine.Agents)
           (state : UiState) : UiState :=
  let state := uiReducer state
                 (ui_debate_state (status d) (Some (runId d)) (Some (round d)) (reason d)
                                  (Some (topic d)) (Some (maxRounds d))) in
  let state := uiReducer state
                 (ui_agent_status gemini (as_status (ag_gemini a))
                                  (Some (as_sessionId (ag_gemini a)))
                                  (as_lastError (ag_gemini a))) in
  uiReducer state
            (ui_agent_status codex (as_status (ag_codex a))
                             (Some (as_sessionId (ag_codex a)))
                             (as_lastError (ag_codex a))).

End Ui.

(** *** The page and the engine *)

(** The page shows an agent as the engine has it. *)
Definition agentShown (u : Ui.UiAgentState) (a : AgentSession) : Prop :=
  Ui.ua_status u = as_status a
  /\ Ui.ua_sessionId u = as_sessionId a
  /\ Ui.ua_error u = as_lastError a.

(** The page shows the debate as the engine has it; a round or a number of
    rounds that is 0 in the engine is not sent with the events, and the page
    keeps the number it had. *)
Definition debateShown (u : Ui.UiDebateState) (d : DebateStateSnapshot) : Prop :=
  Ui.ud_status u = status d
  /\ Ui.ud_reason u = reason d
  /\ Ui.ud_runId u = runId d
  /\ Ui.ud_topic u = topic d
  /\ (Ui.ud_round u = round d \/ round d = 0)
  /\ (Ui.ud_maxRounds u = maxRounds d \/ maxRounds d = 0).

Definition mirrors (ui : Ui.UiState) (e : DebateEngine) : Prop :=
  agentShown (Ui.ui_gemini (Ui.agents ui)) (ag_gemini (agents e))
  /\ agentShown (Ui.ui_codex (Ui.agents ui)) (ag_codex (agents e))
  /\ debateShown (Ui.debate ui) (debate e).

(** The engine as a client that connects now: the events emitted before are
    not received. *)
Definition listening (e : DebateEngine) : DebateEngine := set_emitted [] e.

(** The page that started as [ui0] and has received the events of [e]. *)
Definition page (ui0 : Ui.UiState) (e : DebateEngine) : Ui.UiState :=
  fold_left Ui.onEvent (emitted e) ui0.

(** *** The session ids *)

Definition sessionIdOf (store : SessionStore.SessionFileData) (agent : AgentName) : string :=
  match agent with
  | gemini => SessionStore.sf_gemini store
  | codex => SessionStore.sf_codex store
  end.

(** The session file holds the session ids of the state, and an agent that
    is ready has one. *)
Definition sessionsKept (e : DebateEngine) : Prop :=
  forall agent,
    as_sessionId (agentOf (agents e) agent) = sessionIdOf (sessionStore e) agent
    /\ (as_status (agentOf (agents e) agent) = agent_ready ->
        as_sessionId (agentOf (agents e) agent) <> "").

(** *** The status against the loop *)

(** [runLoop] is suspended in its pause wait, the awaited promise not
    resolved. *)
Definition waits (l : LoopState) : bool :=
  match l with LAwaitResume _ _ false => true | _ => false end.

(** The control flags that go with a status of a run in progress. *)
Definition flagsFor (st : DebateStatus) (c : ControlFlags) : Prop :=
  match st with
  | running => pauseRequested c = false /\ stopRequested c = false
  | pause_requested => pauseRequested c = true /\ stopRequested c = false
  | stopping => stopRequested c = true
  | _ => False
  end.

Definition ended (st : DebateStatus) : Prop := st = stopped \/ st = completed.

(** How the status, the control flags, the round and the pause wait go with
    the point [runLoop] has reached. *)
Definition CohCore (c : Core) (wait : bool) : Prop :=
  wait = waits (k_loop c)
  /\ (round (k_debate c) = 0 \/ 1 <= round (k_debate c) <= maxRounds (k_debate c))
  /\ match k_loop c with
     | LNone =>
         (status (k_debate c) = idle \/ ended (status (k_debate c)))
         /\ k_control c = mkControl false false
         /\ k_executionPromise c = false
     | LSettled => ended (status (k_debate c)) /\ k_control c = mkControl false false
     | LAwaitResume _ _ false =>
         status (k_debate c) = paused
         /\ pauseRequested (k_control c) = true /\ stopRequested (k_control c) = false
     | LAwaitTurn _ _ | LAwaitResume _ _ true => flagsFor (status (k_debate c)) (k_control c)
     end.

Definition Coherent (e : DebateEngine) : Prop := CohCore (core e) (pauseWait e).

(** *** The summary of the run *)

(** The run of the state is the current run, and the store has its summary,
    with the run id, the topic and the number of rounds of the state. *)
Definition RunOk (e : DebateEngine) : Prop :=
  exists run s,
    currentRun e = Some run
    /\ RunLogStore.rs_runId run = runId (debate e)
    /\ RunLogStore.readSummary (runId (debate e)) (runLogStore e) = Some s
    /\ RunLogStore.rs_runId s = runId (debate e)
    /\ RunLogStore.rs_topic s = topic (debate e)
    /\ RunLogStore.rs_maxRounds s = maxRounds (debate e).

(** The summary of the run of the state records its status, round and
    reason. *)
Definition summaryRecords (e : DebateEngine) : Prop :=
  exists s,
    RunLogStore.readSummary (runId (debate e)) (runLogStore e) = Some s
    /\ RunLogStore.rs_status s = status (debate e)
    /\ RunLogStore.rs_round s = round (debate e)
    /\ RunLogStore.rs_reason s = reason (debate e).

(** What a stretch of [runLoop] leaves: the run is still the current one,
    and if the loop has ended its summary is written. *)
Definition Left (e : DebateEngine) : Prop :=
  RunOk e
  /\ match loop e with
     | LNone => False
     | LSettled => summaryRecords e
     | _ => True
     end.

(** The status, the run and the store are left alone by what is not a
    step of [runLoop]. *)
Definition runKept (e e' : DebateEngine) : Prop :=
  currentRun e' = currentRun e /\ runLogStore e' = runLogStore e
  /\ runId (debate e') = runId (debate e) /\ topic (debate e') = topic (debate e)
  /\ maxRounds (debate e') = maxRounds (debate e) /\ round (debate e') = round (debate e)
  /\ (ended (status (debate e')) ->
      status (debate e') = status (debate e) /\ reason (debate e') = reason (debate e)).

(** A debate stopped while gemini's turn of round 1 was in flight. *)
Definition stoppedInRound1 : DebateEngine :=
  run testConfig
      [Settle 0 (answer codex "codex response"); StopDebate;
       Settle 0 (answer gemini "gemini response")]
      inRound1.

(** ** Quoting and rendering (cli-runner.ts) *)

Lemma append_nil_r (s : string) : s ++ "" = s.
Proof. induction s; simpl; congruence. Qed.

Lemma append_assoc (a b c : string) : (a ++ b) ++ c = a ++ (b ++ c).
Proof. induction a; simpl; congruence. Qed.

Lemma startsWith_append (s t : string) : startsWith (s ++ t) s = true.
Proof.
  induction s as [|c s IH]; simpl; [reflexivity|].
  now rewrite Ascii.eqb_refl.
Qed.



Lemma getSubstitution_plain (matched before after repl : string) :
  hasChar "$" repl = false -> getSubstitution matched before after repl = repl.
Proof.
  induction repl as [|c r IH]; simpl; [reflexivity|].
  intros H. apply orb_false_iff in H. destruct H as [Hc Hr].
  rewrite Hc. now rewrite IH.
Qed.

Lemma replaceAll_go_plain (s' repl : string) (text : string) :
  hasChar "{" text = false ->
  forall before, replaceAll_go (String "{" s') repl before O text = text.
Proof.
  induction text as [|c r IH]; [reflexivity|].
  intros H before. simpl in H. apply orb_false_iff in H. destruct H as [Hc Hr].
  cbn [replaceAll_go startsWith].
  rewrite Ascii.eqb_sym, Hc. cbn [andb].
  now rewrite IH.
Qed.

Lemma replaceAll_go_skip (search repl : string) (skipped post : string) :
  forall before,
  exists before',
    replaceAll_go search repl before (String.length skipped) (skipped ++ post)
    = replaceAll_go search repl before' O post.
Proof.
  induction skipped as [|c r IH]; intros before; simpl.
  - exists before. reflexivity.
  - apply IH.
Qed.

Lemma replaceAll_one (s' repl pre post : string) :
  hasChar "{" pre = false -> hasChar "{" post = false -> hasChar "$" repl = false ->
  replaceAll (pre ++ String "{" s' ++ post) (String "{" s') repl = pre ++ repl ++ post.
Proof.
  intros Hpre Hpost Hrepl. unfold replaceAll. generalize EmptyString as before.
  induction pre as [|c r IH]; intros before.
  - change ("" ++ String "{" s' ++ post) with (String "{" (s' ++ post)).
    cbn [replaceAll_go].
    change (String "{" (s' ++ post)) with (String "{" s' ++ post).
    rewrite startsWith_append, getSubstitution_plain by assumption.
    cbn [String.length Nat.pred].
    destruct (replaceAll_go_skip (String "{" s') repl s' post (String "{" before)) as [b ->].
    now rewrite replaceAll_go_plain.
  - simpl in Hpre. apply orb_false_iff in Hpre. destruct Hpre as [Hc Hr].
    cbn [append replaceAll_go startsWith]. rewrite Ascii.eqb_sym, Hc. cbn [andb].
    now rewrite IH.
Qed.

Lemma hasChar_append (c : ascii) (a b : string) :
  hasChar c (a ++ b) = hasChar c a || hasChar c b.
Proof. induction a; simpl; [reflexivity|]. now rewrite IHa, orb_assoc. Qed.

Lemma hasChar_escapeQuotes (c : ascii) (value : string) :
  Ascii.eqb squote c = false -> Ascii.eqb dquote c = false ->
  hasChar c (escapeQuotes value) = hasChar c value.
Proof.
  intros Hs Hd. induction value as [|d r IH]; [reflexivity|].
  cbn [escapeQuotes hasChar]. destruct (Ascii.eqb d squote) eqn:E.
  - apply Ascii.eqb_eq in E. subst d. unfold quoteEscape.
    cbn [append hasChar]. now rewrite Hs, Hd, IH.
  - cbn [hasChar]. now rewrite IH.
Qed.

Lemma hasChar_shQuote (c : ascii) (value : string) :
  Ascii.eqb squote c = false -> Ascii.eqb dquote c = false ->
  hasChar c (shQuote value) = hasChar c value.
Proof.
  intros Hs Hd. unfold shQuote. cbn [hasChar].
  rewrite Hs, hasChar_append, hasChar_escapeQuotes by assumption.
  cbn [hasChar]. rewrite Hs. now rewrite !orb_false_r.
Qed.

Lemma length_append (a b : string) :
  String.length (a ++ b) = (String.length a + String.length b)%nat.
Proof. induction a as [|c a IH]; [reflexivity|]. cbn [append String.length]. now rewrite IH. Qed.

Lemma startsWith_drop (rest search : string) :
  startsWith rest search = true -> rest = search ++ drop (String.length search) rest.
Proof.
  revert rest. induction search as [|c s IH]; intros rest H.
  - now destruct rest.
  - destruct rest as [|d r]; [discriminate|]. cbn [startsWith] in H.
    apply andb_true_iff in H. destruct H as [Hc Hs]. apply Ascii.eqb_eq in Hc. subst d.
    cbn [String.length drop append]. now rewrite <- (IH r Hs).
Qed.

(** A text without opening brace is copied by a pass of [replaceAll]. *)
Lemma replaceAll_go_copy (s' repl a post : string) :
  hasChar "{" a = false ->
  forall before,
  exists before',
    replaceAll_go (String "{" s') repl before O (a ++ post)
    = a ++ replaceAll_go (String "{" s') repl before' O post.
Proof.
  induction a as [|c r IH]; intros H before.
  - exists before. reflexivity.
  - cbn [hasChar] in H. apply orb_false_iff in H. destruct H as [Hc Hr].
    destruct (IH Hr (String c before)) as [b Hb]. exists b.
    cbn [append replaceAll_go startsWith]. rewrite Ascii.eqb_sym, Hc. cbn [andb].
    now rewrite Hb.
Qed.

(** At a match, a pass of [replaceAll] puts the substitution and goes on
    after the match. *)
Lemma replaceAll_go_match (s' repl rest : string) :
  startsWith rest (String "{" s') = true ->
  forall before,
  exists before',
    replaceAll_go (String "{" s') repl before O rest
    = getSubstitution (String "{" s') (rev_string before "")
                      (drop (String.length (String "{" s')) rest) repl
      ++ replaceAll_go (String "{" s') repl before' O
                       (drop (String.length (String "{" s')) rest).
Proof.
  intros H before. destruct rest as [|c r]; [discriminate|].
  cbn [replaceAll_go]. rewrite H.
  cbn [startsWith] in H. apply andb_true_iff in H. destruct H as [_ Hs].
  cbn [String.length Nat.pred drop].
  destruct (replaceAll_go_skip (String "{" s') repl s' (drop (String.length s') r)
                               (String c before)) as [b Hb].
  rewrite <- (startsWith_drop r s' Hs) in Hb. rewrite Hb.
  now exists b.
Qed.










(** ** The session id reported by runAgent (cli-runner.ts, debate-engine.ts) *)

(** C10, a case against the last part of the claim.  The engine holds a
    stored session id for gemini, and [connectAgent] is called with the empty
    string as the id to resume: [resumeSessionId ?? currentSessionId] is then
    the empty string, the probe is made without a session id, and when stdout
    holds no id the result's session id is empty and [connectAgent] throws
    for lack of one, the agent going to the error status. *)
Lemma C10_counterexample :
  let e1 := fst (exec testConfig (ConnectAgent gemini (Some "")) resumable) in
  as_sessionId (agentOf (agents resumable) gemini) = "gem-7"
  /\ snd (exec testConfig (ConnectAgent gemini (Some "")) resumable) = Returned
  /\ exists probe,
       pending e1 = [probe]
       /\ pc_awaiter probe = ByConnect gemini
       /\ opt_sessionId (pc_options probe) = None
       /\ let outcome := onClose unit (fun _ => tt) plainText noSessionId
                                 (pc_options probe) (Some 0) "OK" "" in
          (exists result, outcome = Resolved result /\ res_sessionId result = "")
          /\ snd (exec testConfig (Settle 0 outcome) e1)
             = Threw "gemini session id를 추출하지 못했습니다."
          /\ as_status (agentOf (agents (fst (exec testConfig (Settle 0 outcome) e1))) gemini)
             = agent_error.
Proof.
  split; [vm_compute; reflexivity|]. split; [vm_compute; reflexivity|].
  eexists. split; [vm_compute; reflexivity|].
  split; [reflexivity|]. split; [reflexivity|].
  split; [eexists; split; vm_compute; reflexivity|].
  split; vm_compute; reflexivity.
Qed.

Section SessionIdFallback.

Variable unknown : Type.
Variable tryParseJson : string -> unknown.
Variable extractText : string -> unknown -> string.
Variable extractSessionId : string -> unknown -> string.

Let close := onClose unknown tryParseJson extractText extractSessionId.

Lemma truthy_nonEmpty (s : string) : truthy s = true -> nonEmpty s = Some s.
Proof. unfold nonEmpty. now intros ->. Qed.

Lemma truthy_not_empty (s : string) : truthy s = true <-> s <> "".
Proof. destruct s; simpl; split; congruence. Qed.

(** C10, amended.  When the process exits with status zero, the promise of
    [runAgent] is fulfilled with a result whose session id is the one
    extracted from stdout when that is not empty, else the caller's session
    id, else the empty string.  Hence an invocation made with a session id
    reports a non-empty one; and when the id [connectAgent] resolves (the
    supplied one when one is supplied, be it empty, else the stored one) is
    not empty, the probe is made with that id and [connectAgent] is
    fulfilled, the agent becoming ready, whatever stdout holds. *)
Theorem C10_sessionId_fallback (options : AgentRunOptions) (stdout stderr : string) :
  let extracted := extractSessionId stdout (tryParseJson stdout) in
  (exists result,
      close options (Some 0) stdout stderr = Resolved result
      /\ res_sessionId result
         = (if truthy extracted then extracted
            else match opt_sessionId options with Some s => s | None => "" end)
      /\ (truthyOpt (opt_sessionId options) = true -> res_sessionId result <> ""))
  /\ (forall config e agent resumeSessionId,
        let resolved := match resumeSessionId with
                        | Some s => s
                        | None => as_sessionId (agentOf (agents e) agent)
                        end in
        truthy resolved = true ->
        status (debate e) <> running -> status (debate e) <> pause_requested ->
        exists e1 probe,
          connectAgent config agent resumeSessionId e = (e1, Returned)
          /\ pending e1 = (pending e ++ [probe])%list
          /\ pc_awaiter probe = ByConnect agent
          /\ opt_sessionId (pc_options probe) = Some resolved
          /\ forall e2,
               let done := connectAgent_resume agent
                             (close (pc_options probe) (Some 0) stdout stderr) e2 in
               snd done = Returned
               /\ as_status (agentOf (agents (fst done)) agent) = agent_ready
               /\ as_sessionId (agentOf (agents (fst done)) agent) <> "").
Proof.
  intros extracted. split.
  - eexists. split; [reflexivity|]. cbn [res_sessionId]. fold extracted.
    unfold orElse, orEmpty. split.
    + destruct (truthy extracted) eqn:E; [now rewrite E|].
      destruct (opt_sessionId options) as [s|]; [|reflexivity].
      now destruct s.
    + intros H. destruct (opt_sessionId options) as [s|]; [|discriminate].
      cbn in H. destruct (truthy extracted) eqn:E.
      * rewrite E. now apply truthy_not_empty.
      * rewrite H. now apply truthy_not_empty.
  - intros config e agent resumeSessionId resolved Hres Hrun Hpause.
    assert (Hguard : connectAgent config agent resumeSessionId e
                     = (runAgent {| opt_agent := agent;
                                    opt_prompt := CONNECT_PROMPT;
                                    opt_sessionId := nonEmpty resolved;
                                    opt_timeoutMs := turnTimeoutMs config;
                                    opt_commandTemplates := commandTemplates config agent |}
                                 (ByConnect agent)
                                 (panelOutput panel_center
                                    ("[" ++ agentName agent ++ "] 연결 시도 중...")
                                    (setAgentStatus agent agent_connecting None None e)),
                        Returned)).
    { unfold connectAgent. destruct (status (debate e)); try reflexivity; congruence. }
    do 2 eexists. split; [exact Hguard|].
    split; [reflexivity|]. split; [reflexivity|].
    split; [cbn; now apply truthy_nonEmpty|].
    intros e2. cbn [pc_options opt_sessionId].
    unfold close, onClose. cbn [Z.eqb negb res_sessionId connectAgent_resume].
    rewrite (truthy_nonEmpty _ Hres). cbn [opt_sessionId orEmpty].
    set (sid := orElse (orElse _ resolved) "").
    assert (Hsid : truthy sid = true).
    { subst sid. unfold orElse.
      destruct (truthy (extractSessionId stdout (tryParseJson stdout))) eqn:E.
      - now rewrite E.
      - now rewrite Hres. }
    rewrite Hsid. cbn [negb fst snd]. split; [reflexivity|].
    unfold panelOutput, emit, setAgentStatus.
    destruct agent; cbn; rewrite Hsid; cbn;
      (split; [reflexivity | now apply truthy_not_empty]).
Qed.

End SessionIdFallback.

Lemma C10_sessionId_fallback_witness :
  exists e1 probe,
    connectAgent testConfig gemini None resumable = (e1, Returned)
    /\ opt_sessionId (pc_options probe) = Some "gem-7"
    /\ snd (connectAgent_resume gemini
              (onClose unit (fun _ => tt) plainText noSessionId
                       (pc_options probe) (Some 0) "OK" "") e1) = Returned.
Proof.
  destruct (C10_sessionId_fallback unit (fun _ => tt) plainText noSessionId
              (mkOptions gemini "" None 0 (mkTemplates "" "")) "OK" "")
    as [_ H].
  destruct (H testConfig resumable gemini None) as (e1 & probe & H1 & _ & _ & H4 & H5).
  - vm_compute. reflexivity.
  - vm_compute. discriminate.
  - vm_compute. discriminate.
  - exists e1, probe. split; [exact H1|]. split; [exact H4|]. apply (H5 e1).
Defined.

(** ** The engine: lists of pending calls and the run store *)

Lemma turnsOf_app (a b : list PendingCall) :
  turnsOf (a ++ b) = (turnsOf a ++ turnsOf b)%list.
Proof. apply filter_app. Qed.

Lemma turnsOf_removeNth_probe (l : list PendingCall) :
  forall k c, nth_error l k = Some c -> isTurn c = false ->
              turnsOf (removeNth k l) = turnsOf l.
Proof.
  induction l as [|x l IH]; intros [|k] c H Hc; simpl in *; try discriminate.
  - injection H as ->. unfold turnsOf. simpl. now rewrite Hc.
  - unfold turnsOf in *. simpl. now rewrite (IH k c H Hc).
Qed.

Lemma turnsOf_removeNth_turn (l : list PendingCall) :
  forall k c c0, nth_error l k = Some c -> isTurn c = true -> turnsOf l = [c0] ->
                 c = c0 /\ turnsOf (removeNth k l) = [].
Proof.
  unfold turnsOf.
  induction l as [|x l IH]; intros [|k] c c0 H Hc Hl; simpl in *; try discriminate.
  - injection H as ->. rewrite Hc in Hl. injection Hl as -> Hl. now split.
  - destruct (isTurn x) eqn:Hx.
    + injection Hl as -> Hl. exfalso.
      assert (Hin : In c (filter isTurn l)).
      { apply filter_In. split; [|exact Hc]. eapply nth_error_In; eauto. }
      rewrite Hl in Hin. destruct Hin.
    + destruct (IH k c c0 H Hc Hl) as [-> Hr]. now split.
Qed.

Lemma turnsOf_nil_no_turn (l : list PendingCall) k c :
  turnsOf l = [] -> nth_error l k = Some c -> isTurn c = false.
Proof.
  intros Hl H. destruct (isTurn c) eqn:Hc; [|reflexivity]. exfalso.
  assert (Hin : In c (turnsOf l)).
  { apply filter_In. split; [|exact Hc]. eapply nth_error_In; eauto. }
  rewrite Hl in Hin. destruct Hin.
Qed.

Lemma lookup_cons_some {A} (k k' : string) (v : A) (l : list (string * A)) :
  RunLogStore.lookup k l <> None -> RunLogStore.lookup k ((k', v) :: l) <> None.
Proof. simpl. destruct (String.eqb k k'); [discriminate | trivial]. Qed.

Lemma makeRunId_not_empty (stamp suffix : string) :
  RunLogStore.makeRunId stamp suffix <> "".
Proof. discriminate. Qed.



(** ** The engine: the effect of each piece of runLoop on the core *)

Ltac proj := cbn [debate agents currentRun executionPromise control pauseWait consecutiveEmptyResponses sessionStore runLogStore emitted calls cancels pending loop clock set_debate set_agents set_currentRun set_executionPromise set_control set_pauseWait set_consecutiveEmptyResponses set_sessionStore set_runLogStore set_emitted set_calls set_cancels set_pending set_loop set_clock fst snd status runId round topic maxRounds reason pauseRequested stopRequested negb andb orb core withStatus withRound endCore awaitCore k_debate k_loop k_pending k_calls k_executionPromise k_control k_counter].

Ltac bool_facts :=
  repeat match goal with
         | H : negb _ = false |- _ => apply negb_false_iff in H
         | H : negb _ = true |- _ => apply negb_true_iff in H
         | H : _ || _ = false |- _ => apply orb_false_iff in H; destruct H
         | H : _ && _ = true |- _ => apply andb_true_iff in H; destruct H
         end.

Arguments turnsOf : simpl never.
Arguments RunLogStore.updateSummary : simpl never.
Arguments RunLogStore.append : simpl never.
Arguments RunLogStore.readSummary : simpl never.

Lemma DebateStatus_eqb_eq a b : DebateStatus_eqb a b = true <-> a = b.
Proof. destruct a, b; simpl; split; congruence. Qed.

Lemma AgentStatus_eqb_eq a b : AgentStatus_eqb a b = true <-> a = b.
Proof. destruct a, b; simpl; split; congruence. Qed.

Lemma readSummary_updateSummary now rid patch s s' k :
  RunLogStore.updateSummary now rid patch s = Some s' ->
  RunLogStore.readSummary k s <> None -> RunLogStore.readSummary k s' <> None.
Proof.
  unfold RunLogStore.updateSummary, RunLogStore.readSummary.
  destruct (RunLogStore.lookup rid (RunLogStore.summaryFiles s)); [|discriminate].
  intros [= <-]. cbn. apply lookup_cons_some.
Qed.

Lemma updateSummary_some now rid patch s :
  RunLogStore.readSummary rid s <> None ->
  exists s', RunLogStore.updateSummary now rid patch s = Some s'.
Proof.
  unfold RunLogStore.updateSummary. destruct (RunLogStore.readSummary rid s); [eauto|congruence].
Qed.

Lemma updateSummary_none now rid patch s :
  RunLogStore.updateSummary now rid patch s = None -> RunLogStore.readSummary rid s = None.
Proof.
  unfold RunLogStore.updateSummary. now destruct (RunLogStore.readSummary rid s).
Qed.

Lemma readSummary_append entry s k :
  RunLogStore.readSummary k (RunLogStore.append entry s) = RunLogStore.readSummary k s.
Proof. reflexivity. Qed.

Section Pieces.

Variable config : RuntimeConfig.

Lemma keepsSummaries_refl e : keepsSummaries e e.
Proof. now intros k. Qed.

Lemma keepsSummaries_trans e1 e2 e3 :
  keepsSummaries e1 e2 -> keepsSummaries e2 e3 -> keepsSummaries e1 e3.
Proof. intros H1 H2 k H. auto. Qed.

Lemma keepsEvents_refl e : keepsEvents e e.
Proof. now intros k. Qed.

Lemma keepsEvents_trans e1 e2 e3 :
  keepsEvents e1 e2 -> keepsEvents e2 e3 -> keepsEvents e1 e3.
Proof. intros H1 H2 k H. auto. Qed.

Lemma finally_core st rsn e :
  core (runLoop_finally st rsn e) = endCore st rsn e.
Proof.
  unfold runLoop_finally, panelOutput, setDebateStatus, emit.
  destruct (currentRun e) as [run|] eqn:Hrun; proj; rewrite ?Hrun; proj; [|reflexivity].
  now destruct (RunLogStore.updateSummary _ _ _ _).
Qed.

Lemma finally_emitted st rsn e :
  exists evs, emitted (runLoop_finally st rsn e) = (emitted e ++ evs)%list.
Proof.
  unfold runLoop_finally, panelOutput, setDebateStatus, emit.
  destruct (currentRun e) as [run|] eqn:Hrun; proj; rewrite ?Hrun; proj.
  - destruct (RunLogStore.updateSummary _ _ _ _) eqn:Hu; proj;
      rewrite <- app_assoc; eauto.
  - rewrite <- app_assoc; eauto.
Qed.

Lemma finally_keeps st rsn e :
  keepsSummaries e (runLoop_finally st rsn e) /\ keepsEvents e (runLoop_finally st rsn e).
Proof.
  split.
  - unfold runLoop_finally, panelOutput, setDebateStatus, emit, keepsSummaries.
    destruct (currentRun e) as [run|] eqn:Hrun; proj; rewrite ?Hrun; proj; [|auto].
    destruct (RunLogStore.updateSummary _ _ _ _) eqn:Hu; proj; [|auto].
    intros k Hk. eapply readSummary_updateSummary; eauto.
  - destruct (finally_emitted st rsn e) as [evs H]. intros ev Hev.
    rewrite H, in_app_iff. tauto.
Qed.

Lemma catch_core message e :
  core (runLoop_catch message e) = endCore stopped message e.
Proof. unfold runLoop_catch. now rewrite finally_core. Qed.

Lemma catch_keeps message e :
  keepsSummaries e (runLoop_catch message e)
  /\ keepsEvents e (runLoop_catch message e)
  /\ In (error_event "RUN_LOOP_ERROR" "토론 실행 중 오류가 발생했습니다." (Some message))
        (emitted (runLoop_catch message e)).
Proof.
  unfold runLoop_catch.
  set (e1 := panelOutput _ _ _).
  destruct (finally_keeps stopped message e1) as [Hs He].
  assert (H1 : keepsEvents e e1).
  { intros ev Hev. unfold e1, panelOutput, emit. proj. rewrite !in_app_iff. tauto. }
  split; [exact Hs|]. split; [eapply keepsEvents_trans; eauto|].
  apply He. unfold e1, panelOutput, emit. proj. rewrite !in_app_iff. simpl. tauto.
Qed.

Lemma after_core st rsn e :
  core (runLoop_after st rsn e) = endCore st (afterReason rsn e) e.
Proof. unfold runLoop_after. now rewrite finally_core. Qed.

Lemma after_keeps st rsn e :
  keepsSummaries e (runLoop_after st rsn e) /\ keepsEvents e (runLoop_after st rsn e).
Proof. unfold runLoop_after. apply finally_keeps. Qed.

Lemma invokeTurn_inl from to rnd prompt e :
  truthy (runId (debate e)) = true ->
  exists e',
    invokeTurn config from to rnd prompt e = inl e'
    /\ core e' = mkCore (debate e) (loop e)
                        (pending e ++ [turnCall config from to rnd prompt e])
                        (calls e ++ [turnCall config from to rnd prompt e])
                        (executionPromise e) (control e) (consecutiveEmptyResponses e)
    /\ runLogStore e' = runLogStore e /\ agents e' = agents e
    /\ keepsEvents e e'.
Proof.
  intros H. unfold invokeTurn. rewrite H. cbn [negb].
  eexists. split; [reflexivity|].
  unfold runAgent, emitLines, panelOutput, emit, turnCall. proj.
  split; [reflexivity|]. split; [reflexivity|]. split; [reflexivity|].
  intros ev Hev. proj. rewrite !in_app_iff. tauto.
Qed.

Lemma invokeTurn_inr from to rnd prompt e message :
  invokeTurn config from to rnd prompt e = inr message -> runId (debate e) = "".
Proof.
  unfold invokeTurn. destruct (runId (debate e)); [reflexivity | discriminate].
Qed.

Lemma head_core rnd latestGemini e :
  truthy (runId (debate e)) = true ->
  core (runLoop_head config rnd latestGemini e) = headCore config rnd latestGemini e
  /\ keepsSummaries e (runLoop_head config rnd latestGemini e)
  /\ keepsEvents e (runLoop_head config rnd latestGemini e).
Proof.
  intros Hid. unfold runLoop_head, headCore.
  destruct (rnd <=? maxRounds (debate e)).
  - destruct (stopRequested (control e)) eqn:Hstop.
    + rewrite after_core. unfold afterReason. rewrite Hstop. cbn [negb andb].
      split; [reflexivity | apply after_keeps].
    + set (e1 := setDebateStatus _ _ _).
      assert (Hid1 : truthy (runId (debate e1)) = true) by exact Hid.
      destruct (invokeTurn_inl codex gemini rnd
                  (codexPrompt rnd (topic (debate e1)) latestGemini) e1 Hid1)
        as (e2 & -> & Hc & Hs & Ha & He).
      change (turnCall config codex gemini rnd
                (codexPrompt rnd (topic (debate e1)) latestGemini) e1)
        with (turnCall config codex gemini rnd
                (codexPrompt rnd (topic (debate e)) latestGemini) e) in Hc.
      unfold core in *. proj. injection Hc as H1 H2 H3 H4 H5 H6 H7.
      rewrite H1, H3, H4, H5, H6, H7.
      split; [reflexivity|]. split.
      * intros k Hk. proj. rewrite Hs. exact Hk.
      * intros ev Hev. proj. apply He. unfold e1, setDebateStatus, emit. proj.
        rewrite in_app_iff. tauto.
  - rewrite after_core. split; [reflexivity | apply after_keeps].
Qed.


Lemma afterReason_stop rsn e :
  stopRequested (control e) = true -> afterReason rsn e = rsn.
Proof. unfold afterReason. now intros ->. Qed.

Lemma afterReason_other rsn e :
  String.eqb rsn "completed" = false -> afterReason rsn e = rsn.
Proof. unfold afterReason. intros ->. now destruct (_ && _). Qed.

Lemma invokeTurn_resume_spec from to rnd prompt rid result e :
  let empty := negb (truthy (trim (res_text result))) in
  let counter := if empty then consecutiveEmptyResponses e + 1 else 0 in
  let r := invokeTurn_resume from to rnd prompt rid result e in
  core (fst r) = mkCore (debate e) (loop e) (pending e) (calls e) (executionPromise e)
                        (control e) counter
  /\ keepsSummaries e (fst r) /\ keepsEvents e (fst r)
  /\ snd r = (if empty && (2 <=? counter)
              then Some "연속 2회 빈 응답으로 토론을 중단합니다."
              else match RunLogStore.readSummary rid (runLogStore e) with
                   | Some _ => None
                   | None => Some ("Run summary not found: " ++ rid)
                   end).
Proof.
  intros empty counter r. subst r. unfold invokeTurn_resume.
  set (e1 := if truthy (res_sessionId result) && _ then _ else e).
  assert (H1 : core e1 = core e /\ runLogStore e1 = runLogStore e /\ keepsEvents e e1).
  { subst e1. destruct (truthy (res_sessionId result) && _).
    - unfold setAgentStatus, emit. proj. repeat split.
      intros ev Hev. proj. rewrite in_app_iff. tauto.
    - repeat split. apply keepsEvents_refl. }
  destruct H1 as (Hc & Hs & He). unfold core in Hc.
  injection Hc as Hc1 Hc2 Hc3 Hc4 Hc5 Hc6 Hc7.
  fold empty. rewrite Hc7. fold counter.
  set (e2 := if empty then _ else _).
  assert (H2 : core e2 = mkCore (debate e) (loop e) (pending e) (calls e)
                                (executionPromise e) (control e) counter
               /\ runLogStore e2 = runLogStore e /\ emitted e2 = emitted e1
               /\ clock e2 = clock e1).
  { subst e2 counter. unfold core. destruct empty; proj;
      rewrite Hc1, Hc2, Hc3, Hc4, Hc5, Hc6, Hs; repeat split. }
  destruct H2 as (Hc' & Hs2 & He2 & Hck).
  assert (Hcnt : consecutiveEmptyResponses e2 = counter).
  { unfold core in Hc'. now injection Hc'. }
  rewrite Hcnt.
  destruct (empty && (2 <=? counter)).
  - cbn [fst snd]. split; [exact Hc'|]. split; [|split; [|reflexivity]].
    + intros k Hk. now rewrite Hs2.
    + intros ev Hev. rewrite He2. now apply He.
  - proj. rewrite Hs2, Hck.
    destruct (RunLogStore.updateSummary _ _ _ _) as [store|] eqn:Hu.
    + cbn [fst snd]. unfold panelOutput, emit. unfold core in *. proj.
      injection Hc' as K1 K2 K3 K4 K5 K6 K7.
      rewrite K1, K2, K3, K4, K5, K6, K7. split; [reflexivity|].
      split; [|split].
      * intros k Hk. proj. eapply readSummary_updateSummary; eauto.
      * intros ev Hev. proj. rewrite He2, !in_app_iff. left. left. now apply He.
      * pose proof (readSummary_updateSummary _ _ _ _ _ rid Hu) as Hr.
        rewrite readSummary_append in Hr.
        destruct (RunLogStore.readSummary rid (runLogStore e)) eqn:Hq; [reflexivity|].
        exfalso. unfold RunLogStore.updateSummary in Hu.
        rewrite readSummary_append, Hq in Hu. discriminate.
    + cbn [fst snd]. unfold core in *. proj.
      injection Hc' as K1 K2 K3 K4 K5 K6 K7.
      rewrite K1, K2, K3, K4, K5, K6, K7. split; [reflexivity|].
      apply updateSummary_none in Hu. rewrite readSummary_append in Hu. rewrite Hu.
      split; [|split; [|reflexivity]].
      * intros k Hk. proj. now rewrite readSummary_append.
      * intros ev Hev. proj. rewrite He2. now apply He.
Qed.

Lemma afterCodex_core rnd codexTurn e :
  truthy (runId (debate e)) = true ->
  core (runLoop_afterCodex config rnd codexTurn e)
  = (if stopRequested (control e) then endCore stopped "manual stop" e
     else awaitCore (debate e) rnd (Some codexTurn)
                    (turnCall config gemini codex rnd
                              (geminiPrompt rnd (topic (debate e)) (res_text codexTurn)) e) e)
  /\ keepsSummaries e (runLoop_afterCodex config rnd codexTurn e)
  /\ keepsEvents e (runLoop_afterCodex config rnd codexTurn e).
Proof.
  intros Hid. unfold runLoop_afterCodex.
  destruct (stopRequested (control e)) eqn:Hstop.
  - rewrite after_core, afterReason_stop by assumption.
    split; [reflexivity | apply after_keeps].
  - destruct (invokeTurn_inl gemini codex rnd
                (geminiPrompt rnd (topic (debate e)) (res_text codexTurn)) e Hid)
      as (e2 & -> & Hc & Hs & Ha & He).
    unfold core in *. proj. injection Hc as H1 H2 H3 H4 H5 H6 H7.
    rewrite H1, H3, H4, H5, H6, H7.
    split; [reflexivity|]. split.
    + intros k Hk. proj. now rewrite Hs.
    + intros ev Hev. proj. now apply He.
Qed.

Lemma afterGemini_core rnd codexTurn geminiTurn e :
  truthy (runId (debate e)) = true ->
  core (runLoop_afterGemini config rnd codexTurn geminiTurn e)
  = (if stopRequested (control e) then endCore stopped "manual stop" e
     else if consensusRegex config (res_text codexTurn)
             || consensusRegex config (res_text geminiTurn)
     then endCore completed "consensus detected" e
     else if pauseRequested (control e)
     then mkCore (withStatus paused (Some "paused at turn boundary") (debate e))
                 (LAwaitResume rnd (res_text geminiTurn) false)
                 (pending e) (calls e) (executionPromise e) (control e)
                 (consecutiveEmptyResponses e)
     else headCore config (rnd + 1) (res_text geminiTurn) e)
  /\ keepsSummaries e (runLoop_afterGemini config rnd codexTurn geminiTurn e)
  /\ keepsEvents e (runLoop_afterGemini config rnd codexTurn geminiTurn e).
Proof.
  intros Hid. unfold runLoop_afterGemini.
  destruct (stopRequested (control e)) eqn:Hstop.
  - rewrite after_core, afterReason_stop by assumption.
    split; [reflexivity | apply after_keeps].
  - destruct (consensusRegex config (res_text codexTurn)
              || consensusRegex config (res_text geminiTurn)).
    + rewrite after_core, afterReason_other by reflexivity.
      set (e1 := panelOutput _ _ e).
      destruct (after_keeps completed "consensus detected" e1) as [Hs He].
      split; [reflexivity|]. split.
      * intros k Hk. now apply Hs.
      * intros ev Hev. apply He. unfold e1, panelOutput, emit. proj.
        rewrite in_app_iff. tauto.
    + destruct (pauseRequested (control e)) eqn:Hpause.
      * unfold waitUntilResumedOrStopped, setDebateStatus, emit. proj.
        rewrite Hstop. cbn [DebateStatus_eqb negb]. proj.
        split; [reflexivity|]. split.
        -- intros k Hk. exact Hk.
        -- intros ev Hev. proj. rewrite in_app_iff. tauto.
      * now apply head_core.
Qed.

Lemma afterWait_core rnd latestGemini e :
  truthy (runId (debate e)) = true ->
  core (runLoop_afterWait config rnd latestGemini e)
  = (if stopRequested (control e) then endCore stopped "manual stop" e
     else headCore config (rnd + 1) latestGemini e)
  /\ keepsSummaries e (runLoop_afterWait config rnd latestGemini e)
  /\ keepsEvents e (runLoop_afterWait config rnd latestGemini e).
Proof.
  intros Hid. unfold runLoop_afterWait.
  destruct (stopRequested (control e)) eqn:Hstop.
  - rewrite after_core, afterReason_stop by assumption.
    split; [reflexivity | apply after_keeps].
  - now apply head_core.
Qed.

End Pieces.

(** ** The engine: the effect of each job on the core *)

Section Jobs.

Variable config : RuntimeConfig.

Lemma connectAgent_resume_core agent outcome e :
  core (fst (connectAgent_resume agent outcome e)) = core e
  /\ runLogStore (fst (connectAgent_resume agent outcome e)) = runLogStore e.
Proof.
  unfold connectAgent_resume, connectFailed, panelOutput, setAgentStatus, emit.
  destruct outcome as [result|message]; [destruct (negb (truthy (res_sessionId result)))|];
    split; reflexivity.
Qed.

Lemma prepared_core topic0 maxRounds0 stamp suffix e :
  let e0 := prepared config topic0 maxRounds0 stamp suffix e in
  core e0 = mkCore {| status := running; runId := RunLogStore.makeRunId stamp suffix;
                      round := 0; topic := trim topic0;
                      maxRounds := match maxRounds0 with
                                   | Some n => n
                                   | None => defaultMaxRounds config
                                   end;
                      reason := None |}
                   (loop e) (pending e) (calls e) (executionPromise e)
                   (mkControl false false) 0
  /\ keepsSummaries e e0
  /\ RunLogStore.readSummary (RunLogStore.makeRunId stamp suffix) (runLogStore e0) <> None
  /\ currentRun e0 <> None.
Proof.
  unfold prepared, panelOutput, setDebateStatus, emit, RunLogStore.createRun. proj.
  split; [reflexivity|]. split; [|split; [|discriminate]].
  - intros k Hk. proj. now apply lookup_cons_some.
  - proj. unfold RunLogStore.readSummary.
    cbn [RunLogStore.summaryFiles RunLogStore.rs_runId RunLogStore.lookup].
    now rewrite String.eqb_refl.
Qed.

Lemma startDebate_cases topic0 maxRounds0 stamp suffix e :
  (startable topic0 e = false
   /\ exists message, startDebate config topic0 maxRounds0 stamp suffix e = (e, Threw message))
  \/ (startable topic0 e = true
      /\ startDebate config topic0 maxRounds0 stamp suffix e
         = (started config topic0 maxRounds0 stamp suffix e, Returned)).
Proof.
  unfold startDebate, startable.
  destruct (truthy (trim topic0)); cbn [negb andb]; [|left; eauto].
  destruct (executionPromise e); cbn [negb andb]; [left; eauto|].
  destruct (AgentStatus_eqb (as_status (ag_gemini (agents e))) agent_ready);
    cbn [negb andb orb]; [|left; eauto].
  destruct (AgentStatus_eqb (as_status (ag_codex (agents e))) agent_ready);
    cbn [negb andb orb]; [|left; eauto].
  right. split; reflexivity.
Qed.

Lemma truthy_true_iff (s : string) : truthy s = true <-> s <> "".
Proof. destruct s; simpl; split; congruence. Qed.

Lemma started_core topic0 maxRounds0 stamp suffix e :
  let c := headCore config 1 "" (prepared config topic0 maxRounds0 stamp suffix e) in
  core (started config topic0 maxRounds0 stamp suffix e)
  = mkCore (k_debate c) (k_loop c) (k_pending c) (k_calls c) true (k_control c) (k_counter c)
  /\ keepsSummaries e (started config topic0 maxRounds0 stamp suffix e)
  /\ RunLogStore.readSummary (RunLogStore.makeRunId stamp suffix)
                             (runLogStore (started config topic0 maxRounds0 stamp suffix e))
     <> None.
Proof.
  intros c. subst c. unfold started, runLoop.
  destruct (prepared_core topic0 maxRounds0 stamp suffix e) as (Hc & Hk & Hs & Hr).
  remember (prepared config topic0 maxRounds0 stamp suffix e) as e0 eqn:He0.
  clear He0. destruct (currentRun e0); [clear Hr | congruence].
  assert (Hid : truthy (runId (debate e0)) = true).
  { unfold core in Hc. injection Hc as -> _. reflexivity. }
  destruct (head_core config 1 "" e0 Hid) as (Hh & Hk' & _).
  rewrite <- Hh.
  split; [reflexivity|]. split.
  - intros k Hq. proj. apply Hk', Hk, Hq.
  - proj. now apply Hk'.
Qed.

Lemma turnSettled_core from to rnd prompt rid outcome e r x :
  loop e = LAwaitTurn r x -> truthy (runId (debate e)) = true ->
  core (fst (turnSettled config from to rnd prompt rid outcome e))
  = match outcome with
    | Rejected message => endCore stopped message e
    | Resolved result =>
        let r1 := invokeTurn_resume from to rnd prompt rid result e in
        match snd r1 with
        | Some message => endCore stopped message (fst r1)
        | None =>
            match x with
            | None => afterCodexCore config r result (fst r1)
            | Some c => afterGeminiCore config r c result (fst r1)
            end
        end
    end
  /\ keepsSummaries e (fst (turnSettled config from to rnd prompt rid outcome e)).
Proof.
  intros Hl Hid. unfold turnSettled. rewrite Hl.
  destruct outcome as [result|message]; cbn [fst].
  - destruct (invokeTurn_resume_spec from to rnd prompt rid result e)
      as (Hc & Hk & _ & _).
    destruct (invokeTurn_resume from to rnd prompt rid result e) as [e1 [message|]];
      cbn [fst snd] in *.
    + rewrite catch_core. split; [reflexivity|].
      eapply keepsSummaries_trans; [exact Hk | apply catch_keeps].
    + assert (Hid1 : truthy (runId (debate e1)) = true).
      { unfold core in Hc. injection Hc as -> _. exact Hid. }
      destruct x as [c|]; cbn [fst].
      * destruct (afterGemini_core config r c result e1 Hid1) as (H1 & H2 & _).
        split; [exact H1 | eapply keepsSummaries_trans; eauto].
      * destruct (afterCodex_core config r result e1 Hid1) as (H1 & H2 & _).
        split; [exact H1 | eapply keepsSummaries_trans; eauto].
  - rewrite catch_core. split; [reflexivity | apply catch_keeps].
Qed.

Lemma exec_core l e :
  (loop e <> LNone -> runId (debate e) <> "") ->
  core (fst (exec config l e)) = step_core config l e
  /\ keepsSummaries e (fst (exec config l e)).
Proof.
  intros Hid. destruct l as [agent resume | topic0 mr stamp suffix | | | | k outcome
                            | k line | k line | | | now]; cbn [exec step_core].
  - unfold connectAgent.
    destruct (status (debate e)); cbn [fst];
      (split; [reflexivity | intros q Hq; exact Hq]).
  - destruct (startDebate_cases topic0 mr stamp suffix e) as [[Hs [m ->]] | [Hs ->]];
      rewrite Hs; cbn [fst].
    + split; [reflexivity | intros q Hq; exact Hq].
    + destruct (started_core topic0 mr stamp suffix e) as (H1 & H2 & _). now split.
  - unfold pauseDebate.
    destruct (DebateStatus_eqb (status (debate e)) running); cbn [negb fst];
      (split; [reflexivity | intros q Hq; exact Hq]).
  - unfold resumeDebate, releasePauseWait, releasedLoop.
    destruct (DebateStatus_eqb (status (debate e)) paused); cbn [negb fst];
      [|split; [reflexivity | intros q Hq; exact Hq]].
    unfold panelOutput, setDebateStatus, emit, core. proj.
    destruct (pauseWait e); proj; [destruct (loop e) eqn:Hl; proj; rewrite ?Hl|];
      (split; [reflexivity | intros q Hq; exact Hq]).
  - unfold stopDebate, releasePauseWait, releasedLoop.
    destruct (status (debate e)); cbn [fst];
      try (split; [reflexivity | intros q Hq; exact Hq]).
    all: unfold panelOutput, setDebateStatus, emit, core; proj.
    all: destruct (pauseWait e); proj; [destruct (loop e) eqn:Hl; proj; rewrite ?Hl|];
      (split; [reflexivity | intros q Hq; exact Hq]).
  - destruct (nth_error (pending e) k) as [call|];
      [|split; [reflexivity | intros q Hq; exact Hq]].
    destruct (pc_awaiter call) as [agent | from to rnd prompt rid].
    + destruct (connectAgent_resume_core agent outcome (set_pending (removeNth k (pending e)) e))
        as [-> Hs].
      split; [reflexivity|]. intros q Hq. now rewrite Hs.
    + destruct (loop e) as [|r x|? ? ?|] eqn:Hl;
        try (split; [reflexivity | intros q Hq; exact Hq]).
      assert (Hid' : truthy (runId (debate e)) = true).
      { apply truthy_true_iff, Hid. discriminate. }
      apply (turnSettled_core from to rnd prompt rid outcome
               (set_pending (removeNth k (pending e)) e) r x Hl Hid').
  - destruct (nth_error (pending e) k); cbn [fst];
      (split; [reflexivity | intros q Hq; exact Hq]).
  - destruct (nth_error (pending e) k); cbn [fst];
      (split; [reflexivity | intros q Hq; exact Hq]).
  - destruct (loop e) as [|? ?|r g [|]|] eqn:Hl; cbn [fst];
      try (split; [reflexivity | intros q Hq; exact Hq]).
    assert (Hid' : truthy (runId (debate e)) = true).
    { apply truthy_true_iff, Hid. discriminate. }
    destruct (afterWait_core config r g e Hid') as (H1 & H2 & _). now split.
  - destruct (loop e); cbn [fst]; (split; [reflexivity | intros q Hq; exact Hq]).
  - split; [reflexivity | intros q Hq; exact Hq].
Qed.

End Jobs.

(** ** The engine: what every reachable state satisfies *)

Section Invariant.

Variable config : RuntimeConfig.

Lemma turnsOf_snoc_turn l o a b r p i :
  turnsOf (l ++ [mkPending o (ByTurn a b r p i)])
  = (turnsOf l ++ [mkPending o (ByTurn a b r p i)])%list.
Proof. now rewrite turnsOf_app. Qed.

Lemma turnsOf_snoc_probe l o a :
  turnsOf (l ++ [mkPending o (ByConnect a)]) = turnsOf l.
Proof. rewrite turnsOf_app. cbn. apply app_nil_r. Qed.

(** The projections of a state whose core is known. *)
Ltac core_eqs H :=
  let Kd := fresh "Kd" in let Kl := fresh "Kl" in let Kp := fresh "Kp" in
  let Kc := fresh "Kc" in let Kx := fresh "Kx" in let Kt := fresh "Kt" in
  let Kn := fresh "Kn" in
  pose proof (f_equal k_debate H) as Kd; pose proof (f_equal k_loop H) as Kl;
  pose proof (f_equal k_pending H) as Kp; pose proof (f_equal k_calls H) as Kc;
  pose proof (f_equal k_executionPromise H) as Kx;
  pose proof (f_equal k_control H) as Kt; pose proof (f_equal k_counter H) as Kn;
  cbn [core k_debate k_loop k_pending k_calls k_executionPromise k_control k_counter]
    in Kd, Kl, Kp, Kc, Kx, Kt, Kn.

Ltac inv_core :=
  unfold InvCore, endCore, awaitCore, turnCall, probeCall, releasedLoop;
  cbn [core withStatus withRound k_debate k_loop k_pending k_calls k_executionPromise
       k_control k_counter status runId round turnAgent otherAgent];
  rewrite ?turnsOf_snoc_turn, ?turnsOf_snoc_probe.

Lemma InvCore_head rnd latestGemini e :
  runId (debate e) <> "" -> turnsOf (pending e) = [] -> 1 <= rnd ->
  InvCore (let c := headCore config rnd latestGemini e in
           mkCore (k_debate c) (k_loop c) (k_pending c) (k_calls c) true (k_control c)
                  (k_counter c)).
Proof.
  intros Hid Hp Hr. unfold headCore.
  destruct (rnd <=? maxRounds (debate e)); [destruct (stopRequested (control e))|];
    inv_core; rewrite ?Hp; repeat split; auto.
  do 2 eexists. split; reflexivity.
Qed.

Lemma InvCore_end st rsn e :
  runId (debate e) <> "" -> executionPromise e = true -> turnsOf (pending e) = [] ->
  InvCore (endCore st rsn e).
Proof. intros Hid Hx Hp. inv_core. repeat split; auto. Qed.

Lemma headCore_exec rnd latestGemini e :
  k_executionPromise (headCore config rnd latestGemini e) = executionPromise e.
Proof.
  unfold headCore.
  now destruct (rnd <=? maxRounds (debate e)); [destruct (stopRequested (control e))|].
Qed.

Lemma core_eta c :
  c = mkCore (k_debate c) (k_loop c) (k_pending c) (k_calls c) (k_executionPromise c)
             (k_control c) (k_counter c).
Proof. now destruct c. Qed.

Lemma InvCore_head' rnd latestGemini e :
  runId (debate e) <> "" -> executionPromise e = true -> turnsOf (pending e) = [] ->
  1 <= rnd -> InvCore (headCore config rnd latestGemini e).
Proof.
  intros Hid Hx Hp Hr.
  rewrite (core_eta (headCore config rnd latestGemini e)), headCore_exec, Hx.
  now apply InvCore_head.
Qed.

Lemma InvCore_step l e : Inv e -> InvCore (step_core config l e).
Proof.
  intros [(H1 & H2 & H3) H4].
  cbn [core k_debate k_loop k_pending k_calls k_executionPromise] in H1, H2, H3.
  assert (Hc : InvCore (core e)) by (repeat split; assumption).
  destruct l as [agent resume | topic0 mr stamp suffix | | | | k outcome
                | k line | k line | | | now]; cbn [step_core]; try exact Hc.
  - destruct (status (debate e)) eqn:Hs; try exact Hc; inv_core; exact Hc.
  - destruct (startable topic0 e) eqn:Hs; [|exact Hc].
    destruct (prepared_core config topic0 mr stamp suffix e) as (Hp & _).
    core_eqs Hp.
    unfold startable in Hs. apply andb_true_iff in Hs. destruct Hs as [Hs _].
    apply andb_true_iff in Hs. destruct Hs as [Hs _].
    apply andb_true_iff in Hs. destruct Hs as [_ Hs]. apply negb_true_iff in Hs.
    assert (Hl : loop e = LNone).
    { destruct (loop e); try reflexivity; exfalso;
        (assert (executionPromise e = true) by (apply H2; discriminate)); congruence. }
    rewrite Hl in H3.
    apply InvCore_head; [rewrite Kd; discriminate | now rewrite Kp | lia].
  - destruct (DebateStatus_eqb (status (debate e)) running) eqn:Hs; [|exact Hc].
    apply DebateStatus_eqb_eq in Hs. inv_core.
    split; [destruct H1 as [|[? _]]; [now left | congruence]|]. now split.
  - destruct (DebateStatus_eqb (status (debate e)) paused) eqn:Hs; [|exact Hc].
    apply DebateStatus_eqb_eq in Hs. inv_core.
    split; [destruct H1 as [|[? _]]; [now left | congruence]|].
    destruct (pauseWait e); [destruct (loop e)|];
      (split; [intros Hn; first [exact (H2 Hn) | apply H2; discriminate | exfalso; now apply Hn] | exact H3]).
  - destruct (status (debate e)) eqn:Hs; try exact Hc; inv_core.
    all: split; [destruct H1 as [|[? _]]; [now left | congruence]|].
    all: destruct (pauseWait e); [destruct (loop e)|];
      (split; [intros Hn; first [exact (H2 Hn) | apply H2; discriminate | exfalso; now apply Hn] | exact H3]).
  - destruct (nth_error (pending e) k) as [call|] eqn:Hk; [|exact Hc].
    destruct (pc_awaiter call) as [agent | from to rnd prompt rid] eqn:Ha.
    + assert (Hrem : turnsOf (removeNth k (pending e)) = turnsOf (pending e)).
      { apply (turnsOf_removeNth_probe _ _ _ Hk). unfold isTurn. now rewrite Ha. }
      inv_core. rewrite Hrem. now repeat split.
    + destruct (loop e) as [|r x|? ? ?|] eqn:Hl; try exact Hc.
      destruct H3 as (Hr & Hround & options & prompt0 & Hturns & Hagent).
      destruct (turnsOf_removeNth_turn _ _ _ _ Hk ltac:(unfold isTurn; now rewrite Ha) Hturns)
        as [-> Hrem].
      assert (Hid : runId (debate e) <> "") by (destruct H1 as [|[_ ?]]; congruence).
      assert (Hx : executionPromise e = true) by (apply H2; discriminate).
      set (e0 := set_pending (removeNth k (pending e)) e).
      destruct outcome as [result|message]; [|now apply InvCore_end].
      destruct (invokeTurn_resume_spec from to rnd prompt rid result e0) as (Hq & _).
      remember (invokeTurn_resume from to rnd prompt rid result e0) as r1 eqn:Hr1.
      clear Hr1. destruct r1 as [e1 thrown]. cbn [fst snd] in *.
      core_eqs Hq. subst e0. cbn [debate loop pending calls executionPromise control set_pending] in *.
      destruct thrown as [message|].
      { apply InvCore_end; congruence. }
      destruct x as [c|].
      * unfold afterGeminiCore.
        destruct (stopRequested (control e1)); [apply InvCore_end; congruence|].
        destruct (_ || _); [apply InvCore_end; congruence|].
        destruct (pauseRequested (control e1)).
        -- inv_core. rewrite Kd, Kx, Kp, Hrem. repeat split; auto.
        -- apply InvCore_head'; try congruence. lia.
      * unfold afterCodexCore.
        destruct (stopRequested (control e1)); [apply InvCore_end; congruence|].
        inv_core. rewrite Kd, Kx, Kp, Hrem. repeat split; auto.
        do 2 eexists. split; reflexivity.
  - destruct (loop e) as [|? ?|r g [|]|] eqn:Hl; try exact Hc.
    destruct H3 as (Hr & Hround & Hp).
    assert (Hid : runId (debate e) <> "") by (destruct H1 as [|[_ ?]]; congruence).
    assert (Hx : executionPromise e = true) by (apply H2; discriminate).
    unfold afterWaitCore.
    destruct (stopRequested (control e)); [now apply InvCore_end|].
    apply InvCore_head'; auto. lia.
  - destruct (loop e) eqn:Hl; try exact Hc. inv_core.
    split; [|split; [congruence | assumption]].
    destruct H1 as [|[_ ?]]; [now left | congruence].
Qed.

Lemma headCore_runId rnd latestGemini e :
  runId (k_debate (headCore config rnd latestGemini e)) = runId (debate e).
Proof.
  unfold headCore.
  now destruct (rnd <=? maxRounds (debate e)); [destruct (stopRequested (control e))|].
Qed.

Lemma step_core_runId l e :
  (forall topic0 mr stamp suffix, l <> StartDebate topic0 mr stamp suffix) ->
  runId (k_debate (step_core config l e)) = runId (debate e).
Proof.
  intros Hl.
  destruct l as [agent resume | topic0 mr stamp suffix | | | | k outcome
                | k line | k line | | | now]; cbn [step_core]; try reflexivity.
  - now destruct (status (debate e)).
  - now elim (Hl topic0 mr stamp suffix).
  - now destruct (DebateStatus_eqb (status (debate e)) running).
  - now destruct (DebateStatus_eqb (status (debate e)) paused).
  - now destruct (status (debate e)).
  - destruct (nth_error (pending e) k) as [call|]; [|reflexivity].
    destruct (pc_awaiter call) as [agent | from to rnd prompt rid]; [reflexivity|].
    destruct (loop e) as [|r x|? ? ?|]; try reflexivity.
    destruct outcome as [result|message]; [|reflexivity].
    destruct (invokeTurn_resume_spec from to rnd prompt rid result
                (set_pending (removeNth k (pending e)) e)) as (Hq & _).
    remember (invokeTurn_resume from to rnd prompt rid result
                (set_pending (removeNth k (pending e)) e)) as r1 eqn:Hr1.
    clear Hr1. destruct r1 as [e1 thrown]. cbn [fst snd] in *.
    pose proof (f_equal k_debate Hq) as Kd. cbn [core k_debate debate set_pending] in Kd.
    destruct thrown as [message|]; [cbn; now rewrite Kd|].
    destruct x as [c|].
    + unfold afterGeminiCore.
      destruct (stopRequested (control e1)); [cbn; now rewrite Kd|].
      destruct (_ || _); [cbn; now rewrite Kd|].
      destruct (pauseRequested (control e1)); [cbn; now rewrite Kd|].
      now rewrite headCore_runId, Kd.
    + unfold afterCodexCore.
      destruct (stopRequested (control e1)); cbn; now rewrite Kd.
  - destruct (loop e) as [|? ?|r g [|]|]; try reflexivity.
    unfold afterWaitCore.
    destruct (stopRequested (control e)); [reflexivity|]. apply headCore_runId.
  - now destruct (loop e).
Qed.

Lemma Inv_initial persisted : Inv (initial config persisted).
Proof.
  split; [|intros H; now elim H]. split; [right; now split|].
  split; [intros H; now elim H | reflexivity].
Qed.

Lemma Inv_step l e : Inv e -> Inv (fst (exec config l e)).
Proof.
  intros HI.
  assert (Hid : loop e <> LNone -> runId (debate e) <> "").
  { destruct HI as [([H|[_ H]] & _) _]; [intros _; exact H | intros H'; now elim H']. }
  destruct (exec_core config l e Hid) as [Hc Hk].
  split; [rewrite Hc; now apply InvCore_step|].
  change (debate (fst (exec config l e))) with (k_debate (core (fst (exec config l e)))).
  rewrite Hc.
  destruct l as [agent resume | topic0 mr stamp suffix | | | | k outcome
                | k line | k line | | | now].
  2:{ cbn [exec step_core] in *.
      destruct (startDebate_cases config topic0 mr stamp suffix e) as [[Hs _] | [Hs He]].
      - rewrite Hs. intros H. apply Hk. now apply HI.
      - rewrite Hs, He. cbn [fst k_debate].
        destruct (started_core config topic0 mr stamp suffix e) as (_ & _ & H).
        rewrite headCore_runId.
        destruct (prepared_core config topic0 mr stamp suffix e) as (Hp & _).
        pose proof (f_equal k_debate Hp) as Kd. cbn [core k_debate] in Kd.
        rewrite Kd. intros _. exact H. }
  all: rewrite step_core_runId by discriminate.
  all: intros H; apply Hk; now apply HI.
Qed.

Lemma reachable_Inv persisted e : reachable config persisted e -> Inv e.
Proof.
  induction 1 as [|e l _ IH]; [apply Inv_initial | now apply Inv_step].
Qed.

Lemma reachable_run persisted ls :
  forall e, reachable config persisted e -> reachable config persisted (run config ls e).
Proof.
  induction ls as [|l ls IH]; intros e He; [exact He|].
  cbn [run]. apply IH. now constructor.
Qed.

End Invariant.

(** ** The claims about the life cycle *)

Lemma reachable_connected : reachable testConfig SessionStore.empty connected.
Proof. apply reachable_run. constructor. Qed.

Lemma reachable_inRound1 : reachable testConfig SessionStore.empty inRound1.
Proof. apply reachable_run, reachable_connected. Qed.

Lemma reachable_pausedAfterRound1 :
  reachable testConfig SessionStore.empty pausedAfterRound1.
Proof. apply reachable_run, reachable_inRound1. Qed.

(** C9.  In every state the engine reaches from its initial state, by any
    sequence of jobs, a debate status other than idle comes with a non-empty
    run id. *)
Theorem C9_runId_nonempty (config : RuntimeConfig)
        (persisted : SessionStore.SessionFileData) (e : DebateEngine) :
  reachable config persisted e ->
  status (debate e) <> idle -> runId (debate e) <> "".
Proof.
  intros Hr Hs. destruct (reachable_Inv config persisted e Hr) as [([H|[H _]] & _) _].
  - exact H.
  - contradiction.
Qed.

Lemma C9_runId_nonempty_witness :
  status (debate inRound1) <> idle /\ runId (debate inRound1) <> "".
Proof.
  assert (H : status (debate inRound1) <> idle) by (vm_compute; discriminate).
  split; [exact H|].
  exact (C9_runId_nonempty testConfig SessionStore.empty inRound1 reachable_inRound1 H).
Defined.

(** The white space that [trim] strips is that of the platform: a topic of
    one ideographic space is blank, and so is a response of one no-break
    space after an empty one. *)
Example blank_beyond_ascii :
  trim (noBreakSpace ++ " a b" ++ ideographicSpace ++ nl) = "a b"
  /\ trim (byteOrderMark ++ "{}") = "{}"
  /\ exec testConfig (StartDebate ideographicSpace None "20240101_000000" "abc123") connected
     = (connected, Threw "토론 주제가 비어 있습니다.")
  /\ status (debate (run testConfig [Settle 0 (answer codex "");
                                     Settle 0 (answer gemini noBreakSpace)] inRound1))
     = stopped
  /\ reason (debate (run testConfig [Settle 0 (answer codex "");
                                     Settle 0 (answer gemini noBreakSpace)] inRound1))
     = Some emptyTwice.
Proof. repeat split; vm_compute; reflexivity. Qed.

(** C2.  [startDebate] throws, leaving the state as it is, when the trimmed
    topic is empty, when a run is in progress ([executionPromise] is set),
    or when an agent is not ready; otherwise it returns.  A second
    [startDebate] that follows a successful one, with no job in between,
    throws the already-running error.  And in every reachable state in which
    a [runLoop] exists, every [startDebate] throws: two loops never coexist. *)
Theorem C2_startDebate_guards (config : RuntimeConfig) (e : DebateEngine)
        (topic0 : string) (maxRounds0 : option Z) (stamp suffix : string) :
  let start := exec config (StartDebate topic0 maxRounds0 stamp suffix) in
  (trim topic0 = "" -> start e = (e, Threw "토론 주제가 비어 있습니다."))
  /\ (trim topic0 <> "" -> executionPromise e = true ->
      start e = (e, Threw "이미 실행 중인 토론이 있습니다."))
  /\ (as_status (ag_gemini (agents e)) <> agent_ready
      \/ as_status (ag_codex (agents e)) <> agent_ready ->
      exists message, start e = (e, Threw message))
  /\ (trim topic0 <> "" -> executionPromise e = false ->
      as_status (ag_gemini (agents e)) = agent_ready ->
      as_status (ag_codex (agents e)) = agent_ready ->
      snd (start e) = Returned)
  /\ (forall topic1 maxRounds1 stamp1 suffix1,
        snd (start e) = Returned -> trim topic1 <> "" ->
        exec config (StartDebate topic1 maxRounds1 stamp1 suffix1) (fst (start e))
        = (fst (start e), Threw "이미 실행 중인 토론이 있습니다."))
  /\ (forall persisted,
        reachable config persisted e -> loop e <> LNone ->
        exists message, start e = (e, Threw message)).
Proof.
  intros start. subst start. cbn [exec].
  assert (Hrun : forall t m s x e0, trim t <> "" -> executionPromise e0 = true ->
                   startDebate config t m s x e0
                   = (e0, Threw "이미 실행 중인 토론이 있습니다.")).
  { intros t m s x e0 Ht Hx. unfold startDebate.
    apply truthy_true_iff in Ht. now rewrite Ht, Hx. }
  split; [|split; [|split; [|split; [|split]]]].
  - intros Ht. unfold startDebate. now rewrite Ht.
  - apply Hrun.
  - intros Hn.
    destruct (startDebate_cases config topic0 maxRounds0 stamp suffix e)
      as [[_ Hm] | [Hs _]]; [exact Hm|].
    unfold startable in Hs. apply andb_true_iff in Hs. destruct Hs as [Hs Hc].
    apply andb_true_iff in Hs. destruct Hs as [_ Hg].
    apply AgentStatus_eqb_eq in Hg, Hc. destruct Hn; contradiction.
  - intros Ht Hx Hg Hc.
    destruct (startDebate_cases config topic0 maxRounds0 stamp suffix e)
      as [[Hs _] | [_ ->]]; [|reflexivity].
    unfold startable in Hs. apply truthy_true_iff in Ht.
    rewrite Ht, Hx, Hg, Hc in Hs. discriminate.
  - intros topic1 maxRounds1 stamp1 suffix1 Hret Ht.
    destruct (startDebate_cases config topic0 maxRounds0 stamp suffix e)
      as [[_ [m Hm]] | [_ Hs]].
    + rewrite Hm in Hret. discriminate.
    + rewrite Hs. cbn [fst]. now apply Hrun.
  - intros persisted Hr Hl.
    destruct (reachable_Inv config persisted e Hr) as [(_ & Hx & _) _].
    specialize (Hx Hl). cbn [core k_executionPromise] in Hx.
    destruct (startDebate_cases config topic0 maxRounds0 stamp suffix e)
      as [[_ Hm] | [Hs _]]; [exact Hm|].
    unfold startable in Hs. rewrite Hx in Hs.
    destruct (truthy (trim topic0)); discriminate.
Qed.

Lemma C2_startDebate_guards_witness :
  snd (exec testConfig (StartDebate "topic" None "20240101_000000" "abc123") connected)
  = Returned
  /\ exec testConfig (StartDebate "again" None "20240101_000001" "def456")
          (fst (exec testConfig (StartDebate "topic" None "20240101_000000" "abc123")
                     connected))
     = (fst (exec testConfig (StartDebate "topic" None "20240101_000000" "abc123")
                  connected),
        Threw "이미 실행 중인 토론이 있습니다.").
Proof.
  destruct (C2_startDebate_guards testConfig connected "topic" None
                                  "20240101_000000" "abc123")
    as (_ & _ & _ & H4 & H5 & _).
  assert (Hret : snd (exec testConfig (StartDebate "topic" None "20240101_000000" "abc123")
                           connected) = Returned).
  { apply H4; [vm_compute; discriminate | reflexivity | reflexivity | reflexivity]. }
  split; [exact Hret|].
  apply H5; [exact Hret | vm_compute; discriminate].
Defined.

(** C6, the claim refuted: after the round in which a pause was requested the
    run is still in progress (status paused, [runLoop] suspended), yet
    [connectAgent] returns and has called the runner. *)
Lemma C6_counterexample :
  status (debate pausedAfterRound1) = paused
  /\ loop pausedAfterRound1 = LAwaitResume 1 "gemini response" false
  /\ executionPromise pausedAfterRound1 = true
  /\ snd (exec testConfig (ConnectAgent gemini None) pausedAfterRound1) = Returned
  /\ length (calls (fst (exec testConfig (ConnectAgent gemini None) pausedAfterRound1)))
     = S (length (calls pausedAfterRound1)).
Proof. vm_compute. repeat split. Qed.

(** C6, amended.  [connectAgent] throws, without calling the runner and
    without touching the state, exactly when the debate status is running or
    pause_requested; in every other status, paused and stopping included, it
    goes on and calls the runner once. *)
Theorem C6_connect_rejected_while_running (config : RuntimeConfig) (e : DebateEngine)
        (agent : AgentName) (resumeSessionId : option string) :
  (status (debate e) = running \/ status (debate e) = pause_requested ->
   exec config (ConnectAgent agent resumeSessionId) e
   = (e, Threw "토론 실행 중에는 에이전트 재연결을 할 수 없습니다."))
  /\ (status (debate e) <> running -> status (debate e) <> pause_requested ->
      snd (exec config (ConnectAgent agent resumeSessionId) e) = Returned
      /\ calls (fst (exec config (ConnectAgent agent resumeSessionId) e))
         = (calls e ++ [probeCall config agent resumeSessionId e])%list).
Proof.
  cbn [exec]. unfold connectAgent. split.
  - intros [H|H]; now rewrite H.
  - intros H1 H2. destruct (status (debate e)); try contradiction; split; reflexivity.
Qed.

Lemma C6_connect_rejected_while_running_witness :
  status (debate inRound1) = running
  /\ exec testConfig (ConnectAgent gemini None) inRound1
     = (inRound1, Threw "토론 실행 중에는 에이전트 재연결을 할 수 없습니다.").
Proof.
  assert (H : status (debate inRound1) = running) by reflexivity.
  split; [exact H|].
  apply (C6_connect_rejected_while_running testConfig inRound1 gemini None). now left.
Defined.

(** ** The claims about turns *)

Section Turns.

Variable config : RuntimeConfig.

(** The settlement of the turn [runLoop] awaits, on the core. *)
Lemma settle_turn_core e k outcome call r x :
  Inv e -> loop e = LAwaitTurn r x ->
  nth_error (pending e) k = Some call -> isTurn call = true ->
  exists from to prompt,
    pc_awaiter call = ByTurn from to r prompt (runId (debate e))
    /\ RunLogStore.readSummary (runId (debate e)) (runLogStore e) <> None
    /\ round (debate e) = r
    /\ turnsOf (removeNth k (pending e)) = []
    /\ let e0 := set_pending (removeNth k (pending e)) e in
       core (fst (exec config (Settle k outcome) e))
       = match outcome with
         | Rejected message => endCore stopped message e0
         | Resolved result =>
             let r1 := invokeTurn_resume from to r prompt (runId (debate e)) result e0 in
             match snd r1 with
             | Some message => endCore stopped message (fst r1)
             | None =>
                 match x with
                 | None => afterCodexCore config r result (fst r1)
                 | Some c => afterGeminiCore config r c result (fst r1)
                 end
             end
         end.
Proof.
  intros HI Hl Hk Ht.
  assert (Hid : loop e <> LNone -> runId (debate e) <> "").
  { destruct HI as [([H|[_ H]] & _) _]; [intros _; exact H | intros H'; now elim H']. }
  destruct (exec_core config (Settle k outcome) e Hid) as [Hc _].
  destruct HI as [(_ & _ & H3) H4]. cbn [core k_loop k_pending k_debate] in H3.
  rewrite Hl in H3. destruct H3 as (Hr & Hround & options & prompt & Hturns & _).
  destruct (turnsOf_removeNth_turn _ _ _ _ Hk Ht Hturns) as [-> Hrem].
  exists (turnAgent x), (otherAgent (turnAgent x)), prompt.
  split; [reflexivity|]. split; [apply H4, Hid; rewrite Hl; discriminate|].
  split; [exact Hround|]. split; [exact Hrem|].
  rewrite Hc. cbn [step_core]. rewrite Hk. cbn [pc_awaiter]. now rewrite Hl.
Qed.

(** Once [runLoop] has ended, only a request that asks for it calls the
    runner. *)
Lemma ended_no_calls l e :
  Inv e -> loop e = LSettled \/ loop e = LNone -> invokes l = false ->
  calls (fst (exec config l e)) = calls e
  /\ (loop (fst (exec config l e)) = LSettled \/ loop (fst (exec config l e)) = LNone).
Proof.
  intros HI Hl Hq.
  assert (Hid : loop e <> LNone -> runId (debate e) <> "").
  { destruct HI as [([H|[_ H]] & _) _]; [intros _; exact H | intros H'; now elim H']. }
  destruct (exec_core config l e Hid) as [Hc _].
  change (calls (fst (exec config l e))) with (k_calls (core (fst (exec config l e)))).
  change (loop (fst (exec config l e))) with (k_loop (core (fst (exec config l e)))).
  rewrite Hc. clear Hc.
  destruct l as [agent resume | topic0 mr stamp suffix | | | | k outcome
                | k line | k line | | | now]; try discriminate; cbn [step_core].
  all: cbn [core k_calls k_loop].
  - destruct (DebateStatus_eqb (status (debate e)) running); now split.
  - destruct (DebateStatus_eqb (status (debate e)) paused); [|now split].
    cbn. unfold releasedLoop. split; [reflexivity|].
    destruct (pauseWait e); [|exact Hl]. destruct Hl as [-> | ->]; [now left | now right].
  - destruct (status (debate e)); try now split.
    all: cbn; unfold releasedLoop; (split; [reflexivity|]).
    all: destruct (pauseWait e); [|exact Hl];
      destruct Hl as [-> | ->]; [now left | now right].
  - destruct (nth_error (pending e) k) as [call|]; [|now split].
    destruct (pc_awaiter call); [now split|].
    destruct Hl as [Hl | Hl]; rewrite Hl; cbn; rewrite Hl; split; auto.
  - now split.
  - now split.
  - destruct Hl as [Hl | Hl]; rewrite Hl; cbn; rewrite Hl; split; auto.
  - destruct Hl as [Hl | Hl]; rewrite Hl; cbn; rewrite ?Hl; split; auto.
  - now split.
Qed.

Lemma ended_no_calls_run ls :
  forall e, Inv e -> loop e = LSettled \/ loop e = LNone ->
            forallb (fun l => negb (invokes l)) ls = true ->
            calls (run config ls e) = calls e.
Proof.
  induction ls as [|l ls IH]; intros e HI Hl Hq; [reflexivity|].
  cbn [forallb] in Hq. apply andb_true_iff in Hq. destruct Hq as [Hq Hqs].
  apply negb_true_iff in Hq.
  destruct (ended_no_calls l e HI Hl Hq) as [Hc Hl'].
  cbn [run]. rewrite IH; auto. now apply Inv_step.
Qed.

End Turns.

(** C3, the claim refuted: gemini's response of round 1 matches the consensus
    pattern, but a stop was requested while that turn was in flight, and the
    run ends stopped with reason manual stop. *)
Lemma C3_counterexample :
  consensusRegex testConfig "agreed" = true
  /\ status (debate stoppedDespiteConsensus) = stopped
  /\ reason (debate stoppedDespiteConsensus) = Some "manual stop"
  /\ round (debate stoppedDespiteConsensus) = 1.
Proof. vm_compute. repeat split. Qed.

(** C3, amended.  When gemini's turn of round [r] returns, no stop has been
    requested, the response is not the second empty one in a row, and the
    response of either turn of the round matches the consensus pattern, the
    run ends in that very job: status completed, reason consensus detected,
    round [r], no runner call made and none outstanding for a turn; and from
    then on the engine calls the runner only on a new [startDebate] or
    [connectAgent]. *)
Theorem C3_consensus_ends_run (config : RuntimeConfig)
        (persisted : SessionStore.SessionFileData) (e : DebateEngine)
        (k : nat) (call : PendingCall) (r : Z) (codexTurn geminiTurn : AgentRunResult) :
  reachable config persisted e ->
  loop e = LAwaitTurn r (Some codexTurn) ->
  nth_error (pending e) k = Some call -> isTurn call = true ->
  stopRequested (control e) = false ->
  (trim (res_text geminiTurn) = "" -> consecutiveEmptyResponses e < 1) ->
  consensusRegex config (res_text codexTurn)
  || consensusRegex config (res_text geminiTurn) = true ->
  let e' := fst (exec config (Settle k (Resolved geminiTurn)) e) in
  status (debate e') = completed
  /\ reason (debate e') = Some "consensus detected"
  /\ round (debate e') = r
  /\ loop e' = LSettled
  /\ calls e' = calls e
  /\ turnsOf (pending e') = []
  /\ forall ls, forallb (fun l => negb (invokes l)) ls = true ->
                calls (run config ls e') = calls e.
Proof.
  intros Hreach Hl Hk Ht Hstop Hempty Hcons e'.
  pose proof (reachable_Inv config persisted e Hreach) as HI.
  assert (HI' : Inv e') by now apply Inv_step.
  destruct (settle_turn_core config e k (Resolved geminiTurn) call r (Some codexTurn)
              HI Hl Hk Ht) as (from & to & prompt & _ & Hsum & Hround & Hrem & Hc).
  fold e' in Hc. cbn zeta in Hc.
  destruct (invokeTurn_resume_spec from to r prompt (runId (debate e)) geminiTurn
              (set_pending (removeNth k (pending e)) e)) as (Hq & _ & _ & Hthrown).
  cbn zeta in Hq, Hthrown.
  remember (invokeTurn_resume from to r prompt (runId (debate e)) geminiTurn
              (set_pending (removeNth k (pending e)) e)) as r1 eqn:Hr1.
  clear Hr1. destruct r1 as [e1 thrown]. cbn [fst snd] in *.
  cbn [runLogStore set_pending consecutiveEmptyResponses] in Hthrown.
  assert (Hno : negb (truthy (trim (res_text geminiTurn)))
                && (2 <=? (if negb (truthy (trim (res_text geminiTurn)))
                           then consecutiveEmptyResponses e + 1 else 0)) = false).
  { destruct (trim (res_text geminiTurn)) eqn:Htrim; [|reflexivity].
    cbn [truthy negb andb]. apply Z.leb_gt. specialize (Hempty eq_refl). lia. }
  rewrite Hno in Hthrown.
  destruct (RunLogStore.readSummary (runId (debate e)) (runLogStore e)); [|congruence].
  subst thrown.
  pose proof (f_equal k_debate Hq) as Kd. pose proof (f_equal k_calls Hq) as Kc.
  pose proof (f_equal k_control Hq) as Kt. pose proof (f_equal k_pending Hq) as Kp.
  cbn [core k_debate k_calls k_control k_pending debate calls control pending set_pending]
    in Kd, Kc, Kt, Kp.
  unfold afterGeminiCore in Hc. rewrite Kt, Hstop, Hcons in Hc.
  pose proof (f_equal k_debate Hc) as Ld. pose proof (f_equal k_loop Hc) as Ll.
  pose proof (f_equal k_calls Hc) as Lc. pose proof (f_equal k_pending Hc) as Lp.
  cbn [core endCore k_debate k_loop k_calls k_pending] in Ld, Ll, Lc, Lp.
  rewrite Ld, Ll, Lc, Lp, Kd, Kc, Kp. cbn [withStatus status reason round].
  repeat split; auto.
  intros ls Hls. rewrite <- Kc, <- Lc.
  apply ended_no_calls_run; auto.
Qed.

Lemma reachable_afterCodex1 : reachable testConfig SessionStore.empty afterCodex1.
Proof. apply reachable_run, reachable_inRound1. Qed.

Lemma C3_consensus_ends_run_witness :
  let e' := fst (exec testConfig (Settle 0 (answer gemini "합의: 동의합니다.")) afterCodex1) in
  status (debate e') = completed
  /\ reason (debate e') = Some "consensus detected"
  /\ round (debate e') = 1.
Proof.
  destruct (C3_consensus_ends_run testConfig SessionStore.empty afterCodex1 0
              (firstPending afterCodex1) 1 (reply codex "codex turn response")
              (reply gemini "합의: 동의합니다.") reachable_afterCodex1)
    as (H1 & H2 & H3 & _).
  - vm_compute. reflexivity.
  - vm_compute. reflexivity.
  - vm_compute. reflexivity.
  - vm_compute. reflexivity.
  - intros H. vm_compute in H. discriminate H.
  - vm_compute. reflexivity.
  - split; [exact H1 | split; [exact H2 | exact H3]].
Defined.

(** ** The prompt of the next round *)

Lemma includes_startsWith s t : startsWith s t = true -> includes s t = true.
Proof. intros H. destruct s; cbn [includes]; now rewrite H. Qed.

Lemma includes_prefix a s t : includes s t = true -> includes (a ++ s) t = true.
Proof.
  intros H. induction a as [|c a IH]; [exact H|].
  cbn [append includes]. now rewrite IH, orb_true_r.
Qed.

Lemma codexPrompt_includes rnd topic0 latestGemini :
  rnd <> 1 -> includes (codexPrompt rnd topic0 latestGemini) latestGemini = true.
Proof.
  intros H. unfold codexPrompt. apply Z.eqb_neq in H. rewrite H.
  cbn [joinLines]. do 4 apply includes_prefix.
  rewrite !append_assoc. do 2 apply includes_prefix.
  apply includes_startsWith, startsWith_append.
Qed.

(** C1, what the code does.  When gemini's turn of round [r] returns and the
    loop goes on to round [r + 1] (nothing stops or pauses the run, no
    consensus, the round is not the last), the engine makes one call of the
    runner, codex's turn of round [r + 1], and the prompt of that call is
    [codexPrompt] on gemini's response text as it came: the whole text is
    part of the prompt, whatever its length.  No limit enters, neither as an
    argument of [startDebate] nor from the configuration. *)
Theorem C1_prompt_holds_whole_response (config : RuntimeConfig)
        (persisted : SessionStore.SessionFileData) (e : DebateEngine)
        (k : nat) (call : PendingCall) (r : Z) (codexTurn geminiTurn : AgentRunResult) :
  reachable config persisted e ->
  loop e = LAwaitTurn r (Some codexTurn) ->
  nth_error (pending e) k = Some call -> isTurn call = true ->
  stopRequested (control e) = false ->
  pauseRequested (control e) = false ->
  (trim (res_text geminiTurn) = "" -> consecutiveEmptyResponses e < 1) ->
  consensusRegex config (res_text codexTurn)
  || consensusRegex config (res_text geminiTurn) = false ->
  r + 1 <= maxRounds (debate e) ->
  let e' := fst (exec config (Settle k (Resolved geminiTurn)) e) in
  exists next,
    calls e' = (calls e ++ [next])%list
    /\ pc_awaiter next
       = ByTurn codex gemini (r + 1) (opt_prompt (pc_options next)) (runId (debate e))
    /\ opt_prompt (pc_options next)
       = codexPrompt (r + 1) (topic (debate e)) (res_text geminiTurn)
    /\ includes (opt_prompt (pc_options next)) (res_text geminiTurn) = true.
Proof.
  intros Hreach Hl Hk Ht Hstop Hpause Hempty Hcons Hmore e'.
  pose proof (reachable_Inv config persisted e Hreach) as HI.
  assert (Hr : 1 <= r).
  { destruct HI as [(_ & _ & H3) _]. cbn [core k_loop] in H3. rewrite Hl in H3. tauto. }
  destruct (settle_turn_core config e k (Resolved geminiTurn) call r (Some codexTurn)
              HI Hl Hk Ht) as (from & to & prompt & _ & Hsum & Hround & Hrem & Hc).
  fold e' in Hc. cbn zeta in Hc.
  destruct (invokeTurn_resume_spec from to r prompt (runId (debate e)) geminiTurn
              (set_pending (removeNth k (pending e)) e)) as (Hq & _ & _ & Hthrown).
  cbn zeta in Hq, Hthrown.
  remember (invokeTurn_resume from to r prompt (runId (debate e)) geminiTurn
              (set_pending (removeNth k (pending e)) e)) as r1 eqn:Hr1.
  clear Hr1. destruct r1 as [e1 thrown]. cbn [fst snd] in *.
  cbn [runLogStore set_pending consecutiveEmptyResponses] in Hthrown.
  assert (Hno : negb (truthy (trim (res_text geminiTurn)))
                && (2 <=? (if negb (truthy (trim (res_text geminiTurn)))
                           then consecutiveEmptyResponses e + 1 else 0)) = false).
  { destruct (trim (res_text geminiTurn)) eqn:Htrim; [|reflexivity].
    cbn [truthy negb andb]. apply Z.leb_gt. specialize (Hempty eq_refl). lia. }
  rewrite Hno in Hthrown.
  destruct (RunLogStore.readSummary (runId (debate e)) (runLogStore e)); [|congruence].
  subst thrown.
  pose proof (f_equal k_debate Hq) as Kd. pose proof (f_equal k_calls Hq) as Kc.
  pose proof (f_equal k_control Hq) as Kt.
  cbn [core k_debate k_calls k_control debate calls control set_pending] in Kd, Kc, Kt.
  unfold afterGeminiCore, headCore in Hc.
  rewrite Kt, Hstop, Hcons, Hpause, Kd in Hc.
  apply Z.leb_le in Hmore. rewrite Hmore in Hc.
  pose proof (f_equal k_calls Hc) as Lc.
  cbn [core awaitCore k_calls] in Lc. rewrite Kc in Lc.
  eexists. split; [exact Lc|].
  cbn [turnCall pc_awaiter pc_options opt_prompt]. rewrite Kd.
  split; [reflexivity|]. split; [reflexivity|].
  apply codexPrompt_includes. lia.
Qed.

Lemma reachable_longCodex1 : reachable testConfig SessionStore.empty longCodex1.
Proof. apply reachable_run, reachable_connected. Qed.

Lemma C1_prompt_holds_whole_response_witness :
  let e' := fst (exec testConfig (Settle 0 (Resolved (reply gemini (repeat "g" 180))))
                      longCodex1) in
  exists next,
    calls e' = (calls longCodex1 ++ [next])%list
    /\ pc_awaiter next
       = ByTurn codex gemini (1 + 1) (opt_prompt (pc_options next)) (runId (debate longCodex1))
    /\ opt_prompt (pc_options next)
       = codexPrompt (1 + 1) (topic (debate longCodex1))
                     (res_text (reply gemini (repeat "g" 180)))
    /\ includes (opt_prompt (pc_options next)) (res_text (reply gemini (repeat "g" 180)))
       = true.
Proof.
  refine (C1_prompt_holds_whole_response testConfig SessionStore.empty longCodex1 0
            (firstPending longCodex1) 1 (reply codex (repeat "c" 180))
            (reply gemini (repeat "g" 180)) reachable_longCodex1 _ _ _ _ _ _ _ _).
  - vm_compute. reflexivity.
  - vm_compute. reflexivity.
  - vm_compute. reflexivity.
  - vm_compute. reflexivity.
  - vm_compute. reflexivity.
  - intros H. vm_compute in H. discriminate H.
  - vm_compute. reflexivity.
  - vm_compute. intros H. discriminate H.
Defined.

(** The run of the repository's test of the context limit (two rounds, both
    agents answering 180 characters in round 1).  Both responses are logged
    in full, the summary of the run records no limit, and the newest call of
    the runner, codex's turn of round 2, has all 180 characters of gemini's
    response in its prompt, hence a run of 101 of them. *)
Example longAnswers_forwarded_whole :
  (exists summary entries,
      RunLogStore.readRun (runId (debate longAnswers)) (runLogStore longAnswers)
      = Some (summary, entries)
      /\ map (fun entry => String.length (te_response entry)) entries = [180; 180]%nat
      /\ RunLogStore.rs_textLimit summary = None)
  /\ exists before call prompt,
       calls longAnswers = (before ++ [call])%list
       /\ pc_awaiter call = ByTurn codex gemini 2 prompt (runId (debate longAnswers))
       /\ opt_prompt (pc_options call) = prompt
       /\ includes prompt (repeat "g" 101) = true
       /\ includes prompt (repeat "g" 180) = true.
Proof.
  split.
  - do 2 eexists. split; [vm_compute; reflexivity|]. split; vm_compute; reflexivity.
  - exists (removelast (calls longAnswers)), (last (calls longAnswers) (firstPending longAnswers)).
    eexists. split; [vm_compute; reflexivity|].
    split; [vm_compute; reflexivity|]. split; [vm_compute; reflexivity|].
    split; vm_compute; reflexivity.
Qed.

(** ** The count of empty responses *)

Section EmptyResponses.

Variable config : RuntimeConfig.

Lemma headCore_counter rnd latestGemini e :
  k_counter (headCore config rnd latestGemini e) = consecutiveEmptyResponses e.
Proof.
  unfold headCore.
  now destruct (rnd <=? maxRounds (debate e)); [destruct (stopRequested (control e))|].
Qed.

Lemma afterTurnCore_counter rnd x result e :
  k_counter (afterTurnCore config rnd x result e) = consecutiveEmptyResponses e.
Proof.
  destruct x as [c|]; cbn [afterTurnCore].
  - unfold afterGeminiCore.
    destruct (stopRequested (control e)); [reflexivity|].
    destruct (_ || _); [reflexivity|].
    destruct (pauseRequested (control e)); [reflexivity|]. apply headCore_counter.
  - unfold afterCodexCore. now destruct (stopRequested (control e)).
Qed.

(** Jobs between two turns leave the count as it is. *)
Lemma betweenTurns_counter l e :
  Inv e -> betweenTurns l e ->
  consecutiveEmptyResponses (fst (exec config l e)) = consecutiveEmptyResponses e.
Proof.
  intros HI Hq.
  assert (Hid : loop e <> LNone -> runId (debate e) <> "").
  { destruct HI as [([H|[_ H]] & _) _]; [intros _; exact H | intros H'; now elim H']. }
  destruct (exec_core config l e Hid) as [Hc _].
  change (consecutiveEmptyResponses (fst (exec config l e)))
    with (k_counter (core (fst (exec config l e)))).
  rewrite Hc. clear Hc.
  destruct l as [agent resume | topic0 mr stamp suffix | | | | k outcome
                | k line | k line | | | now]; cbn [step_core betweenTurns] in *;
    try reflexivity.
  - now destruct (status (debate e)).
  - contradiction.
  - now destruct (DebateStatus_eqb (status (debate e)) running).
  - now destruct (DebateStatus_eqb (status (debate e)) paused).
  - now destruct (status (debate e)).
  - destruct (nth_error (pending e) k) as [call|]; [|reflexivity].
    unfold isTurn in Hq. destruct (pc_awaiter call); [reflexivity | discriminate].
  - destruct (loop e) as [|? ?|r g [|]|]; try reflexivity.
    unfold afterWaitCore. destruct (stopRequested (control e)); [reflexivity|].
    apply headCore_counter.
  - now destruct (loop e).
Qed.

Lemma quietRun_counter ls :
  forall e, Inv e -> quietRun config ls e ->
            consecutiveEmptyResponses (run config ls e) = consecutiveEmptyResponses e.
Proof.
  induction ls as [|l ls IH]; intros e HI Hq; [reflexivity|].
  destruct Hq as [Hl Hq]. cbn [run].
  rewrite IH; [now apply betweenTurns_counter | now apply Inv_step | exact Hq].
Qed.

(** The count after a turn has returned. *)
Lemma settle_turn_counter e k result call r x :
  Inv e -> loop e = LAwaitTurn r x ->
  nth_error (pending e) k = Some call -> isTurn call = true ->
  consecutiveEmptyResponses (fst (exec config (Settle k (Resolved result)) e))
  = if negb (truthy (trim (res_text result)))
    then consecutiveEmptyResponses e + 1 else 0.
Proof.
  intros HI Hl Hk Ht.
  destruct (settle_turn_core config e k (Resolved result) call r x HI Hl Hk Ht)
    as (from & to & prompt & _ & _ & _ & _ & Hc).
  change (consecutiveEmptyResponses (fst (exec config (Settle k (Resolved result)) e)))
    with (k_counter (core (fst (exec config (Settle k (Resolved result)) e)))).
  rewrite Hc. clear Hc. cbn zeta.
  destruct (invokeTurn_resume_spec from to r prompt (runId (debate e)) result
              (set_pending (removeNth k (pending e)) e)) as (Hq & _).
  cbn zeta in Hq.
  remember (invokeTurn_resume from to r prompt (runId (debate e)) result
              (set_pending (removeNth k (pending e)) e)) as r1 eqn:Hr1.
  clear Hr1. destruct r1 as [e1 thrown]. cbn [fst snd] in *.
  pose proof (f_equal k_counter Hq) as Kn.
  cbn [core k_counter consecutiveEmptyResponses set_pending] in Kn.
  destruct thrown as [message|]; [exact Kn|].
  change (match x with
          | Some c => afterGeminiCore config r c result e1
          | None => afterCodexCore config r result e1
          end) with (afterTurnCore config r x result e1).
  now rewrite afterTurnCore_counter.
Qed.

(** The second empty response in a row makes [invokeTurn] throw; [runLoop]
    catches. *)
Lemma settle_turn_emptyTwice e k result call r x :
  Inv e -> loop e = LAwaitTurn r x ->
  nth_error (pending e) k = Some call -> isTurn call = true ->
  trim (res_text result) = "" -> 1 <= consecutiveEmptyResponses e ->
  let e' := fst (exec config (Settle k (Resolved result)) e) in
  status (debate e') = stopped
  /\ reason (debate e') = Some emptyTwice
  /\ loop e' = LSettled
  /\ In (error_event "RUN_LOOP_ERROR" "토론 실행 중 오류가 발생했습니다." (Some emptyTwice))
        (emitted e').
Proof.
  intros HI Hl Hk Ht Hempty Hcount e'.
  destruct (settle_turn_core config e k (Resolved result) call r x HI Hl Hk Ht)
    as (from & to & prompt & Ha & _ & _ & _ & _).
  assert (He : e' = fst (turnSettled config from to r prompt (runId (debate e))
                           (Resolved result) (set_pending (removeNth k (pending e)) e))).
  { unfold e'. cbn [exec]. rewrite Hk, Ha, Hl. reflexivity. }
  unfold turnSettled in He. cbn [loop set_pending] in He. rewrite Hl in He.
  destruct (invokeTurn_resume_spec from to r prompt (runId (debate e)) result
              (set_pending (removeNth k (pending e)) e)) as (_ & _ & _ & Hthrown).
  cbn zeta in Hthrown. cbn [consecutiveEmptyResponses set_pending] in Hthrown.
  rewrite Hempty in Hthrown. cbn [truthy negb andb] in Hthrown.
  replace (2 <=? consecutiveEmptyResponses e + 1) with true in Hthrown
    by (symmetry; apply Z.leb_le; lia).
  destruct (invokeTurn_resume from to r prompt (runId (debate e)) result
              (set_pending (removeNth k (pending e)) e)) as [e1 thrown].
  cbn [snd] in Hthrown. subst thrown. cbn [fst] in He.
  change "연속 2회 빈 응답으로 토론을 중단합니다." with emptyTwice in He.
  pose proof (catch_core emptyTwice e1) as Hc. rewrite <- He in Hc.
  pose proof (f_equal k_debate Hc) as Kd. pose proof (f_equal k_loop Hc) as Kl.
  cbn [core endCore k_debate k_loop] in Kd, Kl.
  rewrite Kd, Kl. cbn [withStatus status reason].
  repeat split. rewrite He. apply catch_keeps.
Qed.

Lemma step_counter_nonneg l e :
  Inv e -> 0 <= consecutiveEmptyResponses e ->
  0 <= consecutiveEmptyResponses (fst (exec config l e)).
Proof.
  intros HI H0.
  assert (Hid : loop e <> LNone -> runId (debate e) <> "").
  { destruct HI as [([H|[_ H]] & _) _]; [intros _; exact H | intros H'; now elim H']. }
  destruct (exec_core config l e Hid) as [Hc _].
  change (consecutiveEmptyResponses (fst (exec config l e)))
    with (k_counter (core (fst (exec config l e)))).
  rewrite Hc. clear Hc.
  destruct l as [agent resume | topic0 mr stamp suffix | | | | k outcome
                | k line | k line | | | now]; cbn [step_core]; try exact H0.
  - now destruct (status (debate e)).
  - destruct (startable topic0 e); [|exact H0].
    cbn [k_counter]. rewrite headCore_counter.
    destruct (prepared_core config topic0 mr stamp suffix e) as (Hp & _).
    pose proof (f_equal k_counter Hp) as Kn. cbn [core k_counter] in Kn.
    rewrite Kn. lia.
  - now destruct (DebateStatus_eqb (status (debate e)) running).
  - now destruct (DebateStatus_eqb (status (debate e)) paused).
  - now destruct (status (debate e)).
  - destruct (nth_error (pending e) k) as [call|]; [|exact H0].
    destruct (pc_awaiter call) as [agent | from to rnd prompt rid]; [exact H0|].
    destruct (loop e) as [|r x|? ? ?|]; try exact H0.
    destruct outcome as [result|message]; [|exact H0].
    destruct (invokeTurn_resume_spec from to rnd prompt rid result
                (set_pending (removeNth k (pending e)) e)) as (Hq & _).
    cbn zeta in Hq.
    remember (invokeTurn_resume from to rnd prompt rid result
                (set_pending (removeNth k (pending e)) e)) as r1 eqn:Hr1.
    clear Hr1. destruct r1 as [e1 thrown]. cbn [fst snd] in *.
    pose proof (f_equal k_counter Hq) as Kn.
    cbn [core k_counter consecutiveEmptyResponses set_pending] in Kn.
    assert (H1 : 0 <= consecutiveEmptyResponses e1).
    { rewrite Kn. destruct (negb (truthy (trim (res_text result)))); lia. }
    destruct thrown as [message|]; [exact H1|].
    change (match x with
            | Some c => afterGeminiCore config r c result e1
            | None => afterCodexCore config r result e1
            end) with (afterTurnCore config r x result e1).
    now rewrite afterTurnCore_counter.
  - destruct (loop e) as [|? ?|r g [|]|]; try exact H0.
    unfold afterWaitCore. destruct (stopRequested (control e)); [exact H0|].
    now rewrite headCore_counter.
  - now destruct (loop e).
Qed.

Lemma counter_nonneg persisted e :
  reachable config persisted e -> 0 <= consecutiveEmptyResponses e.
Proof.
  induction 1 as [|e l Hr IH]; [cbn; lia|].
  apply step_counter_nonneg; [|exact IH]. now apply (reachable_Inv config persisted).
Qed.

End EmptyResponses.

(** C7.  Take two consecutive turns of a run: a turn returns [first], jobs
    that neither start a debate nor settle a turn follow, and the next turn
    returns [second], whitespace-only.  If [first] was whitespace-only too,
    the run aborts in that job: status stopped, the failure message as the
    reason, an error event emitted, [runLoop] ended.  If [first] was not, the
    count is back at zero before the second turn and one after it, and
    [runLoop] goes on with what follows the turn. *)
Theorem C7_two_empty_responses_abort (config : RuntimeConfig)
        (persisted : SessionStore.SessionFileData) (e : DebateEngine)
        (k1 k2 : nat) (call1 call2 : PendingCall) (r1 r2 : Z)
        (x1 x2 : option AgentRunResult) (first second : AgentRunResult)
        (between : list Label) :
  reachable config persisted e ->
  loop e = LAwaitTurn r1 x1 ->
  nth_error (pending e) k1 = Some call1 -> isTurn call1 = true ->
  let e1 := fst (exec config (Settle k1 (Resolved first)) e) in
  quietRun config between e1 ->
  let e2 := run config between e1 in
  loop e2 = LAwaitTurn r2 x2 ->
  nth_error (pending e2) k2 = Some call2 -> isTurn call2 = true ->
  trim (res_text second) = "" ->
  let e3 := fst (exec config (Settle k2 (Resolved second)) e2) in
  (trim (res_text first) = "" ->
   status (debate e3) = stopped
   /\ reason (debate e3) = Some emptyTwice
   /\ loop e3 = LSettled
   /\ In (error_event "RUN_LOOP_ERROR" "토론 실행 중 오류가 발생했습니다." (Some emptyTwice))
         (emitted e3))
  /\ (trim (res_text first) <> "" ->
      consecutiveEmptyResponses e2 = 0
      /\ consecutiveEmptyResponses e3 = 1
      /\ exists e', core e3 = afterTurnCore config r2 x2 second e').
Proof.
  intros Hreach Hl1 Hk1 Ht1 e1 Hquiet e2 Hl2 Hk2 Ht2 Hempty e3.
  pose proof (reachable_Inv config persisted e Hreach) as HI.
  assert (HI1 : Inv e1) by now apply Inv_step.
  assert (HI2 : Inv e2).
  { apply (reachable_Inv config persisted). apply reachable_run. now constructor. }
  assert (Hc1 : consecutiveEmptyResponses e1
                = if negb (truthy (trim (res_text first)))
                  then consecutiveEmptyResponses e + 1 else 0).
  { now apply (settle_turn_counter config e k1 first call1 r1 x1). }
  assert (Hc2 : consecutiveEmptyResponses e2 = consecutiveEmptyResponses e1).
  { now apply quietRun_counter. }
  split.
  - intros Hfirst. apply (settle_turn_emptyTwice config e2 k2 second call2 r2 x2); auto.
    rewrite Hc2, Hc1, Hfirst. cbn [truthy negb].
    assert (0 <= consecutiveEmptyResponses e); [|lia].
    now apply (counter_nonneg config persisted).
  - intros Hfirst. apply truthy_true_iff in Hfirst. rewrite Hfirst in Hc1.
    cbn [negb] in Hc1. rewrite Hc1 in Hc2. split; [exact Hc2|].
    split.
    + unfold e3. rewrite (settle_turn_counter config e2 k2 second call2 r2 x2); auto.
      rewrite Hempty, Hc2. reflexivity.
    + destruct (settle_turn_core config e2 k2 (Resolved second) call2 r2 x2 HI2 Hl2 Hk2 Ht2)
        as (from & to & prompt & _ & Hsum & _ & _ & Hc).
      fold e3 in Hc. cbn zeta in Hc.
      destruct (invokeTurn_resume_spec from to r2 prompt (runId (debate e2)) second
                  (set_pending (removeNth k2 (pending e2)) e2)) as (_ & _ & _ & Hthrown).
      cbn zeta in Hthrown.
      cbn [consecutiveEmptyResponses runLogStore set_pending] in Hthrown.
      rewrite Hempty, Hc2 in Hthrown. cbn in Hthrown.
      destruct (RunLogStore.readSummary (runId (debate e2)) (runLogStore e2));
        [|congruence].
      rewrite Hthrown in Hc. eexists. exact Hc.
Qed.

Lemma C7_two_empty_responses_abort_witness :
  let e1 := fst (exec testConfig (Settle 0 (Resolved (reply codex "  "))) inRound1) in
  let e2 := run testConfig [] e1 in
  let e3 := fst (exec testConfig (Settle 0 (Resolved (reply gemini ""))) e2) in
  status (debate e3) = stopped
  /\ reason (debate e3) = Some emptyTwice
  /\ loop e3 = LSettled
  /\ In (error_event "RUN_LOOP_ERROR" "토론 실행 중 오류가 발생했습니다." (Some emptyTwice))
        (emitted e3).
Proof.
  refine (proj1 (C7_two_empty_responses_abort testConfig SessionStore.empty inRound1 0 0
                   (firstPending inRound1) (firstPending afterBlankCodex1) 1 1
                   None (Some (reply codex "  ")) (reply codex "  ") (reply gemini "") []
                   reachable_inRound1 _ _ _ _ _ _ _ _) _).
  - vm_compute. reflexivity.
  - vm_compute. reflexivity.
  - vm_compute. reflexivity.
  - exact I.
  - vm_compute. reflexivity.
  - vm_compute. reflexivity.
  - vm_compute. reflexivity.
  - vm_compute. reflexivity.
  - vm_compute. split; reflexivity.
Defined.

(** ** The order of the turns *)

Section TurnOrder.

Variable config : RuntimeConfig.

Lemma expectedTurn_odd n r : Z.of_nat n = 2 * r - 1 -> expectedTurn n = (gemini, r).
Proof.
  intros H. unfold expectedTurn. rewrite H.
  replace (2 * r - 1) with (1 + 2 * (r - 1)) by lia.
  rewrite Z.even_add_mul_2. cbn [Z.even]. f_equal.
  rewrite (Z.mul_comm 2), Z.div_add by lia. cbn. lia.
Qed.

Lemma expectedTurn_even n r : Z.of_nat n = 2 * r -> expectedTurn n = (codex, r + 1).
Proof.
  intros H. unfold expectedTurn. rewrite H.
  replace (2 * r) with (0 + 2 * r) by lia.
  rewrite Z.even_add_mul_2. cbn [Z.even]. f_equal.
  rewrite (Z.mul_comm 2), Z.div_add by lia. cbn. lia.
Qed.

Lemma inOrder_snoc turns k :
  inOrder turns -> k = expectedTurn (length turns) -> inOrder (turns ++ [k]).
Proof.
  unfold inOrder. intros H ->.
  rewrite length_app. cbn [length]. rewrite Nat.add_1_r, seq_S, map_app.
  cbn [map Nat.add]. now rewrite <- H.
Qed.

Lemma RunInv_same base c c' :
  k_calls c' = k_calls c -> k_loop c' = k_loop c -> RunInv base c -> RunInv base c'.
Proof. intros Hc Hl (new & H1 & H2 & H3). exists new. now rewrite Hc, Hl. Qed.

Lemma RunInv_probe base d l p c x t n probe :
  isTurn probe = false ->
  RunInv base (mkCore d l p c x t n) -> RunInv base (mkCore d l p (c ++ [probe]) x t n).
Proof.
  intros Hp (new & H1 & H2 & H3). cbn [k_calls k_loop] in *.
  exists (new ++ [probe])%list. rewrite H1, app_assoc. split; [reflexivity|].
  rewrite turnsOf_app. unfold turnsOf at 2 4. cbn [filter]. rewrite Hp, app_nil_r.
  now split.
Qed.

Lemma RunInv_end base st rsn e c :
  k_calls c = calls e -> RunInv base c -> RunInv base (endCore st rsn e).
Proof.
  intros Hc (new & H1 & H2 & _). exists new. cbn [endCore k_calls k_loop onSchedule].
  now rewrite <- Hc.
Qed.

(** A turn invoked on schedule. *)
Lemma RunInv_await base d r x from to prompt call e c :
  k_calls c = calls e -> RunInv base c ->
  call = turnCall config from to r prompt e ->
  (forall turns, onSchedule turns (k_loop c) ->
                 expectedTurn turns = (from, r)
                 /\ onSchedule (S turns) (LAwaitTurn r x)) ->
  RunInv base (awaitCore d r x call e).
Proof.
  intros Hc (new & H1 & H2 & H3) -> Hs. destruct (Hs _ H3) as [He Hn].
  exists (new ++ [turnCall config from to r prompt e])%list.
  cbn [awaitCore k_calls k_loop]. rewrite <- Hc, H1, app_assoc.
  split; [reflexivity|]. rewrite turnsOf_app.
  change (turnsOf [turnCall config from to r prompt e])
    with [turnCall config from to r prompt e].
  rewrite map_app, length_app. cbn [map length]. rewrite Nat.add_1_r.
  split; [|exact Hn].
  apply inOrder_snoc; [exact H2|]. rewrite length_map, He. reflexivity.
Qed.

Lemma RunInv_head base rnd latestGemini e c :
  k_calls c = calls e -> RunInv base c ->
  (forall turns, onSchedule turns (k_loop c) -> Z.of_nat turns = 2 * (rnd - 1)) ->
  RunInv base (headCore config rnd latestGemini e).
Proof.
  intros Hc HR Hs. unfold headCore.
  destruct (rnd <=? maxRounds (debate e));
    [destruct (stopRequested (control e))|]; try (eapply RunInv_end; eassumption).
  eapply RunInv_await; try eassumption; [reflexivity|].
  intros turns Ht. specialize (Hs _ Ht). split.
  - rewrite (expectedTurn_even turns (rnd - 1)) by exact Hs. f_equal. lia.
  - cbn [onSchedule]. lia.
Qed.

Lemma RunInv_step base l e :
  Inv e -> notStart l = true -> RunInv base (core e) -> RunInv base (step_core config l e).
Proof.
  intros HI Hl HR.
  destruct l as [agent resume | topic0 mr stamp suffix | | | | k outcome
                | k line | k line | | | now]; try discriminate; cbn [step_core];
    try exact HR.
  - destruct (status (debate e)); try exact HR; now apply RunInv_probe.
  - destruct (DebateStatus_eqb (status (debate e)) running); [|exact HR].
    now apply (RunInv_same base (core e)).
  - destruct (DebateStatus_eqb (status (debate e)) paused); [|exact HR].
    destruct HR as (new & H1 & H2 & H3). exists new. cbn [k_calls k_loop core] in *.
    split; [exact H1|]. split; [exact H2|]. unfold releasedLoop.
    destruct (pauseWait e); [|exact H3]. now destruct (loop e).
  - assert (Hrel : RunInv base
                     (mkCore (withStatus stopping (Some "stop requested") (debate e))
                             (releasedLoop (pauseWait e) (loop e)) (pending e) (calls e)
                             (executionPromise e)
                             (mkControl (pauseRequested (control e)) true)
                             (consecutiveEmptyResponses e))).
    { destruct HR as (new & H1 & H2 & H3). exists new. cbn [k_calls k_loop core] in *.
      split; [exact H1|]. split; [exact H2|]. unfold releasedLoop.
      destruct (pauseWait e); [|exact H3]. now destruct (loop e). }
    now destruct (status (debate e)).
  - destruct (nth_error (pending e) k) as [call|] eqn:Hk; [|exact HR].
    destruct (pc_awaiter call) as [agent | from to rnd prompt rid] eqn:Ha.
    + now apply (RunInv_same base (core e)).
    + destruct (loop e) as [|r x|? ? ?|] eqn:Hloop; try exact HR.
      destruct outcome as [result|message];
        [|eapply RunInv_end; [|exact HR]; reflexivity].
      destruct (invokeTurn_resume_spec from to rnd prompt rid result
                  (set_pending (removeNth k (pending e)) e)) as (Hq & _).
      cbn zeta in Hq.
      remember (invokeTurn_resume from to rnd prompt rid result
                  (set_pending (removeNth k (pending e)) e)) as r1 eqn:Hr1.
      clear Hr1. destruct r1 as [e1 thrown]. cbn [fst snd] in *.
      pose proof (f_equal k_calls Hq) as Kc. cbn [core k_calls calls set_pending] in Kc.
      assert (Hc : k_calls (core e) = calls e1) by (symmetry; exact Kc).
      destruct thrown as [message|]; [eapply RunInv_end; eassumption|].
      destruct x as [c|].
      * unfold afterGeminiCore.
        destruct (stopRequested (control e1)); [eapply RunInv_end; eassumption|].
        destruct (_ || _); [eapply RunInv_end; eassumption|].
        destruct (pauseRequested (control e1)).
        -- destruct HR as (new & H1 & H2 & H3). exists new.
           cbn [k_calls k_loop core] in *. rewrite Kc, <- H1.
           split; [reflexivity|]. split; [exact H2|]. rewrite Hloop in H3. exact H3.
        -- eapply RunInv_head; try eassumption.
           intros turns Ht. cbn [core k_loop] in Ht. rewrite Hloop in Ht.
           cbn [onSchedule] in Ht. lia.
      * unfold afterCodexCore.
        destruct (stopRequested (control e1)); [eapply RunInv_end; eassumption|].
        eapply RunInv_await; try eassumption; [reflexivity|].
        intros turns Ht. cbn [core k_loop] in Ht. rewrite Hloop in Ht.
        cbn [onSchedule] in Ht. split; [now apply expectedTurn_odd|].
        cbn [onSchedule]. lia.
  - destruct (loop e) as [|? ?|r g [|]|] eqn:Hloop; try exact HR.
    unfold afterWaitCore.
    destruct (stopRequested (control e)); [eapply RunInv_end; [|exact HR]; reflexivity|].
    eapply RunInv_head; [|exact HR|]; [reflexivity|].
    intros turns Ht. cbn [core k_loop] in Ht. rewrite Hloop in Ht.
    cbn [onSchedule] in Ht. lia.
  - destruct (loop e) eqn:Hloop; try exact HR.
    destruct HR as (new & H1 & H2 & H3). exists new. now cbn [k_calls k_loop core] in *.
Qed.

Lemma RunInv_run base ls :
  forall e, Inv e -> forallb notStart ls = true -> RunInv base (core e) ->
            RunInv base (core (run config ls e)).
Proof.
  induction ls as [|l ls IH]; intros e HI Hls HR; [exact HR|].
  cbn [forallb] in Hls. apply andb_true_iff in Hls. destruct Hls as [Hl Hls].
  cbn [run]. apply IH; [now apply Inv_step | exact Hls |].
  assert (Hid : loop e <> LNone -> runId (debate e) <> "").
  { destruct HI as [([H|[_ H]] & _) _]; [intros _; exact H | intros H'; now elim H']. }
  destruct (exec_core config l e Hid) as [-> _]. now apply RunInv_step.
Qed.

Lemma RunInv_started topic0 mr stamp suffix e :
  RunInv (calls e) (core (started config topic0 mr stamp suffix e)).
Proof.
  destruct (started_core config topic0 mr stamp suffix e) as (-> & _).
  destruct (prepared_core config topic0 mr stamp suffix e) as (Hp & _).
  pose proof (f_equal k_calls Hp) as Kc. cbn [core k_calls] in Kc.
  remember (prepared config topic0 mr stamp suffix e) as e0 eqn:He0. clear He0 Hp.
  unfold headCore.
  destruct (1 <=? maxRounds (debate e0)); [destruct (stopRequested (control e0))|].
  - exists []. cbn [endCore k_calls k_loop]. rewrite Kc, app_nil_r. now repeat split.
  - exists [turnCall config codex gemini 1 (codexPrompt 1 (topic (debate e0)) "") e0].
    cbn [awaitCore k_calls k_loop]. rewrite Kc. now repeat split.
  - exists []. cbn [endCore k_calls k_loop]. rewrite Kc, app_nil_r. now repeat split.
Qed.

End TurnOrder.

(** C4, the claim refuted: more than one invocation can be outstanding.  In
    the status paused [connectAgent] passes its guard and calls the runner;
    when the run is resumed before that probe has settled, [runLoop] invokes
    codex's turn of round 2, and the probe and the turn are outstanding
    together. *)
Lemma C4_counterexample :
  reachable testConfig SessionStore.empty probeBesideTurn
  /\ status (debate probeBesideTurn) = running
  /\ round (debate probeBesideTurn) = 2
  /\ length (pending probeBesideTurn) = 2%nat
  /\ map (fun call => (isTurn call, opt_agent (pc_options call))) (pending probeBesideTurn)
     = [(false, gemini); (true, codex)].
Proof.
  split; [apply reachable_run, reachable_pausedAfterRound1|].
  repeat split; vm_compute; reflexivity.
Qed.

(** C4, amended.  In every run, from its [startDebate] on and whatever jobs
    follow (until another debate is started), the turns invoked are, in
    order, codex's and gemini's of round 1, codex's and gemini's of round 2,
    and so on: the first turn invoked in every round is addressed to codex,
    the second to gemini.  And in every reachable state at most one turn's
    invocation is outstanding: [runLoop] awaits each turn before it invokes
    the next.  The probes of [connectAgent] are not counted. *)
Theorem C4_turn_order (config : RuntimeConfig)
        (persisted : SessionStore.SessionFileData) (e : DebateEngine)
        (topic0 : string) (maxRounds0 : option Z) (stamp suffix : string)
        (ls : list Label) :
  reachable config persisted e ->
  snd (exec config (StartDebate topic0 maxRounds0 stamp suffix) e) = Returned ->
  forallb notStart ls = true ->
  let e' := run config ls (fst (exec config (StartDebate topic0 maxRounds0 stamp suffix) e)) in
  (exists new,
      calls e' = (calls e ++ new)%list
      /\ map turnKey (turnsOf new)
         = map expectedTurn (seq 0 (length (turnsOf new)))
      /\ onSchedule (length (turnsOf new)) (loop e'))
  /\ (length (turnsOf (pending e')) <= 1)%nat
  /\ (length (turnsOf (pending e)) <= 1)%nat.
Proof.
  intros Hreach Hret Hls e'.
  pose proof (reachable_Inv config persisted e Hreach) as HI.
  assert (Hreach' : reachable config persisted e').
  { apply reachable_run. now constructor. }
  assert (Hone : forall s, Inv s -> (length (turnsOf (pending s)) <= 1)%nat).
  { intros s [(_ & _ & H) _]. cbn [core k_loop k_pending] in H.
    destruct (loop s); try (rewrite H; cbn; lia).
    - destruct H as (_ & _ & options & prompt & -> & _). cbn. lia.
    - destruct H as (_ & _ & ->). cbn. lia. }
  split; [|split; apply Hone; [now apply (reachable_Inv config persisted) | exact HI]].
  assert (HR : RunInv (calls e) (core e')).
  { unfold e'. cbn [exec] in *.
    destruct (startDebate_cases config topic0 maxRounds0 stamp suffix e)
      as [[_ [m Hm]] | [_ Hs]].
    - rewrite Hm in Hret. discriminate.
    - rewrite Hs. cbn [fst].
      apply RunInv_run; [|exact Hls | apply RunInv_started].
      pose proof (Inv_step config (StartDebate topic0 maxRounds0 stamp suffix) e HI) as H.
      cbn [exec] in H. now rewrite Hs in H. }
  destruct HR as (new & H1 & H2 & H3). exists new. cbn [core k_calls k_loop] in *.
  split; [exact H1|]. split; [|exact H3].
  unfold inOrder in H2. now rewrite length_map in H2.
Qed.

Lemma C4_turn_order_witness :
  let e' := run testConfig round1Played
                (fst (exec testConfig
                           (StartDebate "pause test" (Some 3) "20240101_000000" "abc123")
                           connected)) in
  (exists new,
      calls e' = (calls connected ++ new)%list
      /\ map turnKey (turnsOf new)
         = map expectedTurn (seq 0 (length (turnsOf new)))
      /\ onSchedule (length (turnsOf new)) (loop e'))
  /\ (length (turnsOf (pending e')) <= 1)%nat
  /\ (length (turnsOf (pending connected)) <= 1)%nat.
Proof.
  refine (C4_turn_order testConfig SessionStore.empty connected "pause test" (Some 3)
                        "20240101_000000" "abc123" round1Played reachable_connected _ _).
  - vm_compute. reflexivity.
  - vm_compute. reflexivity.
Defined.

(** ** Pausing at the end of the round *)

Section Pause.

Variable config : RuntimeConfig.



End Pause.



(** ** Lines of a stream (cli-runner.ts) *)

Import CliText.

Lemma splitCrLf_not_nil (s : string) : splitCrLf s <> [].
Proof.
  destruct s as [|c r]; cbn [splitCrLf]; [discriminate|].
  destruct (Ascii.eqb c lineFeed); [discriminate|].
  destruct (Ascii.eqb c carriageReturn).
  - destruct r as [|d r']; [discriminate|].
    destruct (Ascii.eqb d lineFeed); [discriminate|].
    unfold consHead. destruct (splitCrLf (String d r')); discriminate.
  - unfold consHead. destruct (splitCrLf r); discriminate.
Qed.

Lemma splitCrLf_cons (c : ascii) (d : ascii) (r : string) :
  Ascii.eqb c lineFeed = false -> Ascii.eqb d lineFeed = false ->
  splitCrLf (String c (String d r)) = consHead c (splitCrLf (String d r)).
Proof.
  intros Hc Hd. cbn [splitCrLf]. rewrite Hc, Hd.
  now destruct (Ascii.eqb c carriageReturn).
Qed.

Lemma splitCrLf_plain (c : ascii) (r : string) :
  Ascii.eqb c lineFeed = false -> Ascii.eqb c carriageReturn = false ->
  splitCrLf (String c r) = consHead c (splitCrLf r).
Proof. intros Hc Hr. cbn [splitCrLf]. now rewrite Hc, Hr. Qed.

(** The first line of a text that does not begin with a line feed begins as
    the text does, unless the text begins with a line end. *)
Lemma splitCrLf_single_head (d : ascii) (r l : string) :
  Ascii.eqb d lineFeed = false ->
  splitCrLf (String d r) = [l] -> exists l', l = String d l'.
Proof.
  intros Hd. cbn [splitCrLf]. rewrite Hd.
  assert (H : forall ls, consHead d ls = [l] -> exists l', l = String d l').
  { intros [|x [|y ls]]; cbn; intros E; inversion E; eauto. }
  destruct (Ascii.eqb d carriageReturn); [|apply H].
  destruct r as [|d' r']; [apply H|].
  destruct (Ascii.eqb d' lineFeed); [|apply H].
  intros E. pose proof (splitCrLf_not_nil r') as N.
  destruct (splitCrLf r'); [now elim N | discriminate].
Qed.

Lemma consHead_join (c : ascii) (ls : list string) (b : string) (rest : list string) :
  ls <> [] ->
  (forall l, ls = [l] -> rest = consHead c (splitCrLf (l ++ b)) ->
             rest = splitCrLf (String c l ++ b)) ->
  rest = consHead c (removelast ls ++ splitCrLf (last ls "" ++ b)) ->
  rest = (removelast (consHead c ls) ++ splitCrLf (last (consHead c ls) "" ++ b))%list.
Proof.
  intros N Hone E. destruct ls as [|l [|l2 ls]]; [now elim N| |].
  - cbn [consHead removelast last app] in *. now apply Hone.
  - cbn [consHead] in *. exact E.
Qed.

Lemma splitCrLf_app_len (n : nat) :
  forall a b, (String.length a <= n)%nat ->
    splitCrLf (a ++ b)
    = (removelast (splitCrLf a) ++ splitCrLf (last (splitCrLf a) "" ++ b))%list.
Proof.
  induction n as [|n IH]; intros a b Hn.
  - destruct a; [reflexivity | cbn in Hn; lia].
  - destruct a as [|c r]; [reflexivity|]. cbn [String.length] in Hn.
    assert (IHr : forall b, splitCrLf (r ++ b)
                  = (removelast (splitCrLf r) ++ splitCrLf (last (splitCrLf r) "" ++ b))%list)
      by (intros; apply IH; lia).
    assert (Hsep : forall t, splitCrLf (t ++ b)
                   = (removelast (splitCrLf t) ++ splitCrLf (last (splitCrLf t) "" ++ b))%list ->
                   "" :: splitCrLf (t ++ b)
                   = (removelast ("" :: splitCrLf t)
                      ++ splitCrLf (last ("" :: splitCrLf t) "" ++ b))%list).
    { intros t E. pose proof (splitCrLf_not_nil t) as N.
      destruct (splitCrLf t) as [|x xs] eqn:Et; [now elim N|].
      cbn [removelast last app] in *. now rewrite E. }
    destruct (Ascii.eqb c lineFeed) eqn:Hc.
    + change (String c r ++ b) with (String c (r ++ b)).
      cbn [splitCrLf]. rewrite Hc. apply Hsep, IHr.
    + destruct r as [|d r'].
      * (* the last unit of [a] *)
        cbn [splitCrLf]. rewrite Hc.
        destruct (Ascii.eqb c carriageReturn); reflexivity.
      * destruct (Ascii.eqb d lineFeed) eqn:Hd.
        -- destruct (Ascii.eqb c carriageReturn) eqn:Hr.
           ++ change (String c (String d r') ++ b) with (String c (String d (r' ++ b))).
              cbn [splitCrLf]. rewrite Hc, Hr, Hd. apply Hsep, IH. cbn in Hn. lia.
           ++ change (String c (String d r') ++ b) with (String c (String d r' ++ b)).
              rewrite !splitCrLf_plain by assumption.
              apply consHead_join; [apply splitCrLf_not_nil| |now rewrite IHr].
              intros l El _. cbn [splitCrLf] in El. rewrite Hd in El.
              pose proof (splitCrLf_not_nil r') as N.
              destruct (splitCrLf r'); [now elim N | discriminate].
        -- change (String c (String d r') ++ b) with (String c (String d (r' ++ b))).
           rewrite !splitCrLf_cons by assumption.
           change (String d (r' ++ b)) with (String d r' ++ b).
           apply consHead_join; [apply splitCrLf_not_nil| |now rewrite IHr].
           intros l El ->.
           destruct (splitCrLf_single_head d r' l Hd El) as [l' ->].
           change (String c (String d l') ++ b) with (String c (String d (l' ++ b))).
           now rewrite splitCrLf_cons.
Qed.

Lemma splitCrLf_app (a b : string) :
  splitCrLf (a ++ b)
  = (removelast (splitCrLf a) ++ splitCrLf (last (splitCrLf a) "" ++ b))%list.
Proof. now apply (splitCrLf_app_len (String.length a)). Qed.

Lemma splitCrLf_no_lineFeed_len (n : nat) :
  forall s, (String.length s <= n)%nat ->
            Forall (fun l => hasChar lineFeed l = false) (splitCrLf s).
Proof.
  assert (Hcons : forall c ls, Ascii.eqb c lineFeed = false ->
                    Forall (fun l => hasChar lineFeed l = false) ls ->
                    Forall (fun l => hasChar lineFeed l = false) (consHead c ls)).
  { intros c [|l ls] Hc H; cbn [consHead].
    - constructor; [cbn [hasChar]; now rewrite Hc | constructor].
    - inversion H; subst. constructor; [cbn [hasChar]; now rewrite Hc | assumption]. }
  induction n as [|n IH]; intros s Hn.
  - destruct s; [repeat constructor | cbn in Hn; lia].
  - destruct s as [|c r]; [repeat constructor|]. cbn [String.length] in Hn.
    cbn [splitCrLf]. destruct (Ascii.eqb c lineFeed) eqn:Hc.
    + constructor; [reflexivity | apply IH; lia].
    + destruct (Ascii.eqb c carriageReturn); [|apply Hcons; [exact Hc | apply IH; lia]].
      destruct r as [|d r']; [apply Hcons; [exact Hc | apply IH; lia]|].
      destruct (Ascii.eqb d lineFeed).
      * constructor; [reflexivity | apply IH; cbn in Hn; lia].
      * apply Hcons; [exact Hc | apply IH; lia].
Qed.

Lemma splitCrLf_one_line (l : string) :
  hasChar lineFeed l = false -> splitCrLf l = [l].
Proof.
  induction l as [|c r IH]; [reflexivity|].
  cbn [hasChar]. intros H. apply orb_false_iff in H. destruct H as [Hc Hr].
  cbn [splitCrLf]. rewrite Hc, (IH Hr).
  destruct (Ascii.eqb c carriageReturn); [|reflexivity].
  destruct r as [|d r']; [reflexivity|].
  cbn [hasChar] in Hr. apply orb_false_iff in Hr. destruct Hr as [Hd _].
  now rewrite Hd.
Qed.

Lemma splitCrLf_last (s : string) :
  splitCrLf (last (splitCrLf s) "") = [last (splitCrLf s) ""].
Proof.
  apply splitCrLf_one_line.
  pose proof (splitCrLf_no_lineFeed_len (String.length s) s (le_n _)) as H.
  pose proof (splitCrLf_not_nil s) as N.
  induction (splitCrLf s) as [|l ls IH]; [now elim N|].
  inversion H; subst. destruct ls as [|l2 ls]; [assumption|].
  apply IH; [assumption | discriminate].
Qed.

Lemma onData_lines (chunks : list string) :
  forall remainder,
    splitCrLf remainder = [remainder] ->
    (fst (onData chunks remainder)
     ++ (if truthy (snd (onData chunks remainder))
         then [snd (onData chunks remainder)] else []))%list
    = filter truthy (splitCrLf (remainder ++ received chunks)).
Proof.
  induction chunks as [|chunk rest IH]; intros remainder Hone.
  - cbn [onData received fold_right fst snd]. rewrite append_nil_r, Hone.
    cbn [filter]. now destruct (truthy remainder).
  - cbn [onData received fold_right]. unfold streamLines.
    specialize (IH (last (splitCrLf (remainder ++ chunk)) "") (splitCrLf_last _)).
    destruct (onData rest (last (splitCrLf (remainder ++ chunk)) "")) as [later final].
    cbn [fst snd] in *. rewrite <- app_assoc, IH, <- filter_app.
    fold (received rest). now rewrite <- splitCrLf_app, append_assoc.
Qed.

(** X1.  The lines reported for a stream are the non-empty lines of the whole
    output, whatever the chunks in which the output arrives: each line once,
    in order, a line end being a line feed with the carriage return before
    it, also when a chunk ends between the two. *)
Theorem reportedLines_whole_output (chunks : list string) :
  reportedLines chunks = filter truthy (splitCrLf (received chunks)).
Proof.
  unfold reportedLines.
  pose proof (onData_lines chunks "" eq_refl) as H.
  destruct (onData chunks "") as [reported remainder]. exact H.
Qed.

(** ** Templates accepted by ensureTemplate (cli-runner.ts) *)

Lemma replaceAll_includes_repl (s' repl : string) :
  hasChar "$" repl = false ->
  forall s before,
    includes s (String "{" s') = true ->
    includes (replaceAll_go (String "{" s') repl before O s) repl = true.
Proof.
  intros Hrepl. induction s as [|c r IH]; intros before H; [discriminate|].
  destruct (startsWith (String c r) (String "{" s')) eqn:Hm.
  - destruct (replaceAll_go_match s' repl (String c r) Hm before) as [b ->].
    rewrite getSubstitution_plain by assumption.
    apply includes_startsWith, startsWith_append.
  - cbn [includes] in H. rewrite Hm in H. cbn [orb] in H.
    cbn [replaceAll_go]. rewrite Hm. cbn [includes].
    now rewrite (IH _ H), orb_true_r.
Qed.

Lemma includes_after (q : ascii) (r0 a post : string) :
  hasChar q a = false ->
  includes (a ++ post) (String q r0) = true -> includes post (String q r0) = true.
Proof.
  induction a as [|c a IH]; intros Ha H; [exact H|].
  cbn [hasChar] in Ha. apply orb_false_iff in Ha. destruct Ha as [Hc Ha].
  cbn [append includes startsWith] in H. rewrite Ascii.eqb_sym, Hc in H.
  cbn [andb orb] in H. now apply IH.
Qed.

(** A pass of [replaceAll] for a placeholder keeps an occurrence of a text
    that holds no opening brace and begins with a character the placeholder
    does not hold. *)
Lemma replaceAll_keeps (s' repl : string) (q : ascii) (r0 : string) :
  hasChar q (String "{" s') = false -> hasChar "{" (String q r0) = false ->
  forall n rest before,
    (String.length rest <= n)%nat ->
    includes rest (String q r0) = true ->
    includes (replaceAll_go (String "{" s') repl before O rest) (String q r0) = true.
Proof.
  intros Hq Hb. induction n as [|n IH]; intros rest before Hn H.
  - destruct rest; [discriminate | cbn in Hn; lia].
  - destruct rest as [|c t]; [discriminate|].
    destruct (startsWith (String c t) (String q r0)) eqn:Hr.
    + rewrite (startsWith_drop _ _ Hr).
      destruct (replaceAll_go_copy s' repl (String q r0)
                  (drop (String.length (String q r0)) (String c t)) Hb before) as [b ->].
      apply includes_startsWith, startsWith_append.
    + destruct (startsWith (String c t) (String "{" s')) eqn:Hm.
      * destruct (replaceAll_go_match s' repl (String c t) Hm before) as [b ->].
        apply includes_prefix, IH.
        -- rewrite (startsWith_drop _ _ Hm) in Hn.
           rewrite length_append in Hn. cbn [String.length] in *. lia.
        -- apply (includes_after q r0 (String "{" s')); [exact Hq|].
           now rewrite <- (startsWith_drop _ _ Hm).
      * cbn [includes] in H. rewrite Hr in H. cbn [orb] in H.
        cbn [replaceAll_go]. rewrite Hm. cbn [includes].
        cbn [String.length] in Hn.
        rewrite (IH t (String c before)) by (assumption || lia).
        apply orb_true_r.
Qed.

Lemma ensureKeys_includes (name template : string) (keys : list string) (key : string) :
  CliText.ensureKeys name template keys = None -> In key keys ->
  includes template ("{" ++ key ++ "}") = true.
Proof.
  induction keys as [|k rest IH]; intros H Hin; [destruct Hin|].
  cbn [CliText.ensureKeys] in H.
  destruct (includes template ("{" ++ k ++ "}")) eqn:Hk; [|discriminate].
  destruct Hin as [-> | Hin]; [exact Hk | now apply IH].
Qed.

(** X2.  A template that [ensureTemplate] accepts for the key [prompt] gives,
    for every prompt that holds neither [$] nor an opening brace and whatever
    the session id, a command line that contains the quoted prompt. *)
Theorem ensureTemplate_prompt_rendered (name template : string) (keys : list string)
        (prompt sid : string) :
  CliText.ensureTemplate name template keys = None -> In "prompt" keys ->
  hasChar "$" prompt = false -> hasChar "{" prompt = false ->
  includes (renderTemplate template [("prompt", prompt); ("session_id", sid)])
           (shQuote prompt) = true.
Proof.
  unfold CliText.ensureTemplate. intros He Hin Hd Hb.
  destruct (negb (truthy template)); [discriminate|].
  pose proof (ensureKeys_includes name template keys "prompt" He Hin) as Hp.
  assert (Hq1 : hasChar "$" (shQuote prompt) = false)
    by now rewrite hasChar_shQuote by reflexivity.
  assert (Hq2 : hasChar "{" (shQuote prompt) = false)
    by now rewrite hasChar_shQuote by reflexivity.
  cbn [renderTemplate].
  change ("{" ++ "prompt" ++ "}") with (String "{" "prompt}") in *.
  change ("{" ++ "session_id" ++ "}") with (String "{" "session_id}").
  unfold replaceAll.
  apply (replaceAll_keeps "session_id}" (shQuote sid) squote
           (escapeQuotes prompt ++ String squote "")
           eq_refl) with (n := String.length
                                 (replaceAll_go (String "{" "prompt}") (shQuote prompt) "" O
                                                template)).
  - exact Hq2.
  - apply le_n.
  - apply replaceAll_includes_repl; [exact Hq1 | exact Hp].
Qed.

Lemma ensureTemplate_prompt_rendered_witness :
  includes (renderTemplate "codex exec -c {model} {prompt}"
                           [("prompt", "it's"); ("session_id", "")])
           (shQuote "it's") = true.
Proof.
  refine (ensureTemplate_prompt_rendered "CODEX_START_CMD"
            "codex exec -c {model} {prompt}" ["prompt"] "it's" "" _ _ _ _).
  - vm_compute. reflexivity.
  - left. reflexivity.
  - vm_compute. reflexivity.
  - vm_compute. reflexivity.
Defined.

(** ** The text read from the output (cli-runner.ts) *)

Lemma rev_string_acc (s acc : string) : rev_string s acc = rev_string s "" ++ acc.
Proof.
  revert acc. induction s as [|c r IH]; intros acc; [reflexivity|].
  cbn [rev_string]. rewrite (IH (String c acc)), (IH (String c "")).
  now rewrite append_assoc.
Qed.

Lemma rev_string_append (a b acc : string) :
  rev_string (a ++ b) acc = rev_string b (rev_string a acc).
Proof. revert acc. induction a as [|c a IH]; intros acc; [reflexivity|]. apply IH. Qed.

Lemma rev_string_involutive (s : string) : rev_string (rev_string s "") "" = s.
Proof.
  induction s as [|c r IH]; [reflexivity|].
  cbn [rev_string]. rewrite (rev_string_acc r (String c "")), rev_string_append, IH.
  reflexivity.
Qed.

Lemma trimStart_stays (s : string) : headWhite s = false -> trimStart s = s.
Proof.
  destruct s as [|a [|b [|c r]]]; cbn [headWhite trimStart]; [reflexivity| | |].
  - now destruct (isWhite a).
  - destruct (isWhite a); [discriminate|]. now destruct (isWhite2 a b).
  - destruct (isWhite a); [discriminate|]. destruct (isWhite2 a b); [discriminate|].
    now destruct (isWhite3 a b c).
Qed.

Lemma trimStart_done_len (n : nat) :
  forall s, (String.length s <= n)%nat -> headWhite (trimStart s) = false.
Proof.
  induction n as [|n IH]; intros s Hn.
  - destruct s; [reflexivity | cbn [String.length] in Hn; lia].
  - destruct s as [|a r]; [reflexivity|]. cbn [String.length] in Hn.
    cbn [trimStart]. destruct (isWhite a) eqn:Ea; [apply IH; lia|].
    destruct r as [|b r1]; [cbn [headWhite]; now rewrite Ea|].
    cbn [String.length] in Hn.
    destruct (isWhite2 a b) eqn:Eb; [apply IH; lia|].
    destruct r1 as [|c r2]; [cbn [headWhite]; now rewrite Ea, Eb|].
    cbn [String.length] in Hn.
    destruct (isWhite3 a b c) eqn:Ec; [apply IH; lia|].
    cbn [headWhite]. now rewrite Ea, Eb, Ec.
Qed.

Lemma trimStart_done (s : string) : headWhite (trimStart s) = false.
Proof. exact (trimStart_done_len (String.length s) s (le_n _)). Qed.

Lemma trimStart_idempotent (s : string) : trimStart (trimStart s) = trimStart s.
Proof. apply trimStart_stays, trimStart_done. Qed.

Lemma trimStart_rev_stays (s : string) : headWhite_rev s = false -> trimStart_rev s = s.
Proof.
  destruct s as [|c [|b [|a r]]]; cbn [headWhite_rev trimStart_rev]; [reflexivity| | |].
  - now destruct (isWhite c).
  - destruct (isWhite c); [discriminate|]. now destruct (isWhite2 b c).
  - destruct (isWhite c); [discriminate|]. destruct (isWhite2 b c); [discriminate|].
    now destruct (isWhite3 a b c).
Qed.

Lemma trimStart_rev_done_len (n : nat) :
  forall s, (String.length s <= n)%nat ->
            headWhite_rev (trimStart_rev s) = false
            /\ exists p, s = p ++ trimStart_rev s.
Proof.
  induction n as [|n IH]; intros s Hn.
  - destruct s; [split; [reflexivity | now exists ""] | cbn [String.length] in Hn; lia].
  - destruct s as [|c r]; [split; [reflexivity | now exists ""]|].
    cbn [String.length] in Hn. cbn [trimStart_rev].
    destruct (isWhite c) eqn:Ec.
    { destruct (IH r) as [H [p Hp]]; [lia|]. split; [exact H|].
      exists (String c p). cbn [append]. now rewrite <- Hp. }
    destruct r as [|b r1];
      [split; [cbn [headWhite_rev]; now rewrite Ec | now exists ""]|].
    cbn [String.length] in Hn.
    destruct (isWhite2 b c) eqn:Eb.
    { destruct (IH r1) as [H [p Hp]]; [lia|]. split; [exact H|].
      exists (String c (String b p)). cbn [append]. now rewrite <- Hp. }
    destruct r1 as [|a r2];
      [split; [cbn [headWhite_rev]; now rewrite Ec, Eb | now exists ""]|].
    cbn [String.length] in Hn.
    destruct (isWhite3 a b c) eqn:Ea.
    { destruct (IH r2) as [H [p Hp]]; [lia|]. split; [exact H|].
      exists (String c (String b (String a p))). cbn [append]. now rewrite <- Hp. }
    split; [cbn [headWhite_rev]; now rewrite Ec, Eb, Ea | now exists ""].
Qed.

Lemma trimStart_rev_idempotent (s : string) :
  trimStart_rev (trimStart_rev s) = trimStart_rev s.
Proof.
  apply trimStart_rev_stays.
  exact (proj1 (trimStart_rev_done_len (String.length s) s (le_n _))).
Qed.

Lemma trimEnd_idempotent (s : string) : trimEnd (trimEnd s) = trimEnd s.
Proof. unfold trimEnd. now rewrite rev_string_involutive, trimStart_rev_idempotent. Qed.

(** [trimEnd] leaves a prefix. *)
Lemma trimEnd_prefix (s : string) : exists v, s = trimEnd s ++ v.
Proof.
  unfold trimEnd.
  destruct (trimStart_rev_done_len _ (rev_string s "") (le_n _)) as [_ [p Hp]].
  exists (rev_string p "").
  rewrite <- (rev_string_involutive s) at 1. rewrite Hp at 1.
  now rewrite rev_string_append, (rev_string_acc (trimStart_rev _)).
Qed.

Lemma headWhite_prefix (u v : string) : headWhite (u ++ v) = false -> headWhite u = false.
Proof.
  destruct u as [|a [|b [|c r]]]; [reflexivity| | |]; cbn [append headWhite].
  - destruct (isWhite a); [discriminate | reflexivity].
  - destruct (isWhite a); [discriminate|]. destruct (isWhite2 a b); [discriminate|].
    reflexivity.
  - trivial.
Qed.

Lemma trim_idempotent (s : string) : trim (trim s) = trim s.
Proof.
  unfold trim.
  destruct (trimEnd_prefix (trimStart s)) as [v Hv].
  rewrite (trimStart_stays (trimEnd (trimStart s))).
  - apply trimEnd_idempotent.
  - apply (headWhite_prefix _ v). rewrite <- Hv. apply trimStart_done.
Qed.

Lemma truthy_false_empty (s : string) : truthy s = false -> s = "".
Proof. now destruct s. Qed.

(** What [deepFindString] returns is empty, or a string as [trim] leaves
    it. *)
Lemma ownString_trimmed (fields : list (string * CliText.Json)) (keys : list string) :
  trim (CliText.ownString fields keys) = CliText.ownString fields keys.
Proof.
  induction keys as [|key rest IH]; [reflexivity|].
  cbn [CliText.ownString].
  destruct (CliText.getField key fields) as [[| | |value| |]|]; try exact IH.
  destruct (truthy (trim value)); [apply trim_idempotent | exact IH].
Qed.

Lemma deepFindString_trimmed (keys : list string) :
  forall input, trim (CliText.deepFindString input keys) = CliText.deepFindString input keys.
Proof.
  fix IH 1. intros [| | | |items|fields]; try reflexivity.
  - cbn [CliText.deepFindString].
    induction items as [|value rest IHl]; [reflexivity|].
    destruct (CliText.isObject value); [|exact IHl].
    destruct (truthy (CliText.deepFindString value keys)); [apply IH | exact IHl].
  - cbn [CliText.deepFindString].
    destruct (truthy (CliText.ownString fields keys)); [apply ownString_trimmed|].
    induction fields as [|[k value] rest IHl]; [reflexivity|].
    destruct (CliText.isObject value); [|exact IHl].
    destruct (truthy (CliText.deepFindString value keys)); [apply IH | exact IHl].
Qed.

(** X3.  The text [extractText] returns is as [trim] leaves it, and it is
    empty only when the output is blank: a process that prints anything but
    white space never gives an empty response text, whatever was parsed from
    its output. *)
Theorem extractText_trimmed (raw : string) (parsed : CliText.Json) :
  trim (CliText.extractText raw parsed) = CliText.extractText raw parsed
  /\ (CliText.extractText raw parsed = "" -> trim raw = "")
  /\ (CliText.deepFindString parsed CliText.textKeys = "" ->
      CliText.extractText raw parsed = trim raw).
Proof.
  unfold CliText.extractText.
  destruct (truthy (CliText.deepFindString parsed CliText.textKeys)) eqn:E.
  - split; [apply deepFindString_trimmed|]. split.
    + intros H. rewrite H in E. discriminate E.
    + intros H. rewrite H in E. discriminate E.
  - split; [apply trim_idempotent|]. split; [tauto | reflexivity].
Qed.

(** ** tryParseJson *)

Section TryParseJsonFacts.

Variable parse : string -> option CliText.Json.

Lemma firstParsed_skip (failing rest : list string) :
  Forall (fun x => parse x = None) failing ->
  CliText.firstParsed parse (failing ++ rest) = CliText.firstParsed parse rest.
Proof.
  induction 1 as [|x failing Hx _ IH]; [reflexivity|].
  cbn [app CliText.firstParsed]. now rewrite Hx.
Qed.

(** X4.  [tryParseJson] gives null for a blank text and the value of the
    whole text, trimmed, when that parses.  When it does not, the lines are
    tried from the last one up, trimmed and the blank ones left out: the
    value is that of the last line that parses, and null when none does. *)
Theorem tryParseJson_last_line (text : string) :
  let lines := filter truthy (map trim (splitLines (trim text))) in
  (trim text = "" -> CliText.tryParseJson parse text = CliText.JNull)
  /\ (forall value, trim text <> "" -> parse (trim text) = Some value ->
                    CliText.tryParseJson parse text = value)
  /\ (parse (trim text) = None ->
      forall before line after value,
        lines = (before ++ line :: after)%list ->
        parse line = Some value ->
        Forall (fun x => parse x = None) after ->
        CliText.tryParseJson parse text = value)
  /\ (parse (trim text) = None ->
      Forall (fun x => parse x = None) lines ->
      CliText.tryParseJson parse text = CliText.JNull).
Proof.
  intros lines. unfold CliText.tryParseJson. fold lines.
  split; [intros ->; reflexivity|]. split; [|split].
  - intros value Hne Hp. destruct (trim text); [now elim Hne|].
    cbn [truthy negb]. now rewrite Hp.
  - intros Hp before line after value Hl Hline Hafter.
    destruct (negb (truthy (trim text))) eqn:Ht.
    + exfalso. apply negb_true_iff, truthy_false_empty in Ht.
      subst lines. rewrite Ht in Hl. cbn in Hl. now destruct before.
    + rewrite Hp, Hl, rev_app_distr. cbn [rev]. rewrite <- app_assoc.
      rewrite firstParsed_skip by now apply Forall_rev.
      cbn [app CliText.firstParsed]. now rewrite Hline.
  - intros Hp Hall. destruct (negb (truthy (trim text))); [reflexivity|].
    rewrite Hp, <- (app_nil_r (rev lines)).
    now rewrite firstParsed_skip by now apply Forall_rev.
Qed.

End TryParseJsonFacts.

Lemma tryParseJson_last_line_witness :
  let parse := fun s => if String.eqb s "{}" then Some (CliText.JObject []) else None in
  CliText.tryParseJson parse ("log line" ++ nl ++ "{}" ++ nl ++ "done" ++ nl)
  = CliText.JObject [].
Proof.
  intros parse.
  refine (proj1 (proj2 (proj2 (tryParseJson_last_line parse
            ("log line" ++ nl ++ "{}" ++ nl ++ "done" ++ nl)))) _
            ["log line"] "{}" ["done"] (CliText.JObject []) _ _ _).
  - vm_compute. reflexivity.
  - vm_compute. reflexivity.
  - vm_compute. reflexivity.
  - repeat constructor.
Defined.

(** ** The runs directory (run-log-store.ts) *)

Lemma readRun_append (k : string) (entry : TranscriptEntry) (s : RunLogStore.t) :
  RunLogStore.readRun k (RunLogStore.append entry s)
  = match RunLogStore.readRun k s with
    | Some (summary, entries) =>
        Some (summary,
              if String.eqb k (te_runId entry) then (entries ++ [entry])%list else entries)
    | None => None
    end.
Proof.
  unfold RunLogStore.readRun, RunLogStore.append, RunLogStore.readSummary.
  cbn [RunLogStore.summaryFiles RunLogStore.jsonlFiles RunLogStore.lookup].
  destruct (RunLogStore.lookup k (RunLogStore.summaryFiles s)); [|reflexivity].
  destruct (String.eqb k (te_runId entry)) eqn:E; [|reflexivity].
  apply String.eqb_eq in E. now subst k.
Qed.

Lemma readRun_updateSummary (k now rid : string) (patch : RunLogStore.Patch)
      (s s' : RunLogStore.t) :
  RunLogStore.updateSummary now rid patch s = Some s' ->
  RunLogStore.readRun k s'
  = match RunLogStore.readRun k s with
    | Some (summary, entries) =>
        Some (if String.eqb k rid then RunLogStore.applyPatch now patch summary else summary,
              entries)
    | None => None
    end.
Proof.
  unfold RunLogStore.updateSummary, RunLogStore.readRun, RunLogStore.readSummary.
  destruct (RunLogStore.lookup rid (RunLogStore.summaryFiles s)) as [previous|] eqn:E;
    [|discriminate].
  intros [= <-].
  cbn [RunLogStore.summaryFiles RunLogStore.jsonlFiles RunLogStore.lookup].
  destruct (String.eqb k rid) eqn:Ek.
  - apply String.eqb_eq in Ek. subst k. now rewrite E.
  - now destruct (RunLogStore.lookup k (RunLogStore.summaryFiles s)).
Qed.

(** X5.  [createRun] leaves a run that [readRun] reads back as the summary
    returned, status running and round 0, with an empty log, also when a run
    of that id was there before; the other runs read as before. *)
Theorem createRun_readRun (now stamp suffix topic0 : string) (maxRounds0 : Z)
        (textLimit : option Z) (s : RunLogStore.t) :
  let created := RunLogStore.createRun now stamp suffix topic0 maxRounds0 textLimit s in
  RunLogStore.readRun (RunLogStore.rs_runId (fst created)) (snd created)
  = Some (fst created, [])
  /\ RunLogStore.rs_runId (fst created) = RunLogStore.makeRunId stamp suffix
  /\ RunLogStore.rs_status (fst created) = running
  /\ RunLogStore.rs_round (fst created) = 0
  /\ forall k, k <> RunLogStore.makeRunId stamp suffix ->
               RunLogStore.readRun k (snd created) = RunLogStore.readRun k s.
Proof.
  cbn zeta. unfold RunLogStore.createRun, RunLogStore.readRun, RunLogStore.readSummary.
  cbn [fst snd RunLogStore.rs_runId RunLogStore.rs_status RunLogStore.rs_round
       RunLogStore.summaryFiles RunLogStore.jsonlFiles RunLogStore.lookup].
  rewrite String.eqb_refl. repeat split.
  intros k Hk. apply String.eqb_neq in Hk. now rewrite Hk.
Qed.

Lemma createRun_readRun_witness :
  RunLogStore.readRun "run_a_1"
    (snd (RunLogStore.createRun "t1" "b" "2" "second" 3 None
            (snd (RunLogStore.createRun "t0" "a" "1" "first" 2 None RunLogStore.empty))))
  = RunLogStore.readRun "run_a_1"
      (snd (RunLogStore.createRun "t0" "a" "1" "first" 2 None RunLogStore.empty)).
Proof.
  refine (proj2 (proj2 (proj2 (proj2
            (createRun_readRun "t1" "b" "2" "second" 3 None
               (snd (RunLogStore.createRun "t0" "a" "1" "first" 2 None RunLogStore.empty))))))
            "run_a_1" _).
  intros H. vm_compute in H. discriminate H.
Defined.

(** X6.  [updateSummary] throws exactly when the run has no summary, and then
    writes nothing.  Otherwise the run reads back as the previous summary
    with every key of the patch written over it and the time of the update:
    a key that the patch does not hold is as it was, a key that it holds has
    the value of the patch, and [updatedAt] is the time of the update also
    when the patch holds one; the log of the run and the other runs read as
    before. *)
Theorem updateSummary_readRun (now rid : string) (patch : RunLogStore.Patch)
        (s : RunLogStore.t) :
  (RunLogStore.updateSummary now rid patch s = None <-> RunLogStore.readRun rid s = None)
  /\ forall s', RunLogStore.updateSummary now rid patch s = Some s' ->
       (exists previous entries next,
           RunLogStore.readRun rid s = Some (previous, entries)
           /\ RunLogStore.readRun rid s' = Some (next, entries)
           /\ RunLogStore.rs_updatedAt next = now
           /\ RunLogStore.rs_runId next
              = RunLogStore.over (RunLogStore.p_runId patch) (RunLogStore.rs_runId previous)
           /\ RunLogStore.rs_createdAt next
              = RunLogStore.over (RunLogStore.p_createdAt patch)
                                 (RunLogStore.rs_createdAt previous)
           /\ RunLogStore.rs_topic next
              = RunLogStore.over (RunLogStore.p_topic patch) (RunLogStore.rs_topic previous)
           /\ RunLogStore.rs_maxRounds next
              = RunLogStore.over (RunLogStore.p_maxRounds patch)
                                 (RunLogStore.rs_maxRounds previous)
           /\ RunLogStore.rs_textLimit next
              = RunLogStore.over (RunLogStore.p_textLimit patch)
                                 (RunLogStore.rs_textLimit previous)
           /\ RunLogStore.rs_status next
              = RunLogStore.over (RunLogStore.p_status patch) (RunLogStore.rs_status previous)
           /\ RunLogStore.rs_round next
              = RunLogStore.over (RunLogStore.p_round patch) (RunLogStore.rs_round previous)
           /\ RunLogStore.rs_reason next
              = RunLogStore.over (RunLogStore.p_reason patch)
                                 (RunLogStore.rs_reason previous))
       /\ forall k, k <> rid -> RunLogStore.readRun k s' = RunLogStore.readRun k s.
Proof.
  split.
  - unfold RunLogStore.updateSummary, RunLogStore.readRun.
    destruct (RunLogStore.readSummary rid s); split; intros H; (discriminate || reflexivity).
  - intros s' Hu. split.
    + pose proof (readRun_updateSummary rid now rid patch s s' Hu) as H.
      rewrite String.eqb_refl in H.
      destruct (RunLogStore.readRun rid s) as [[previous entries]|] eqn:E.
      * exists previous, entries, (RunLogStore.applyPatch now patch previous).
        split; [reflexivity|]. split; [exact H|]. cbn. repeat split.
      * exfalso. unfold RunLogStore.updateSummary, RunLogStore.readRun in *.
        destruct (RunLogStore.readSummary rid s); discriminate.
    + intros k Hk. rewrite (readRun_updateSummary k now rid patch s s' Hu).
      apply String.eqb_neq in Hk. rewrite Hk.
      now destruct (RunLogStore.readRun k s) as [[? ?]|].
Qed.

Lemma updateSummary_readRun_witness :
  let s := snd (RunLogStore.createRun "t0" "a" "1" "first" 2 None RunLogStore.empty) in
  let patch := RunLogStore.mkPatch None None (Some "t9") (Some "second") None None None
                                   (Some 1) (Some None) in
  exists previous entries next,
    RunLogStore.readRun "run_a_1" s = Some (previous, entries)
    /\ RunLogStore.readRun "run_a_1"
         (match RunLogStore.updateSummary "t1" "run_a_1" patch s with
          | Some s' => s'
          | None => s
          end)
       = Some (next, entries)
    /\ RunLogStore.rs_updatedAt next = "t1"
    /\ RunLogStore.rs_topic next = "second"
    /\ RunLogStore.rs_maxRounds next = 2
    /\ RunLogStore.rs_round next = 1.
Proof.
  intros s patch.
  destruct (RunLogStore.updateSummary "t1" "run_a_1" patch s) as [s'|] eqn:Hu;
    [|vm_compute in Hu; discriminate Hu].
  destruct (proj1 (proj2 (updateSummary_readRun "t1" "run_a_1" patch s) s' Hu))
    as (previous & entries & next & H1 & H2 & H3 & _ & _ & H6 & H7 & _ & _ & H10 & _).
  exists previous, entries, next.
  split; [exact H1|]. split; [exact H2|]. split; [exact H3|].
  assert (Hp : previous = fst (RunLogStore.createRun "t0" "a" "1" "first" 2 None
                                                     RunLogStore.empty)).
  { vm_compute in H1. injection H1 as <- _. reflexivity. }
  rewrite H6, H7, H10, Hp. repeat split.
Defined.

Lemma readRun_applyOp (rid : string) (op : StoreOp) (s : RunLogStore.t)
      (summary : RunLogStore.RunSummary) (entries : list TranscriptEntry) :
  RunLogStore.readRun rid s = Some (summary, entries) ->
  exists summary',
    RunLogStore.readRun rid (applyOp s op)
    = Some (summary', (entries ++ appended rid [op])%list)
    /\ (opKeepsRun op ->
        RunLogStore.rs_runId summary' = RunLogStore.rs_runId summary
        /\ RunLogStore.rs_createdAt summary' = RunLogStore.rs_createdAt summary
        /\ RunLogStore.rs_topic summary' = RunLogStore.rs_topic summary
        /\ RunLogStore.rs_maxRounds summary' = RunLogStore.rs_maxRounds summary).
Proof.
  intros H. destruct op as [entry | now k patch]; cbn [applyOp appended opKeepsRun].
  - rewrite readRun_append, H. exists summary.
    destruct (String.eqb rid (te_runId entry)); [|rewrite app_nil_r]; now repeat split.
  - rewrite app_nil_r.
    destruct (RunLogStore.updateSummary now k patch s) as [s'|] eqn:Hu.
    + rewrite (readRun_updateSummary rid now k patch s s' Hu), H.
      destruct (String.eqb rid k); eexists; (split; [reflexivity|]);
        [|now repeat split].
      intros (K1 & K2 & K3 & K4). cbn [RunLogStore.applyPatch RunLogStore.rs_runId
        RunLogStore.rs_createdAt RunLogStore.rs_topic RunLogStore.rs_maxRounds].
      rewrite K1, K2, K3, K4. now repeat split.
    + exists summary. now repeat split.
Qed.

Lemma appended_app (rid : string) (a b : list StoreOp) :
  appended rid (a ++ b) = (appended rid a ++ appended rid b)%list.
Proof.
  induction a as [|[entry|now k patch] a IH]; cbn [app appended]; [reflexivity| |exact IH].
  destruct (String.eqb rid (te_runId entry)); [cbn [app]|]; now rewrite IH.
Qed.

(** X7.  The log of a run that [readRun] can read grows by exactly the
    entries appended for it, in the order of the appends, whatever is
    appended for other runs and whatever summaries are updated meanwhile,
    with any patches; and when the patches of the updates hold neither the
    run id, the creation time, the topic nor the number of rounds (as those
    of the engine), the run keeps these four. *)
Theorem readRun_appended (rid : string) (ops : list StoreOp) :
  forall (s : RunLogStore.t) (summary : RunLogStore.RunSummary)
         (entries : list TranscriptEntry),
    RunLogStore.readRun rid s = Some (summary, entries) ->
    exists summary',
      RunLogStore.readRun rid (fold_left applyOp ops s)
      = Some (summary', (entries ++ appended rid ops)%list)
      /\ (Forall opKeepsRun ops ->
          RunLogStore.rs_runId summary' = RunLogStore.rs_runId summary
          /\ RunLogStore.rs_createdAt summary' = RunLogStore.rs_createdAt summary
          /\ RunLogStore.rs_topic summary' = RunLogStore.rs_topic summary
          /\ RunLogStore.rs_maxRounds summary' = RunLogStore.rs_maxRounds summary).
Proof.
  induction ops as [|op ops IH]; intros s summary entries H.
  - exists summary. cbn [fold_left appended]. rewrite app_nil_r. now repeat split.
  - destruct (readRun_applyOp rid op s summary entries H) as (summary1 & H1 & E).
    destruct (IH _ _ _ H1) as (summary2 & H2 & F).
    exists summary2. cbn [fold_left].
    change (op :: ops) with ([op] ++ ops)%list.
    rewrite appended_app, app_assoc.
    split; [exact H2|]. intros Hall. inversion Hall as [|? ? Hop Hops]; subst.
    destruct (E Hop) as (E1 & E2 & E3 & E4). destruct (F Hops) as (F1 & F2 & F3 & F4).
    repeat split; congruence.
Qed.

Lemma readRun_appended_witness :
  let created := RunLogStore.createRun "t0" "a" "1" "first" 2 None RunLogStore.empty in
  let e1 := mkEntry "run_a_1" "t1" 1 codex gemini "p1" "r1" "r1" "" in
  let other := mkEntry "run_b_2" "t2" 1 codex gemini "q" "x" "x" "" in
  let e2 := mkEntry "run_a_1" "t3" 1 gemini codex "p2" "r2" "r2" "" in
  let ops := [OpAppend e1; OpAppend other;
              OpUpdate "t2" "run_a_1"
                       (RunLogStore.mkPatch (Some "run_x") None None (Some "other topic")
                                            None None None (Some 1) None);
              OpAppend e2] in
  exists summary',
    RunLogStore.readRun "run_a_1" (fold_left applyOp ops (snd created))
    = Some (summary', ([] ++ appended "run_a_1" ops)%list)
    /\ (Forall opKeepsRun ops ->
        RunLogStore.rs_runId summary' = RunLogStore.rs_runId (fst created)
        /\ RunLogStore.rs_createdAt summary' = RunLogStore.rs_createdAt (fst created)
        /\ RunLogStore.rs_topic summary' = RunLogStore.rs_topic (fst created)
        /\ RunLogStore.rs_maxRounds summary' = RunLogStore.rs_maxRounds (fst created)).
Proof.
  intros created e1 other e2 ops.
  refine (readRun_appended "run_a_1" ops (snd created) (fst created) [] _).
  vm_compute. reflexivity.
Defined.

(** ** Properties kept by every step of the engine

    A property of the state that the primitive updates keep is kept by every
    job: each function of the engine is a composition of these updates. *)

Section Frame.

Variable config : RuntimeConfig.
Variable P : DebateEngine -> Prop.

Hypothesis P_loop : forall v e, P e -> P (set_loop v e).
Hypothesis P_control : forall v e, P e -> P (set_control v e).
Hypothesis P_counter : forall v e, P e -> P (set_consecutiveEmptyResponses v e).
Hypothesis P_created :
  forall now stamp suffix topic0 rounds limit e, P e ->
    P (set_runLogStore
         (snd (RunLogStore.createRun now stamp suffix topic0 rounds limit (runLogStore e))) e).
Hypothesis P_appended :
  forall entry e, P e -> P (set_runLogStore (RunLogStore.append entry (runLogStore e)) e).
Hypothesis P_updated :
  forall now rid patch store e, keepsRun patch -> P e ->
    RunLogStore.updateSummary now rid patch (runLogStore e) = Some store ->
    P (set_runLogStore store e).
Hypothesis P_currentRun : forall v e, P e -> P (set_currentRun v e).
Hypothesis P_pending : forall v e, P e -> P (set_pending v e).
Hypothesis P_calls : forall v e, P e -> P (set_calls v e).
Hypothesis P_cancels : forall v e, P e -> P (set_cancels v e).
Hypothesis P_pauseWait : forall v e, P e -> P (set_pauseWait v e).
Hypothesis P_executionPromise : forall v e, P e -> P (set_executionPromise v e).
Hypothesis P_clock : forall v e, P e -> P (set_clock v e).
Hypothesis P_panel : forall p line e, P e -> P (panelOutput p line e).
Hypothesis P_lines : forall p lines e, P e -> P (emitLines p lines e).
Hypothesis P_turn_log : forall entry e, P e -> P (emit (turn_log entry) e).
Hypothesis P_error : forall c m d e, P e -> P (emit (error_event c m d) e).
Hypothesis P_connecting :
  forall a e, P e -> P (setAgentStatus a agent_connecting None None e).
Hypothesis P_failed :
  forall a m e, P e -> P (setAgentStatus a agent_error None (Some m) e).
Hypothesis P_ready :
  forall a sid e, truthy sid = true -> P e ->
    P (setAgentStatus a agent_ready (Some sid) None
         (set_sessionStore (SessionStore.upsert (clock e) a sid (sessionStore e)) e)).
Hypothesis P_status : forall st rsn e, P e -> P (setDebateStatus st rsn e).
Hypothesis P_round :
  forall rnd e, P e ->
    P (setDebateStatus (status (debate e)) (reason (debate e))
         (set_debate (withRound rnd (debate e)) e)).
Hypothesis P_begin :
  forall rid topic0 rounds e, rid <> "" -> topic0 <> "" -> P e ->
    P (setDebateStatus running None
         (set_debate {| status := running; runId := rid; round := 0; topic := topic0;
                        maxRounds := rounds; reason := None |} e)).

Ltac walk :=
  repeat first
    [ assumption
    | apply P_loop | apply P_control | apply P_counter | apply P_appended
    | apply P_currentRun | apply P_pending | apply P_calls | apply P_cancels
    | apply P_pauseWait | apply P_executionPromise | apply P_clock
    | apply P_panel | apply P_lines | apply P_turn_log | apply P_error
    | apply P_connecting | apply P_failed
    | apply P_round
    | apply P_status
    | match goal with
      | |- P (if ?c then _ else _) => destruct c
      | |- P (match ?x with Some _ => _ | None => _ end) => destruct x
      end ].

Lemma F_runAgent options awaiter e : P e -> P (runAgent options awaiter e).
Proof. intros H. unfold runAgent. walk. Qed.

Lemma F_finally st rsn e : P e -> P (runLoop_finally st rsn e).
Proof.
  intros H. unfold runLoop_finally. cbv zeta. apply P_loop.
  match goal with
  | |- P (match currentRun ?x with _ => _ end) =>
      assert (H1 : P x) by walk; destruct (currentRun x) as [run|]; [|exact H1];
      destruct (RunLogStore.updateSummary _ _ _ _) as [store|] eqn:E; [|exact H1];
      refine (P_updated _ _ _ _ _ _ H1 E); now repeat split
  end.
Qed.

Lemma F_catch message e : P e -> P (runLoop_catch message e).
Proof. intros H. unfold runLoop_catch. cbv zeta. apply F_finally. walk. Qed.

Lemma F_after st rsn e : P e -> P (runLoop_after st rsn e).
Proof. intros H. unfold runLoop_after. cbv zeta. now apply F_finally. Qed.

Lemma F_invokeTurn from to rnd prompt e e' :
  P e -> invokeTurn config from to rnd prompt e = inl e' -> P e'.
Proof.
  intros H. unfold invokeTurn. cbv zeta.
  destruct (negb (truthy (runId (debate e)))); [discriminate|].
  intros [= <-]. apply F_runAgent. walk.
Qed.

Lemma F_invokeTurn_resume from to rnd prompt rid result e :
  P e -> P (fst (invokeTurn_resume from to rnd prompt rid result e)).
Proof.
  intros H. unfold invokeTurn_resume. cbv zeta.
  match goal with
  | |- context [if ?c then setAgentStatus ?a ?s ?i ?er ?x else e] =>
      set (e1 := if c then setAgentStatus a s i er x else e);
      assert (H1 : P e1)
        by (subst e1; destruct c eqn:E;
            [apply andb_true_iff in E; destruct E as [E _]; now apply P_ready | exact H])
  end.
  clearbody e1. clear H.
  match goal with
  | |- context [if ?c then set_consecutiveEmptyResponses ?a e1
                else set_consecutiveEmptyResponses 0 e1] =>
      set (e2 := if c then set_consecutiveEmptyResponses a e1
                 else set_consecutiveEmptyResponses 0 e1);
      assert (H2 : P e2) by (subst e2; walk)
  end.
  clearbody e2. clear H1.
  destruct (negb (truthy (trim (res_text result))) && _); [exact H2|].
  destruct (RunLogStore.updateSummary _ _ _ _) as [store|] eqn:E; cbn [fst]; [|walk].
  apply P_panel, P_turn_log.
  refine (P_updated _ _ _ _ _ _ _ E); [now repeat split | walk].
Qed.

Lemma F_head rnd latestGemini e : P e -> P (runLoop_head config rnd latestGemini e).
Proof.
  intros H. unfold runLoop_head. cbv zeta.
  destruct (rnd <=? maxRounds (debate e)); [|now apply F_after].
  destruct (stopRequested (control e)); [now apply F_after|].
  match goal with
  | |- P (match invokeTurn ?c ?f ?t ?r ?p ?x with _ => _ end) =>
      assert (H1 : P x) by exact (P_round rnd e H);
      destruct (invokeTurn c f t r p x) as [e'|m] eqn:E
  end.
  - apply P_loop. exact (F_invokeTurn _ _ _ _ _ _ H1 E).
  - now apply F_catch.
Qed.

Lemma F_runLoop e : P e -> P (runLoop config e).
Proof.
  intros H. unfold runLoop. destruct (currentRun e); [now apply F_head | now apply P_loop].
Qed.

Lemma F_afterCodex rnd codexTurn e : P e -> P (runLoop_afterCodex config rnd codexTurn e).
Proof.
  intros H. unfold runLoop_afterCodex.
  destruct (stopRequested (control e)); [now apply F_after|].
  destruct (invokeTurn _ _ _ _ _ e) as [e'|m] eqn:E.
  - apply P_loop. exact (F_invokeTurn _ _ _ _ _ _ H E).
  - now apply F_catch.
Qed.

Lemma F_afterGemini rnd codexTurn geminiTurn e :
  P e -> P (runLoop_afterGemini config rnd codexTurn geminiTurn e).
Proof.
  intros H. unfold runLoop_afterGemini. cbv zeta.
  destruct (stopRequested (control e)); [now apply F_after|].
  destruct (_ || _); [apply F_after; walk|].
  destruct (pauseRequested (control e)); [|now apply F_head].
  unfold waitUntilResumedOrStopped.
  destruct (stopRequested _); [walk|].
  destruct (negb _); walk.
Qed.

Lemma F_afterWait rnd latestGemini e :
  P e -> P (runLoop_afterWait config rnd latestGemini e).
Proof.
  intros H. unfold runLoop_afterWait.
  destruct (stopRequested (control e)); [now apply F_after | now apply F_head].
Qed.

Lemma F_turnSettled from to rnd prompt rid outcome e :
  P e -> P (fst (turnSettled config from to rnd prompt rid outcome e)).
Proof.
  intros H. unfold turnSettled.
  destruct (loop e) as [|r x| |]; try exact H.
  destruct outcome as [result|message]; [|now apply F_catch].
  pose proof (F_invokeTurn_resume from to rnd prompt rid result e H) as H1.
  destruct (invokeTurn_resume from to rnd prompt rid result e) as [e1 [m|]]; cbn [fst] in *.
  - now apply F_catch.
  - destruct x; [now apply F_afterGemini | now apply F_afterCodex].
Qed.

Lemma F_connectAgent agent resumeSessionId e :
  P e -> P (fst (connectAgent config agent resumeSessionId e)).
Proof.
  intros H. unfold connectAgent. cbv zeta.
  destruct (status (debate e)); cbn [fst]; try exact H; apply F_runAgent; walk.
Qed.

Lemma F_connectAgent_resume agent outcome e :
  P e -> P (fst (connectAgent_resume agent outcome e)).
Proof.
  intros H. unfold connectAgent_resume, connectFailed. cbv zeta.
  destruct outcome as [result|message]; cbn [fst]; [|walk].
  destruct (negb (truthy (res_sessionId result))) eqn:E; cbn [fst]; [walk|].
  apply P_panel, P_ready; [|exact H].
  now apply negb_false_iff in E.
Qed.

Lemma F_startDebate topic0 maxRounds0 stamp suffix e :
  P e -> P (fst (startDebate config topic0 maxRounds0 stamp suffix e)).
Proof.
  intros H. unfold startDebate. cbv zeta.
  destruct (negb (truthy (trim topic0))) eqn:Et; [exact H|].
  destruct (executionPromise e); [exact H|].
  destruct (_ || _); [exact H|].
  unfold RunLogStore.createRun. cbv zeta. cbn [fst].
  apply P_executionPromise, F_runLoop, P_panel.
  cbn [RunLogStore.rs_runId].
  match goal with
  | |- P (setDebateStatus running None (set_debate ?d ?x)) =>
      apply (P_begin (RunLogStore.makeRunId stamp suffix) (trim topic0) _ x)
  end.
  - discriminate.
  - apply negb_false_iff in Et. now destruct (trim topic0).
  - apply P_currentRun.
    match goal with
    | |- P (set_runLogStore ?s ?x) =>
        exact (P_created (clock x) stamp suffix (trim topic0)
                 (match maxRounds0 with Some n => n | None => defaultMaxRounds config end)
                 None x ltac:(walk))
    end.
Qed.

Lemma F_releasePauseWait e : P e -> P (releasePauseWait e).
Proof.
  intros H. unfold releasePauseWait.
  destruct (pauseWait e); [|exact H]. destruct (loop e); walk.
Qed.

Lemma F_exec l e : P e -> P (fst (exec config l e)).
Proof.
  intros H. destruct l as [agent resume | topic0 mr stamp suffix | | | | k outcome
                          | k line | k line | | | now]; cbn [exec].
  - now apply F_connectAgent.
  - now apply F_startDebate.
  - unfold pauseDebate. cbv zeta. destruct (negb _); cbn [fst]; walk.
  - unfold resumeDebate. cbv zeta. destruct (negb _); cbn [fst]; [exact H|].
    apply F_releasePauseWait. walk.
  - unfold stopDebate. cbv zeta.
    destruct (status (debate e)); cbn [fst]; try exact H; apply F_releasePauseWait; walk.
  - destruct (nth_error (pending e) k) as [call|]; [|exact H].
    destruct (pc_awaiter call) as [agent|from to rnd prompt rid].
    + apply F_connectAgent_resume. walk.
    + destruct (loop e); try exact H. apply F_turnSettled. walk.
  - destruct (nth_error (pending e) k); cbn [fst]; walk.
  - destruct (nth_error (pending e) k); cbn [fst]; walk.
  - destruct (loop e) as [| |r g [|]|]; cbn [fst]; try exact H. now apply F_afterWait.
  - destruct (loop e); cbn [fst]; walk.
  - cbn [fst]. walk.
Qed.

Lemma F_run ls : forall e, P e -> P (run config ls e).
Proof.
  induction ls as [|l ls IH]; intros e H; [exact H|].
  cbn [run]. now apply IH, F_exec.
Qed.

Lemma F_reachable persisted e :
  P (initial config persisted) -> reachable config persisted e -> P e.
Proof. intros H0. induction 1 as [|e l _ IH]; [exact H0 | now apply F_exec]. Qed.

End Frame.

(** ** The page mirrors the engine (state.ts, App.tsx, debate-engine.ts) *)

Lemma page_emit ui0 event e :
  page ui0 (emit event e) = Ui.onEvent (page ui0 e) event.
Proof. unfold page, emit. proj. now rewrite fold_left_app. Qed.

Lemma mirrors_same ui ui' e e' :
  Ui.agents ui' = Ui.agents ui -> Ui.debate ui' = Ui.debate ui ->
  agents e' = agents e -> debate e' = debate e ->
  mirrors ui e -> mirrors ui' e'.
Proof. unfold mirrors. now intros -> -> -> ->. Qed.

Lemma page_emitLines ui0 p lines e :
  Ui.agents (page ui0 (emitLines p lines e)) = Ui.agents (page ui0 e)
  /\ Ui.debate (page ui0 (emitLines p lines e)) = Ui.debate (page ui0 e).
Proof.
  unfold page, emitLines. proj. rewrite fold_left_app.
  generalize (fold_left Ui.onEvent (emitted e) ui0) as ui.
  induction lines as [|line lines IH]; intros ui; [now split|].
  cbn [map fold_left]. destruct (IH (Ui.onEvent ui (panel_output p line))) as [-> ->].
  now split.
Qed.

Lemma orKeep_nonEmpty (shown actual : string) :
  shown = actual -> Ui.orKeep (nonEmpty actual) shown = actual.
Proof. intros ->. now destruct actual. Qed.

Lemma orKeep_nonZero (shown actual : Z) :
  shown = actual \/ actual = 0 ->
  Ui.orKeep (nonZero actual) shown = actual \/ actual = 0.
Proof.
  unfold nonZero. destruct (actual =? 0) eqn:E.
  - right. now apply Z.eqb_eq.
  - now left.
Qed.

Lemma mirrors_setDebateStatus ui0 st rsn e d :
  (runId d <> "" \/ runId d = runId (debate e)) ->
  (topic d <> "" \/ topic d = topic (debate e)) ->
  mirrors (page ui0 e) e ->
  mirrors (page ui0 (setDebateStatus st rsn (set_debate d e)))
          (setDebateStatus st rsn (set_debate d e)).
Proof.
  intros Hid Htopic (Hg & Hc & Hs & Hr & Hi & Ht & Hn & Hm).
  unfold setDebateStatus. cbv zeta. rewrite page_emit.
  unfold mirrors, emit. proj. cbn [Ui.onEvent Ui.actionOf Ui.uiReducer Ui.agents Ui.debate].
  split; [exact Hg|]. split; [exact Hc|].
  unfold debateShown.
  cbn [Ui.ud_status Ui.ud_reason Ui.ud_runId Ui.ud_topic Ui.ud_round Ui.ud_maxRounds
       status reason runId topic round maxRounds].
  unfold page. proj. fold (page ui0 e).
  split; [reflexivity|]. split; [reflexivity|]. split; [|split; [|split]].
  - destruct Hid as [Hid | Hid].
    + unfold nonEmpty. destruct (runId d); [now elim Hid | reflexivity].
    + apply orKeep_nonEmpty. congruence.
  - destruct Htopic as [Htopic | Htopic].
    + unfold nonEmpty. destruct (topic d); [now elim Htopic | reflexivity].
    + apply orKeep_nonEmpty. congruence.
  - unfold nonZero. destruct (round d =? 0) eqn:E; [right; now apply Z.eqb_eq | now left].
  - unfold nonZero. destruct (maxRounds d =? 0) eqn:E; [right; now apply Z.eqb_eq | now left].
Qed.

Lemma set_debate_same e : set_debate (debate e) e = e.
Proof. now destruct e. Qed.

Lemma mirrors_setAgentStatus ui0 a st sid err e :
  mirrors (page ui0 e) e ->
  mirrors (page ui0 (setAgentStatus a st sid err e)) (setAgentStatus a st sid err e).
Proof.
  intros (Hg & Hc & Hd).
  unfold setAgentStatus. cbv zeta. rewrite page_emit.
  unfold mirrors, emit. proj.
  cbn [Ui.onEvent Ui.actionOf Ui.uiReducer Ui.agents Ui.debate].
  unfold page. proj. fold (page ui0 e).
  split; [|split; [|exact Hd]].
  - destruct a; cbn [Ui.setAgentState Ui.ui_gemini setAgent ag_gemini agentOf Ui.agentState];
      [|exact Hg].
    destruct Hg as (H1 & H2 & H3). unfold agentShown.
    cbn [Ui.ua_status Ui.ua_sessionId Ui.ua_error as_status as_sessionId as_lastError].
    split; [reflexivity|]. split; [|reflexivity].
    destruct sid as [s|]; cbn [truthyOpt orEmpty].
    + destruct s; cbn [truthy nonEmpty Ui.orKeep]; [exact H2 | reflexivity].
    + now apply orKeep_nonEmpty.
  - destruct a; cbn [Ui.setAgentState Ui.ui_codex setAgent ag_codex agentOf Ui.agentState];
      [exact Hc|].
    destruct Hc as (H1 & H2 & H3). unfold agentShown.
    cbn [Ui.ua_status Ui.ua_sessionId Ui.ua_error as_status as_sessionId as_lastError].
    split; [reflexivity|]. split; [|reflexivity].
    destruct sid as [s|]; cbn [truthyOpt orEmpty].
    + destruct s; cbn [truthy nonEmpty Ui.orKeep]; [exact H2 | reflexivity].
    + now apply orKeep_nonEmpty.
Qed.

Ltac mirrors_frame :=
  intros; eapply mirrors_same; [| | | |eassumption]; reflexivity.

Lemma mirrors_exec config ui0 l e :
  mirrors (page ui0 e) e ->
  mirrors (page ui0 (fst (exec config l e))) (fst (exec config l e)).
Proof.
  apply (F_exec config (fun e => mirrors (page ui0 e) e)); try mirrors_frame.
  - intros p line e0 H. unfold panelOutput. rewrite page_emit.
    eapply mirrors_same; [| | | |exact H]; reflexivity.
  - intros p lines e0 H. destruct (page_emitLines ui0 p lines e0) as [Ha Hd].
    eapply mirrors_same; [exact Ha | exact Hd | | |exact H]; reflexivity.
  - intros entry e0 H. rewrite page_emit.
    eapply mirrors_same; [| | | |exact H]; reflexivity.
  - intros c m d e0 H. rewrite page_emit.
    eapply mirrors_same; [| | | |exact H]; reflexivity.
  - intros a e0 H. now apply mirrors_setAgentStatus.
  - intros a m e0 H. now apply mirrors_setAgentStatus.
  - intros a sid e0 _ H. apply mirrors_setAgentStatus.
    eapply mirrors_same; [| | | |exact H]; reflexivity.
  - intros st rsn e0 H. rewrite <- (set_debate_same e0) at 1 2.
    apply mirrors_setDebateStatus; auto.
  - intros rnd e0 H. apply mirrors_setDebateStatus; auto.
  - intros rid topic0 rounds e0 Hid Ht H. apply mirrors_setDebateStatus; auto.
Qed.

(** X8.  A page that loads the state of the engine and then receives its
    events shows, after any jobs of the engine, the agents as the engine has
    them (status, session id, error), and the status, the reason, the run id
    and the topic of the debate as the engine has them; it shows the round
    and the number of rounds of the engine unless these are 0 in the engine,
    the events leaving out a number that is 0. *)
Theorem page_mirrors_engine (config : RuntimeConfig) (e0 : DebateEngine) (ls : list Label) :
  let ui0 := Ui.applyServerState (debate e0) (agents e0) Ui.initialUiState in
  let e := run config ls (listening e0) in
  mirrors ui0 e0
  /\ Ui.ud_round (Ui.debate ui0) = round (debate e0)
  /\ Ui.ud_maxRounds (Ui.debate ui0) = maxRounds (debate e0)
  /\ mirrors (fold_left Ui.onEvent (emitted e) ui0) e.
Proof.
  intros ui0 e.
  assert (H0 : mirrors ui0 e0).
  { unfold mirrors, agentShown, debateShown. subst ui0. cbn. tauto. }
  split; [exact H0|]. split; [reflexivity|]. split; [reflexivity|].
  change (mirrors (page ui0 e) e). subst e.
  assert (H : mirrors (page ui0 (listening e0)) (listening e0)) by exact H0.
  revert H. generalize (listening e0). clear H0.
  induction ls as [|l ls IH]; intros e H; [exact H|].
  cbn [run]. now apply IH, mirrors_exec.
Qed.

(** ** The session ids (debate-engine.ts, session-store.ts) *)

Lemma sessionsKept_same e e' :
  agents e' = agents e -> sessionStore e' = sessionStore e ->
  sessionsKept e -> sessionsKept e'.
Proof. unfold sessionsKept. now intros -> ->. Qed.

Lemma agents_setAgentStatus a st sid err e :
  agents (setAgentStatus a st sid err e)
  = setAgent a {| as_agent := as_agent (agentOf (agents e) a);
                  as_sessionId := if truthyOpt sid then orEmpty sid
                                  else as_sessionId (agentOf (agents e) a);
                  as_status := st;
                  as_lastConnectedAt := if truthyOpt sid then clock e
                                        else as_lastConnectedAt (agentOf (agents e) a);
                  as_lastError := err |} (agents e)
  /\ sessionStore (setAgentStatus a st sid err e) = sessionStore e.
Proof. now split. Qed.

Lemma sessionsKept_unready a st err e :
  st <> agent_ready -> sessionsKept e -> sessionsKept (setAgentStatus a st None err e).
Proof.
  intros Hst H b. destruct (agents_setAgentStatus a st None err e) as [-> ->].
  destruct (H b) as [H1 H2]. cbn [truthyOpt].
  destruct a, b; cbn [setAgent agentOf ag_gemini ag_codex as_sessionId as_status] in *;
    (split; [assumption|]); try assumption; intros E; now elim Hst.
Qed.

Lemma sessionsKept_ready a sid e :
  truthy sid = true -> sessionsKept e ->
  sessionsKept (setAgentStatus a agent_ready (Some sid) None
                  (set_sessionStore (SessionStore.upsert (clock e) a sid (sessionStore e)) e)).
Proof.
  intros Hsid H b.
  destruct (agents_setAgentStatus a agent_ready (Some sid) None
              (set_sessionStore (SessionStore.upsert (clock e) a sid (sessionStore e)) e))
    as [-> ->].
  destruct (H b) as [H1 H2]. cbn [truthyOpt orEmpty]. rewrite Hsid. proj.
  unfold SessionStore.upsert.
  destruct a, b;
    cbn [setAgent agentOf ag_gemini ag_codex as_sessionId as_status sessionIdOf
         SessionStore.sf_gemini SessionStore.sf_codex] in *;
    (split; [assumption || reflexivity|]); try assumption;
    intros _ ->; discriminate Hsid.
Qed.

Ltac sessions_frame :=
  intros; eapply sessionsKept_same; [| |eassumption]; reflexivity.

Lemma sessionsKept_exec config l e :
  sessionsKept e -> sessionsKept (fst (exec config l e)).
Proof.
  apply (F_exec config sessionsKept); try sessions_frame.
  - intros a e0 H. now apply sessionsKept_unready.
  - intros a m e0 H. now apply sessionsKept_unready.
  - intros a sid e0 Hs H. now apply sessionsKept_ready.
Qed.

(** A session id that an agent has is replaced, never removed. *)
Lemma sessionId_stays config a l e :
  as_sessionId (agentOf (agents e) a) <> "" ->
  as_sessionId (agentOf (agents (fst (exec config l e))) a) <> "".
Proof.
  apply (F_exec config (fun e => as_sessionId (agentOf (agents e) a) <> ""));
    try (intros; assumption).
  - intros b e0 H. destruct a, b; exact H.
  - intros b m e0 H. destruct a, b; exact H.
  - intros b sid e0 Hs H.
    destruct (agents_setAgentStatus b agent_ready (Some sid) None
                (set_sessionStore (SessionStore.upsert (clock e0) b sid (sessionStore e0)) e0))
      as [-> _].
    cbn [truthyOpt orEmpty]. rewrite Hs. proj.
    destruct a, b; cbn [setAgent agentOf ag_gemini ag_codex as_sessionId]; try exact H;
      intros ->; discriminate Hs.
Qed.

(** X9.  In every state the engine reaches, the session file holds, for each
    agent, the session id the state shows, and an agent that is ready has a
    session id; and a session id that an agent has is never removed by a job,
    only replaced by another one. *)
Theorem session_ids_kept (config : RuntimeConfig)
        (persisted : SessionStore.SessionFileData) (e : DebateEngine) :
  reachable config persisted e ->
  sessionsKept e
  /\ forall ls agent,
       as_sessionId (agentOf (agents e) agent) <> "" ->
       as_sessionId (agentOf (agents (run config ls e)) agent) <> "".
Proof.
  intros Hreach. split.
  - induction Hreach as [|e l _ IH]; [|now apply sessionsKept_exec].
    intros [|]; cbn; split; (reflexivity || discriminate).
  - clear Hreach. intros ls agent. revert e.
    induction ls as [|l ls IH]; intros e H; [exact H|].
    cbn [run]. now apply IH, sessionId_stays.
Qed.

Lemma session_ids_kept_witness : sessionsKept pausedAfterRound1.
Proof.
  refine (proj1 (session_ids_kept testConfig SessionStore.empty pausedAfterRound1 _)).
  apply reachable_run, reachable_inRound1.
Defined.

(** ** The status and the loop *)

Ltac field_frame :=
  intros; unfold panelOutput, emitLines, setDebateStatus, setAgentStatus, emit; proj;
  assumption.

Section WaitFrame.

Variable config : RuntimeConfig.

Lemma wait_after st rsn e : pauseWait (runLoop_after st rsn e) = pauseWait e.
Proof. apply F_after with (P := fun e' => pauseWait e' = pauseWait e); field_frame || reflexivity. Qed.

Lemma wait_catch message e : pauseWait (runLoop_catch message e) = pauseWait e.
Proof. apply F_catch with (P := fun e' => pauseWait e' = pauseWait e); field_frame || reflexivity. Qed.

Lemma wait_head rnd latestGemini e :
  pauseWait (runLoop_head config rnd latestGemini e) = pauseWait e.
Proof.
  apply F_head with (P := fun e' => pauseWait e' = pauseWait e); field_frame || reflexivity.
Qed.

Lemma wait_afterCodex rnd codexTurn e :
  pauseWait (runLoop_afterCodex config rnd codexTurn e) = pauseWait e.
Proof.
  apply F_afterCodex with (P := fun e' => pauseWait e' = pauseWait e);
    field_frame || reflexivity.
Qed.

Lemma wait_afterWait rnd latestGemini e :
  pauseWait (runLoop_afterWait config rnd latestGemini e) = pauseWait e.
Proof.
  apply F_afterWait with (P := fun e' => pauseWait e' = pauseWait e);
    field_frame || reflexivity.
Qed.

Lemma wait_invokeTurn_resume from to rnd prompt rid result e :
  pauseWait (fst (invokeTurn_resume from to rnd prompt rid result e)) = pauseWait e.
Proof.
  apply F_invokeTurn_resume with (P := fun e' => pauseWait e' = pauseWait e);
    field_frame || reflexivity.
Qed.

Lemma wait_connectAgent agent resumeSessionId e :
  pauseWait (fst (connectAgent config agent resumeSessionId e)) = pauseWait e.
Proof.
  apply F_connectAgent with (P := fun e' => pauseWait e' = pauseWait e);
    field_frame || reflexivity.
Qed.

Lemma wait_connectAgent_resume agent outcome e :
  pauseWait (fst (connectAgent_resume agent outcome e)) = pauseWait e.
Proof.
  apply F_connectAgent_resume with (P := fun e' => pauseWait e' = pauseWait e);
    field_frame || reflexivity.
Qed.

Lemma wait_startDebate topic0 maxRounds0 stamp suffix e :
  pauseWait (fst (startDebate config topic0 maxRounds0 stamp suffix e)) = pauseWait e.
Proof.
  apply F_startDebate with (P := fun e' => pauseWait e' = pauseWait e);
    field_frame || reflexivity.
Qed.

Lemma wait_release e : pauseWait (releasePauseWait e) = false.
Proof.
  unfold releasePauseWait. destruct (pauseWait e) eqn:E; [|exact E].
  now destruct (loop e).
Qed.

End WaitFrame.

Ltac core_fields H :=
  let Kd := fresh "Kd" in let Kl := fresh "Kl" in let Kp := fresh "Kp" in
  let Kc := fresh "Kc" in let Kx := fresh "Kx" in let Kt := fresh "Kt" in
  let Kn := fresh "Kn" in
  pose proof (f_equal k_debate H) as Kd; pose proof (f_equal k_loop H) as Kl;
  pose proof (f_equal k_pending H) as Kp; pose proof (f_equal k_calls H) as Kc;
  pose proof (f_equal k_executionPromise H) as Kx;
  pose proof (f_equal k_control H) as Kt; pose proof (f_equal k_counter H) as Kn;
  cbn [core k_debate k_loop k_pending k_calls k_executionPromise k_control k_counter]
    in Kd, Kl, Kp, Kc, Kx, Kt, Kn.

Ltac coh :=
  unfold CohCore, endCore, awaitCore, releasedLoop, waits, ended;
  cbn [core withStatus withRound k_debate k_loop k_pending k_calls k_executionPromise
       k_control k_counter status round maxRounds pauseRequested stopRequested flagsFor].

Section Coherence.

Variable config : RuntimeConfig.

Lemma CohCore_end st rsn e wait :
  ended st -> wait = false ->
  (round (debate e) = 0 \/ 1 <= round (debate e) <= maxRounds (debate e)) ->
  CohCore (endCore st rsn e) wait.
Proof. intros Hst -> Hr. coh. repeat split; auto. Qed.

Lemma CohCore_head rnd latestGemini e wait :
  wait = false -> 1 <= rnd ->
  (round (debate e) = 0 \/ 1 <= round (debate e) <= maxRounds (debate e)) ->
  flagsFor (status (debate e)) (control e) ->
  CohCore (headCore config rnd latestGemini e) wait.
Proof.
  intros -> Hr Hround Hf. unfold headCore.
  destruct (rnd <=? maxRounds (debate e)) eqn:Hm.
  - destruct (stopRequested (control e)) eqn:Hs.
    + apply CohCore_end; auto. now left.
    + coh. apply Z.leb_le in Hm. repeat split; auto; right; lia.
  - apply CohCore_end; auto. now right.
Qed.

Lemma headCore_promise rnd latestGemini e :
  k_executionPromise (headCore config rnd latestGemini e) = executionPromise e.
Proof.
  unfold headCore.
  now destruct (rnd <=? maxRounds (debate e)); [destruct (stopRequested (control e))|].
Qed.

Lemma headCore_loop rnd latestGemini e :
  k_loop (headCore config rnd latestGemini e) <> LNone.
Proof.
  unfold headCore.
  destruct (rnd <=? maxRounds (debate e)); [destruct (stopRequested (control e))|];
    discriminate.
Qed.

Lemma CohCore_promise c wait b :
  k_loop c <> LNone -> CohCore c wait ->
  CohCore (mkCore (k_debate c) (k_loop c) (k_pending c) (k_calls c) b (k_control c)
                  (k_counter c)) wait.
Proof.
  intros Hl (H1 & H2 & H3). unfold CohCore.
  cbn [k_debate k_loop k_control k_executionPromise].
  split; [exact H1|]. split; [exact H2|].
  destruct (k_loop c); try exact H3. now elim Hl.
Qed.

Lemma wait_afterGemini rnd codexTurn geminiTurn e :
  truthy (runId (debate e)) = true ->
  pauseWait (runLoop_afterGemini config rnd codexTurn geminiTurn e)
  = if waits (loop (runLoop_afterGemini config rnd codexTurn geminiTurn e))
    then true else pauseWait e.
Proof.
  intros Hid.
  destruct (afterGemini_core config rnd codexTurn geminiTurn e Hid) as (Hc & _).
  pose proof (f_equal k_loop Hc) as Kl. cbn [core k_loop] in Kl. rewrite Kl. clear Kl Hc.
  unfold runLoop_afterGemini. cbv zeta.
  destruct (stopRequested (control e)) eqn:Hs; [apply wait_after|].
  destruct (_ || _); [cbn [endCore k_loop waits]; rewrite wait_after; field_frame || reflexivity|].
  destruct (pauseRequested (control e)).
  - cbn [k_loop waits]. unfold waitUntilResumedOrStopped, setDebateStatus, emit. proj.
    rewrite Hs. cbn [DebateStatus_eqb negb]. reflexivity.
  - rewrite wait_head.
    pose proof (headCore_loop (rnd + 1) (res_text geminiTurn) e) as Hn.
    unfold headCore in *.
    destruct (rnd + 1 <=? maxRounds (debate e)); [destruct (stopRequested (control e))|];
      reflexivity.
Qed.

Lemma Coherent_step l e : Inv e -> Coherent e -> Coherent (fst (exec config l e)).
Proof.
  intros HI HC.
  assert (Hid : loop e <> LNone -> runId (debate e) <> "").
  { destruct HI as [([H|[_ H]] & _) _]; [intros _; exact H | intros H'; now elim H']. }
  destruct (exec_core config l e Hid) as [Hc _].
  unfold Coherent. rewrite Hc. clear Hc.
  pose proof HI as [(H1 & H2 & H3) _].
  cbn [core k_debate k_loop k_pending k_executionPromise] in H1, H2, H3.
  pose proof HC as (C1 & C2 & C3).
  cbn [core k_debate k_loop k_control k_executionPromise] in C1, C2, C3.
  destruct l as [agent resume | topic0 mr stamp suffix | | | | k outcome
                | k line | k line | | | now]; cbn [exec step_core].
  - (* connectAgent *)
    rewrite wait_connectAgent.
    destruct (status (debate e)); exact HC.
  - (* startDebate *)
    rewrite wait_startDebate.
    destruct (startable topic0 e) eqn:Hs; [|exact HC].
    unfold startable in Hs. apply andb_true_iff in Hs. destruct Hs as [Hs _].
    apply andb_true_iff in Hs. destruct Hs as [Hs _].
    apply andb_true_iff in Hs. destruct Hs as [_ Hs]. apply negb_true_iff in Hs.
    assert (Hl : loop e = LNone).
    { destruct (loop e); try reflexivity; exfalso;
        (assert (executionPromise e = true) by (apply H2; discriminate)); congruence. }
    rewrite Hl in C1. cbn [waits] in C1.
    destruct (prepared_core config topic0 mr stamp suffix e) as (Hp & _).
    core_fields Hp.
    apply (CohCore_promise (headCore config 1 ""
                              (prepared config topic0 mr stamp suffix e)));
      [apply headCore_loop|].
    apply CohCore_head; [exact C1 | lia | rewrite Kd; now left
                         | rewrite Kd, Kt; cbn; now split].
  - (* pauseDebate *)
    unfold pauseDebate, setDebateStatus, emit. cbv zeta.
    destruct (DebateStatus_eqb (status (debate e)) running) eqn:Hs;
      cbn [negb fst]; proj; [|exact HC].
    apply DebateStatus_eqb_eq in Hs. coh.
    split; [exact C1|]. split; [exact C2|].
    rewrite Hs in C3.
    destruct (loop e) as [| | r g [|] |]; cbn [flagsFor ended] in C3 |- *.
    + destruct C3 as ([C|[C|C]] & _); discriminate C.
    + now destruct C3.
    + now destruct C3.
    + destruct C3 as (C & _). discriminate C.
    + destruct C3 as ([C|C] & _); discriminate C.
  - (* resumeDebate *)
    unfold resumeDebate. cbv zeta.
    destruct (DebateStatus_eqb (status (debate e)) paused) eqn:Hs;
      cbn [negb fst]; [|exact HC].
    apply DebateStatus_eqb_eq in Hs. rewrite wait_release. rewrite Hs in C3.
    destruct (loop e) as [| | r g [|] |]; cbn [flagsFor] in C3.
    + destruct C3 as ([C|[C|C]] & _); discriminate C.
    + now elim C3.
    + now elim C3.
    + destruct C3 as (_ & Cp & Cs). rewrite C1. coh.
      split; [reflexivity|]. split; [exact C2|]. now rewrite Cs.
    + destruct C3 as ([C|C] & _); discriminate C.
  - (* stopDebate *)
    unfold stopDebate. cbv zeta.
    destruct (status (debate e)) eqn:Hs; cbn [fst]; try exact HC.
    all: rewrite wait_release.
    all: destruct (loop e) as [| | r g [|] |]; cbn [flagsFor] in C3;
      try (destruct C3 as ([C|[C|C]] & _); discriminate C);
      try (destruct C3 as ([C|C] & _); discriminate C);
      try (destruct C3 as (C & _); discriminate C);
      try (now elim C3);
      rewrite C1; coh; (split; [reflexivity|]); (split; [exact C2|]); reflexivity.
  - (* a promise of runAgent settles *)
    destruct (nth_error (pending e) k) as [call|] eqn:Hk; [|exact HC].
    destruct (pc_awaiter call) as [agent | from to rnd prompt rid] eqn:Ha.
    + rewrite wait_connectAgent_resume. exact HC.
    + destruct (loop e) as [|r x|? ? ?|] eqn:Hl; try exact HC.
      destruct H3 as (Hr & Hround & _).
      assert (Hrid : truthy (runId (debate e)) = true).
      { destruct (runId (debate e)); [|reflexivity]. exfalso. apply Hid; [discriminate|reflexivity]. }
      cbn [waits] in C1.
      set (e0 := set_pending (removeNth k (pending e)) e).
      unfold turnSettled. change (loop e0) with (loop e). rewrite Hl.
      destruct outcome as [result|message].
      2:{ cbn [fst]. rewrite wait_catch. apply CohCore_end; auto. now left. }
      pose proof (wait_invokeTurn_resume from to rnd prompt rid result e0) as Hw.
      destruct (invokeTurn_resume_spec from to rnd prompt rid result e0) as (Hq & _).
      cbn zeta in Hq.
      remember (invokeTurn_resume from to rnd prompt rid result e0) as r1 eqn:Hr1.
      clear Hr1. destruct r1 as [e1 thrown]. cbn [fst snd] in *.
      core_fields Hq. subst e0.
      cbn [debate loop pending calls executionPromise control pauseWait set_pending] in *.
      assert (Hrid1 : truthy (runId (debate e1)) = true) by now rewrite Kd.
      destruct thrown as [message|].
      { cbn [fst]. rewrite wait_catch, Hw.
        apply CohCore_end; auto; [now left | now rewrite Kd]. }
      destruct x as [c|]; cbn [fst].
      * rewrite (wait_afterGemini r c result e1 Hrid1).
        destruct (afterGemini_core config r c result e1 Hrid1) as (Hg & _).
        pose proof (f_equal k_loop Hg) as Gl. cbn [core k_loop] in Gl. rewrite Gl.
        unfold afterGeminiCore. rewrite Kt, ?Kd.
        destruct (stopRequested (control e)) eqn:Hstop.
        { cbn [endCore k_loop waits]. rewrite Hw.
          apply CohCore_end; auto; [now left | now rewrite Kd]. }
        destruct (_ || _).
        { cbn [endCore k_loop waits]. rewrite Hw.
          apply CohCore_end; auto; [now right | now rewrite Kd]. }
        destruct (pauseRequested (control e)) eqn:Hpause.
        -- cbn [k_loop waits]. coh. rewrite ?Kt, ?Kd, ?Hpause, ?Hstop. now repeat split.
        -- assert (Hw' : (if waits (k_loop (headCore config (r + 1) (res_text result) e1))
                          then true else pauseWait e1) = false).
           { rewrite Hw, C1. unfold headCore.
             destruct (r + 1 <=? maxRounds (debate e1));
               [destruct (stopRequested (control e1))|]; reflexivity. }
           rewrite Hw'. apply CohCore_head; auto; [lia | now rewrite Kd | now rewrite Kd, Kt].
      * rewrite wait_afterCodex, Hw. unfold afterCodexCore. rewrite Kt.
        destruct (stopRequested (control e)) eqn:Hstop.
        { apply CohCore_end; auto; [now left | now rewrite Kd]. }
        coh. rewrite Kt, Kd. now repeat split.
  - (* stdout *)
    destruct (nth_error (pending e) k); exact HC.
  - destruct (nth_error (pending e) k); exact HC.
  - (* the pause wait is over *)
    destruct (loop e) as [|? ?|r g [|]|] eqn:Hl; try exact HC.
    cbn [fst]. rewrite wait_afterWait. destruct H3 as (Hr & _).
    cbn [waits] in C1. unfold afterWaitCore.
    destruct (stopRequested (control e)) eqn:Hstop.
    + apply CohCore_end; auto. now left.
    + apply CohCore_head; auto. lia.
  - (* the finally callback *)
    destruct (loop e) eqn:Hl; try exact HC. cbn [fst]. coh.
    destruct C3 as (Cs & Cc). repeat split; auto.
  - exact HC.
Qed.

Lemma Coherent_initial persisted : Coherent (initial config persisted).
Proof. unfold Coherent, initial. coh. repeat split; auto. Qed.

Lemma reachable_Coherent persisted e : reachable config persisted e -> Coherent e.
Proof.
  induction 1 as [|e l Hr IH]; [apply Coherent_initial|].
  apply Coherent_step; [now apply (reachable_Inv config persisted) | exact IH].
Qed.

End Coherence.

Section StatusFacts.

Variable config : RuntimeConfig.

Lemma Coherent_status persisted e :
  reachable config persisted e ->
  match status (debate e) with
  | idle => loop e = LNone
  | stopped | completed => loop e = LNone \/ loop e = LSettled
  | paused => exists r g, loop e = LAwaitResume r g false
  | stopping =>
      stopRequested (control e) = true
      /\ ((exists r x, loop e = LAwaitTurn r x) \/ exists r g, loop e = LAwaitResume r g true)
  | running | pause_requested =>
      stopRequested (control e) = false
      /\ ((exists r x, loop e = LAwaitTurn r x) \/ exists r g, loop e = LAwaitResume r g true)
  end.
Proof.
  intros Hreach. pose proof (reachable_Coherent config persisted e Hreach) as (_ & _ & C3).
  cbn [core k_debate k_loop k_control k_executionPromise] in C3.
  destruct (loop e) as [|r x|r g [|]|]; unfold ended in C3; cbn [flagsFor] in C3.
  - destruct C3 as ([C|[C|C]] & _); rewrite C; auto.
  - destruct (status (debate e)); try (now elim C3); try destruct C3; eauto 6.
  - destruct (status (debate e)); try (now elim C3); try destruct C3; eauto 6.
  - destruct C3 as (-> & _). eauto.
  - destruct C3 as ([C|C] & _); rewrite C; auto.
Qed.

Lemma inRun_promise persisted e :
  reachable config persisted e ->
  Ui.inRun (status (debate e)) = true -> executionPromise e = true.
Proof.
  intros Hreach Hin.
  pose proof (reachable_Inv config persisted e Hreach) as [(_ & H2 & _) _].
  pose proof (reachable_Coherent config persisted e Hreach) as (_ & _ & C3).
  cbn [core k_debate k_loop k_control k_executionPromise] in *.
  apply H2. intros Hl. rewrite Hl in C3.
  destruct C3 as ([C|[C|C]] & _); rewrite C in Hin; discriminate.
Qed.

(** X10.  In every state the engine reaches: a turn is outstanding only in the
    statuses running, pause_requested and stopping; the status is paused
    exactly when [runLoop] waits to be resumed ([pauseWait] is set); while the
    status is that of a run in progress [executionPromise] is set, so that
    [startDebate] is refused; a stop is requested exactly in the status
    stopping; and the round is 0 or lies between 1 and the number of rounds
    of the run. *)
Theorem status_tells (persisted : SessionStore.SessionFileData) (e : DebateEngine) :
  reachable config persisted e ->
  (turnsOf (pending e) <> [] ->
   status (debate e) = running \/ status (debate e) = pause_requested
   \/ status (debate e) = stopping)
  /\ (status (debate e) = paused <-> pauseWait e = true)
  /\ (Ui.inRun (status (debate e)) = true -> executionPromise e = true)
  /\ (stopRequested (control e) = true <-> status (debate e) = stopping)
  /\ (round (debate e) = 0 \/ 1 <= round (debate e) <= maxRounds (debate e)).
Proof.
  intros Hreach.
  pose proof (reachable_Inv config persisted e Hreach) as [(_ & H2 & H3) _].
  pose proof (reachable_Coherent config persisted e Hreach) as (C1 & C2 & C3).
  pose proof (Coherent_status persisted e Hreach) as Hs.
  cbn [core k_debate k_loop k_pending k_control k_executionPromise] in *.
  split; [|split; [|split; [|split]]].
  - intros Hp. destruct (loop e) as [|r x|r g b|]; try (now elim Hp);
      try (destruct H3 as (_ & _ & H3); now elim Hp).
    cbn [flagsFor] in C3. destruct (status (debate e)); try (now elim C3); auto.
  - rewrite C1. split.
    + intros E. rewrite E in Hs. destruct Hs as (r & g & ->). reflexivity.
    + destruct (loop e) as [|r x|r g [|]|]; try discriminate. now destruct C3.
  - now apply (inRun_promise persisted).
  - split.
    + intros Hstop. destruct (loop e) as [|r x|r g [|]|]; cbn [flagsFor] in C3.
      * destruct C3 as (_ & C & _). rewrite C in Hstop. discriminate.
      * destruct (status (debate e)); try (now elim C3); try reflexivity;
          destruct C3; congruence.
      * destruct (status (debate e)); try (now elim C3); try reflexivity;
          destruct C3; congruence.
      * destruct C3 as (_ & _ & C). congruence.
      * destruct C3 as (_ & C). rewrite C in Hstop. discriminate.
    + intros E. rewrite E in Hs. now destruct Hs.
  - exact C2.
Qed.

End StatusFacts.

Lemma status_tells_witness :
  status (debate pausedAfterRound1) = paused <-> pauseWait pausedAfterRound1 = true.
Proof.
  refine (proj1 (proj2 (status_tells testConfig SessionStore.empty pausedAfterRound1 _))).
  apply reachable_run, reachable_inRound1.
Defined.

(** ** Stopping a run *)

Section Stopping.

Variable config : RuntimeConfig.
Variable persisted : SessionStore.SessionFileData.

Lemma turnsOf_probe config0 agent resume e l :
  turnsOf (l ++ [probeCall config0 agent resume e]) = turnsOf l.
Proof. rewrite turnsOf_app. cbn. apply app_nil_r. Qed.

Lemma stopping_step l e :
  reachable config persisted e ->
  status (debate e) = stopping \/ status (debate e) = stopped ->
  notStart l = true ->
  turnsOf (calls (fst (exec config l e))) = turnsOf (calls e)
  /\ (status (debate (fst (exec config l e))) = stopping
      \/ status (debate (fst (exec config l e))) = stopped).
Proof.
  intros Hreach Hs Hl.
  pose proof (reachable_Inv config persisted e Hreach) as HI.
  pose proof (Coherent_status config persisted e Hreach) as HC.
  assert (Hid : loop e <> LNone -> runId (debate e) <> "").
  { destruct HI as [([H|[_ H]] & _) _]; [intros _; exact H | intros H'; now elim H']. }
  destruct (exec_core config l e Hid) as [Hc _].
  change (calls (fst (exec config l e))) with (k_calls (core (fst (exec config l e)))).
  change (debate (fst (exec config l e))) with (k_debate (core (fst (exec config l e)))).
  rewrite Hc. clear Hc.
  assert (Hsame : turnsOf (k_calls (core e)) = turnsOf (calls e)
                  /\ (status (k_debate (core e)) = stopping
                      \/ status (k_debate (core e)) = stopped)) by (split; [reflexivity|exact Hs]).
  destruct l as [agent resume | topic0 mr stamp suffix | | | | k outcome
                | k line | k line | | | now]; try discriminate; cbn [step_core];
    try exact Hsame.
  - destruct Hs as [Hs|Hs]; rewrite Hs in *; cbn [k_calls k_debate];
      now rewrite turnsOf_probe.
  - destruct Hs as [Hs|Hs]; rewrite Hs; exact Hsame.
  - destruct Hs as [Hs|Hs]; rewrite Hs; exact Hsame.
  - destruct Hs as [Hs|Hs]; rewrite Hs; exact Hsame.
  - destruct (nth_error (pending e) k) as [call|] eqn:Hk; [|exact Hsame].
    destruct (pc_awaiter call) as [agent | from to rnd prompt rid] eqn:Ha; [exact Hsame|].
    destruct (loop e) as [|r x|? ? ?|] eqn:Hloop; try exact Hsame.
    destruct Hs as [Hs|Hs]; rewrite Hs in HC.
    2:{ destruct HC as [HC|HC]; discriminate HC. }
    destruct HC as [Hstop _].
    destruct outcome as [result|message]; [|cbn; now split; [|right]].
    destruct (invokeTurn_resume_spec from to rnd prompt rid result
                (set_pending (removeNth k (pending e)) e)) as (Hq & _).
    cbn zeta in Hq.
    remember (invokeTurn_resume from to rnd prompt rid result
                (set_pending (removeNth k (pending e)) e)) as r1 eqn:Hr1.
    clear Hr1. destruct r1 as [e1 thrown]. cbn [fst snd] in *.
    core_fields Hq. cbn [debate calls control set_pending] in Kd, Kc, Kt.
    destruct thrown as [message|]; [cbn; rewrite Kc; now split; [|right]|].
    destruct x as [c|].
    + unfold afterGeminiCore. rewrite Kt, Hstop. cbn. rewrite Kc. now split; [|right].
    + unfold afterCodexCore. rewrite Kt, Hstop. cbn. rewrite Kc. now split; [|right].
  - destruct (loop e) as [|? ?|r g [|]|] eqn:Hloop; try exact Hsame.
    destruct Hs as [Hs|Hs]; rewrite Hs in HC.
    2:{ destruct HC as [HC|HC]; discriminate HC. }
    destruct HC as [Hstop _].
    unfold afterWaitCore. rewrite Hstop. cbn. now split; [|right].
  - destruct (loop e); exact Hsame.
Qed.

Lemma stopping_run ls :
  forall e, reachable config persisted e ->
    status (debate e) = stopping \/ status (debate e) = stopped ->
    forallb notStart ls = true ->
    turnsOf (calls (run config ls e)) = turnsOf (calls e)
    /\ (status (debate (run config ls e)) = stopping
        \/ status (debate (run config ls e)) = stopped).
Proof.
  induction ls as [|l ls IH]; intros e Hreach Hs Hls; [now split|].
  cbn [forallb] in Hls. apply andb_true_iff in Hls. destruct Hls as [Hl Hls].
  destruct (stopping_step l e Hreach Hs Hl) as [H1 H2].
  cbn [run]. destruct (IH (fst (exec config l e))) as [H3 H4]; auto.
  - now constructor.
  - split; [congruence | exact H4].
Qed.

(** In the status stopping the run ends with the next job of [runLoop]. *)
Lemma stopping_ends e :
  reachable config persisted e -> status (debate e) = stopping ->
  (forall k outcome call,
      nth_error (pending e) k = Some call -> isTurn call = true ->
      status (debate (fst (exec config (Settle k outcome) e))) = stopped)
  /\ (turnsOf (pending e) = [] -> status (debate (fst (exec config Wake e))) = stopped).
Proof.
  intros Hreach Hs.
  pose proof (reachable_Inv config persisted e Hreach) as HI.
  pose proof (Coherent_status config persisted e Hreach) as HC.
  rewrite Hs in HC. destruct HC as [Hstop Hloop].
  assert (Hid : loop e <> LNone -> runId (debate e) <> "").
  { destruct HI as [([H|[_ H]] & _) _]; [intros _; exact H | intros H'; now elim H']. }
  split.
  - intros k outcome call Hk Ht.
    destruct HI as [(_ & _ & H3) H4]. cbn [core k_loop k_pending k_debate] in H3.
    assert (Hl : exists r x, loop e = LAwaitTurn r x).
    { destruct Hloop as [Hl | (r & g & Hl)]; [exact Hl|]. rewrite Hl in H3.
      destruct H3 as (_ & _ & H3). exfalso.
      assert (Hin : In call (turnsOf (pending e))).
      { apply filter_In. split; [eapply nth_error_In; eauto | exact Ht]. }
      rewrite H3 in Hin. destruct Hin. }
    destruct Hl as (r & x & Hl).
    destruct (settle_turn_core config e k outcome call r x
                (reachable_Inv config persisted e Hreach) Hl Hk Ht)
      as (from & to & prompt & _ & _ & _ & _ & Hc).
    change (debate (fst (exec config (Settle k outcome) e)))
      with (k_debate (core (fst (exec config (Settle k outcome) e)))).
    rewrite Hc. clear Hc. cbn zeta.
    destruct outcome as [result|message]; [|reflexivity].
    destruct (invokeTurn_resume_spec from to r prompt (runId (debate e)) result
                (set_pending (removeNth k (pending e)) e)) as (Hq & _).
    cbn zeta in Hq.
    remember (invokeTurn_resume from to r prompt (runId (debate e)) result
                (set_pending (removeNth k (pending e)) e)) as r1 eqn:Hr1.
    clear Hr1. destruct r1 as [e1 thrown]. cbn [fst snd] in *.
    core_fields Hq. cbn [control set_pending] in Kt.
    destruct thrown as [message|]; [reflexivity|].
    destruct x as [c|].
    + unfold afterGeminiCore. now rewrite Kt, Hstop.
    + unfold afterCodexCore. now rewrite Kt, Hstop.
  - intros Hp.
    destruct Hloop as [(r & x & Hl) | (r & g & Hl)].
    + destruct HI as [(_ & _ & H3) _]. cbn [core k_loop k_pending k_debate] in H3.
      rewrite Hl in H3. destruct H3 as (_ & _ & o & p & H3 & _). rewrite Hp in H3.
      discriminate H3.
    + destruct (exec_core config Wake e Hid) as [Hc _].
      change (debate (fst (exec config Wake e)))
        with (k_debate (core (fst (exec config Wake e)))).
      rewrite Hc. cbn [step_core]. rewrite Hl. unfold afterWaitCore. now rewrite Hstop.
Qed.

End Stopping.

(** X11.  [stopDebate], called for a run in progress (status running,
    pause_requested or paused), returns with the status stopping and the
    runner's active process cancelled once, and calls no agent.  From then
    on, whatever jobs follow short of a new [startDebate], no turn is invoked
    any more and the status is stopping or stopped; while it is stopping, the
    settlement of the outstanding turn, however it settles, makes it stopped,
    and so does the wake-up of the loop when no turn is outstanding. *)
Theorem stop_ends_run (config : RuntimeConfig) (persisted : SessionStore.SessionFileData)
        (e : DebateEngine) (ls : list Label) :
  reachable config persisted e ->
  status (debate e) = running \/ status (debate e) = pause_requested
  \/ status (debate e) = paused ->
  forallb notStart ls = true ->
  let e1 := fst (exec config StopDebate e) in
  let e' := run config ls e1 in
  snd (exec config StopDebate e) = Returned
  /\ status (debate e1) = stopping
  /\ cancels e1 = S (cancels e)
  /\ calls e1 = calls e
  /\ turnsOf (calls e') = turnsOf (calls e)
  /\ (status (debate e') = stopping \/ status (debate e') = stopped)
  /\ (status (debate e') = stopping ->
      (forall k outcome call,
          nth_error (pending e') k = Some call -> isTurn call = true ->
          status (debate (fst (exec config (Settle k outcome) e'))) = stopped)
      /\ (turnsOf (pending e') = [] ->
          status (debate (fst (exec config Wake e'))) = stopped)).
Proof.
  intros Hreach Hs Hls e1 e'.
  assert (H1 : snd (exec config StopDebate e) = Returned
               /\ status (debate e1) = stopping /\ cancels e1 = S (cancels e)
               /\ calls e1 = calls e).
  { subst e1. cbn [exec]. unfold stopDebate, releasePauseWait, setDebateStatus,
                                   panelOutput, emit.
    destruct Hs as [Hs|[Hs|Hs]]; rewrite Hs; cbn [fst snd]; proj;
      (destruct (pauseWait e); [destruct (loop e)|]); proj; now repeat split. }
  destruct H1 as (R1 & R2 & R3 & R4).
  assert (Hreach1 : reachable config persisted e1) by now constructor.
  destruct (stopping_run config persisted ls e1 Hreach1 (or_introl R2) Hls) as [T1 T2].
  fold e' in T1, T2.
  split; [exact R1|]. split; [exact R2|]. split; [exact R3|]. split; [exact R4|].
  split; [now rewrite T1, R4|]. split; [exact T2|].
  intros Hst. apply (stopping_ends config persisted); [|exact Hst].
  now apply reachable_run.
Qed.

Lemma stop_ends_run_witness :
  let e1 := fst (exec testConfig StopDebate inRound1) in
  let e' := run testConfig [ConnectAgent gemini None; Tick "later"] e1 in
  snd (exec testConfig StopDebate inRound1) = Returned
  /\ status (debate e1) = stopping
  /\ cancels e1 = S (cancels inRound1)
  /\ calls e1 = calls inRound1
  /\ turnsOf (calls e') = turnsOf (calls inRound1)
  /\ (status (debate e') = stopping \/ status (debate e') = stopped)
  /\ (status (debate e') = stopping ->
      (forall k outcome call,
          nth_error (pending e') k = Some call -> isTurn call = true ->
          status (debate (fst (exec testConfig (Settle k outcome) e'))) = stopped)
      /\ (turnsOf (pending e') = [] ->
          status (debate (fst (exec testConfig Wake e'))) = stopped)).
Proof.
  refine (stop_ends_run testConfig SessionStore.empty inRound1
            [ConnectAgent gemini None; Tick "later"] reachable_inRound1 _ _).
  - left. vm_compute. reflexivity.
  - vm_compute. reflexivity.
Defined.

(** ** How a run ends *)

(** X12.  When the runner fails on a turn (the promise of [runAgent] is
    rejected: a timeout, a process that cannot be started or that exits with
    a code other than 0), the run ends in that job: status stopped, the
    message of the failure as the reason, the round as it was, no further
    call of the runner and none outstanding for a turn, and an error event
    with the message as its detail. *)
Theorem turn_failure_stops_run (config : RuntimeConfig)
        (persisted : SessionStore.SessionFileData) (e : DebateEngine)
        (k : nat) (call : PendingCall) (r : Z) (x : option AgentRunResult)
        (message : string) :
  reachable config persisted e ->
  loop e = LAwaitTurn r x ->
  nth_error (pending e) k = Some call -> isTurn call = true ->
  let e' := fst (exec config (Settle k (Rejected message)) e) in
  status (debate e') = stopped
  /\ reason (debate e') = Some message
  /\ round (debate e') = r
  /\ calls e' = calls e
  /\ turnsOf (pending e') = []
  /\ loop e' = LSettled
  /\ In (error_event "RUN_LOOP_ERROR" "토론 실행 중 오류가 발생했습니다." (Some message))
        (emitted e').
Proof.
  intros Hreach Hl Hk Ht e'.
  pose proof (reachable_Inv config persisted e Hreach) as HI.
  destruct (settle_turn_core config e k (Rejected message) call r x HI Hl Hk Ht)
    as (from & to & prompt & Ha & _ & Hround & Hrem & Hc).
  fold e' in Hc. cbn zeta in Hc. core_fields Hc.
  cbn [endCore k_debate k_loop k_pending k_calls withStatus set_pending debate pending calls]
    in Kd, Kl, Kp, Kc.
  rewrite Kd, Kl, Kp, Kc. cbn [status reason round].
  repeat (split; [first [reflexivity | assumption]|]).
  assert (He : e' = runLoop_catch message (set_pending (removeNth k (pending e)) e)).
  { unfold e'. cbn [exec]. rewrite Hk, Ha, Hl. unfold turnSettled. proj. now rewrite Hl. }
  rewrite He. apply catch_keeps.
Qed.

Lemma turn_failure_stops_run_witness :
  let e' := fst (exec testConfig (Settle 0 (Rejected "codex command timeout (2000ms)"))
                      inRound1) in
  status (debate e') = stopped
  /\ reason (debate e') = Some "codex command timeout (2000ms)"
  /\ round (debate e') = 1
  /\ calls e' = calls inRound1
  /\ turnsOf (pending e') = []
  /\ loop e' = LSettled
  /\ In (error_event "RUN_LOOP_ERROR" "토론 실행 중 오류가 발생했습니다."
                     (Some "codex command timeout (2000ms)"))
        (emitted e').
Proof.
  refine (turn_failure_stops_run testConfig SessionStore.empty inRound1 0
            (firstPending inRound1) 1 None "codex command timeout (2000ms)"
            reachable_inRound1 _ _ _).
  - vm_compute. reflexivity.
  - vm_compute. reflexivity.
  - vm_compute. reflexivity.
Defined.

(** X13.  When gemini's turn of a round [r] that is not below the number of
    rounds of the run returns ([maxRounds <= r], the test [runLoop] makes
    after the loop; [r] is then that number) and nothing else ends or pauses
    the run (no stop and no pause requested, no consensus, the response not
    the second empty one in a row), the run ends in that job: status
    completed, reason max rounds reached, the round as it was, no further
    call of the runner. *)
Theorem last_round_completes (config : RuntimeConfig)
        (persisted : SessionStore.SessionFileData) (e : DebateEngine)
        (k : nat) (call : PendingCall) (r : Z) (codexTurn geminiTurn : AgentRunResult) :
  reachable config persisted e ->
  loop e = LAwaitTurn r (Some codexTurn) ->
  nth_error (pending e) k = Some call -> isTurn call = true ->
  status (debate e) = running ->
  (trim (res_text geminiTurn) = "" -> consecutiveEmptyResponses e < 1) ->
  consensusRegex config (res_text codexTurn)
  || consensusRegex config (res_text geminiTurn) = false ->
  maxRounds (debate e) <= r ->
  let e' := fst (exec config (Settle k (Resolved geminiTurn)) e) in
  status (debate e') = completed
  /\ reason (debate e') = Some "max rounds reached"
  /\ round (debate e') = r
  /\ r = maxRounds (debate e)
  /\ calls e' = calls e
  /\ loop e' = LSettled.
Proof.
  intros Hreach Hl Hk Ht Hs Hempty Hcons Hmax e'.
  pose proof (reachable_Inv config persisted e Hreach) as HI.
  pose proof (reachable_Coherent config persisted e Hreach) as (_ & C2 & C3).
  cbn [core k_debate k_loop k_control] in C2, C3. rewrite Hl, Hs in C3.
  cbn [flagsFor] in C3. destruct C3 as [Hpause Hstop].
  destruct (settle_turn_core config e k (Resolved geminiTurn) call r (Some codexTurn)
              HI Hl Hk Ht) as (from & to & prompt & _ & Hsum & Hround & Hrem & Hc).
  fold e' in Hc. cbn zeta in Hc.
  destruct (invokeTurn_resume_spec from to r prompt (runId (debate e)) geminiTurn
              (set_pending (removeNth k (pending e)) e)) as (Hq & _ & _ & Hthrown).
  cbn zeta in Hq, Hthrown.
  remember (invokeTurn_resume from to r prompt (runId (debate e)) geminiTurn
              (set_pending (removeNth k (pending e)) e)) as r1 eqn:Hr1.
  clear Hr1. destruct r1 as [e1 thrown]. cbn [fst snd] in *.
  cbn [runLogStore set_pending consecutiveEmptyResponses] in Hthrown.
  assert (Hno : negb (truthy (trim (res_text geminiTurn)))
                && (2 <=? (if negb (truthy (trim (res_text geminiTurn)))
                           then consecutiveEmptyResponses e + 1 else 0)) = false).
  { destruct (trim (res_text geminiTurn)) eqn:Htrim; [|reflexivity].
    cbn [truthy negb andb]. apply Z.leb_gt. specialize (Hempty eq_refl). lia. }
  rewrite Hno in Hthrown.
  destruct (RunLogStore.readSummary (runId (debate e)) (runLogStore e)); [|congruence].
  subst thrown.
  pose proof (f_equal k_debate Hq) as Kd. pose proof (f_equal k_calls Hq) as Kc.
  pose proof (f_equal k_control Hq) as Kt.
  cbn [core k_debate k_calls k_control debate calls control set_pending] in Kd, Kc, Kt.
  assert (Hr1 : 1 <= r).
  { destruct HI as [(_ & _ & H3) _]. cbn [core k_loop] in H3. rewrite Hl in H3. tauto. }
  assert (Hr : r = maxRounds (debate e)) by lia.
  unfold afterGeminiCore, headCore, afterReason in Hc.
  rewrite Kt, Hstop, Hcons, Hpause, Kd in Hc.
  replace (r + 1 <=? maxRounds (debate e)) with false in Hc
    by (symmetry; apply Z.leb_gt; lia).
  replace (maxRounds (debate e) <=? round (debate e)) with true in Hc
    by (symmetry; apply Z.leb_le; lia).
  cbn [negb andb String.eqb Ascii.eqb Bool.eqb] in Hc.
  core_fields Hc. cbn [endCore k_debate k_loop k_calls withStatus] in Kd0, Kl, Kc0.
  rewrite Kd0, Kl, Kc0, Kc. cbn [withStatus status reason round]. rewrite Kd.
  repeat split; auto.
Qed.

Lemma last_round_completes_witness :
  let e := run testConfig [StartDebate "one round" (Some 1) "20240101_000000" "abc123";
                           Settle 0 (answer codex "first")] connected in
  let e' := fst (exec testConfig (Settle 0 (Resolved (reply gemini "second"))) e) in
  status (debate e') = completed
  /\ reason (debate e') = Some "max rounds reached"
  /\ round (debate e') = 1
  /\ 1 = maxRounds (debate e)
  /\ calls e' = calls e
  /\ loop e' = LSettled.
Proof.
  intros e.
  refine (last_round_completes testConfig SessionStore.empty e 0 (firstPending e) 1
            (reply codex "first") (reply gemini "second") _ _ _ _ _ _ _ _).
  - apply reachable_run, reachable_connected.
  - vm_compute. reflexivity.
  - vm_compute. reflexivity.
  - vm_compute. reflexivity.
  - vm_compute. reflexivity.
  - intros H. vm_compute in H. discriminate H.
  - vm_compute. reflexivity.
  - vm_compute. intros H. discriminate H.
Defined.

Lemma headCore_beyond config rnd latestGemini e :
  maxRounds (debate e) < rnd -> stopRequested (control e) = false ->
  maxRounds (debate e) <= round (debate e) ->
  headCore config rnd latestGemini e = endCore completed "max rounds reached" e.
Proof.
  intros Hm Hs Hr. unfold headCore, afterReason.
  replace (rnd <=? maxRounds (debate e)) with false by (symmetry; apply Z.leb_gt; lia).
  replace (maxRounds (debate e) <=? round (debate e)) with true
    by (symmetry; apply Z.leb_le; lia).
  now rewrite Hs.
Qed.

Lemma core_repack e' c b :
  core e' = mkCore (k_debate c) (k_loop c) (k_pending c) (k_calls c) b (k_control c)
                   (k_counter c) ->
  debate e' = k_debate c /\ calls e' = k_calls c /\ loop e' = k_loop c
  /\ pending e' = k_pending c /\ control e' = k_control c.
Proof. intros H. core_fields H. now repeat split. Qed.

Lemma endCore_fields st rsn e :
  k_debate (endCore st rsn e) = withStatus st (Some rsn) (debate e)
  /\ k_calls (endCore st rsn e) = calls e
  /\ k_loop (endCore st rsn e) = LSettled
  /\ k_pending (endCore st rsn e) = pending e.
Proof. now repeat split. Qed.

Lemma started_ended config topic0 maxRounds0 stamp suffix e st rsn :
  headCore config 1 "" (prepared config topic0 maxRounds0 stamp suffix e)
  = endCore st rsn (prepared config topic0 maxRounds0 stamp suffix e) ->
  debate (started config topic0 maxRounds0 stamp suffix e)
  = withStatus st (Some rsn) (debate (prepared config topic0 maxRounds0 stamp suffix e))
  /\ calls (started config topic0 maxRounds0 stamp suffix e)
     = calls (prepared config topic0 maxRounds0 stamp suffix e)
  /\ loop (started config topic0 maxRounds0 stamp suffix e) = LSettled.
Proof.
  intros Hh.
  destruct (started_core config topic0 maxRounds0 stamp suffix e) as (Hc & _).
  destruct (core_repack _ _ _ Hc) as (Sd & Sc & Sl & _).
  rewrite Hh in Sd, Sc, Sl.
  destruct (endCore_fields st rsn (prepared config topic0 maxRounds0 stamp suffix e))
    as (Ed & Ec & El & _).
  rewrite Sd, Sc, Sl. now repeat split.
Qed.

Lemma core_fields_of e c :
  core e = c ->
  debate e = k_debate c /\ calls e = k_calls c /\ control e = k_control c
  /\ loop e = k_loop c /\ pending e = k_pending c.
Proof. intros <-. now repeat split. Qed.

(** X14.  [startDebate] with a number of rounds below 1 plays no round: when
    it passes its guards it returns with the run ended already, status
    completed, reason max rounds reached, round 0, and the runner not
    called. *)
Theorem no_rounds_completes (config : RuntimeConfig) (e : DebateEngine)
        (topic0 stamp suffix : string) (rounds : Z) :
  startable topic0 e = true -> rounds < 1 ->
  let e' := fst (exec config (StartDebate topic0 (Some rounds) stamp suffix) e) in
  snd (exec config (StartDebate topic0 (Some rounds) stamp suffix) e) = Returned
  /\ status (debate e') = completed
  /\ reason (debate e') = Some "max rounds reached"
  /\ round (debate e') = 0
  /\ runId (debate e') = RunLogStore.makeRunId stamp suffix
  /\ calls e' = calls e.
Proof.
  intros Hs Hr. cbn zeta. cbn [exec].
  destruct (startDebate_cases config topic0 (Some rounds) stamp suffix e)
    as [[Hn _] | [_ He]]; [congruence|].
  rewrite He. cbn [fst snd]. split; [reflexivity|].
  destruct (prepared_core config topic0 (Some rounds) stamp suffix e) as (Hp & _).
  destruct (core_fields_of _ _ Hp) as (Kd & Kc & Kt & _).
  destruct (started_ended config topic0 (Some rounds) stamp suffix e completed
              "max rounds reached") as (Sd & Sc & _).
  { apply headCore_beyond; rewrite ?Kd, ?Kt; cbn [k_debate k_control maxRounds round
                                                  stopRequested];
      (lia || reflexivity). }
  rewrite Sd, Sc, Kd, Kc. repeat split.
Qed.

Lemma no_rounds_completes_witness :
  let e' := fst (exec testConfig (StartDebate "nothing" (Some 0) "20240101_000000" "abc123")
                      connected) in
  snd (exec testConfig (StartDebate "nothing" (Some 0) "20240101_000000" "abc123") connected)
  = Returned
  /\ status (debate e') = completed
  /\ reason (debate e') = Some "max rounds reached"
  /\ round (debate e') = 0
  /\ runId (debate e') = RunLogStore.makeRunId "20240101_000000" "abc123"
  /\ calls e' = calls connected.
Proof.
  refine (no_rounds_completes testConfig connected "nothing" "20240101_000000" "abc123" 0 _ _).
  - vm_compute. reflexivity.
  - lia.
Defined.

(** ** The buttons of the page (state.ts, App.tsx) *)

Lemma inRun_cases st :
  Ui.inRun st = true
  <-> st = running \/ st = pause_requested \/ st = paused \/ st = stopping.
Proof.
  destruct st; cbn; split; intros H; try reflexivity; try discriminate; auto;
    try (now destruct H as [H|[H|[H|H]]]; discriminate).
Qed.

(** X15.  On a page that shows a state the engine has reached, the buttons
    follow the guards of the engine: Pause is enabled exactly when
    [pauseDebate] does not throw, and Resume exactly when [resumeDebate] does
    not; [stopDebate] does not throw exactly when Stop is enabled and the
    status is not stopping (in the status stopping the button is enabled and
    the call throws); and whenever [startDebate] accepts the topic of the
    page, Start is enabled. *)
Theorem controls_agree (config : RuntimeConfig) (persisted : SessionStore.SessionFileData)
        (e : DebateEngine) (ui : Ui.UiState)
        (maxRounds0 : option Z) (stamp suffix : string) :
  reachable config persisted e -> mirrors ui e ->
  (Ui.canPause (Ui.getControlAvailability ui) = true
   <-> snd (exec config PauseDebate e) = Returned)
  /\ (Ui.canResume (Ui.getControlAvailability ui) = true
      <-> snd (exec config ResumeDebate e) = Returned)
  /\ (snd (exec config StopDebate e) = Returned
      <-> Ui.canStop (Ui.getControlAvailability ui) = true
          /\ status (debate e) <> stopping)
  /\ (snd (exec config (StartDebate (Ui.topicInput ui) maxRounds0 stamp suffix) e) = Returned
      -> Ui.canStart (Ui.getControlAvailability ui) = true).
Proof.
  intros Hreach ((Hg & _) & (Hc & _) & (Hst & _)).
  unfold Ui.getControlAvailability.
  cbn [Ui.canPause Ui.canResume Ui.canStop Ui.canStart exec].
  rewrite Hst, Hg, Hc.
  split; [|split; [|split]].
  - unfold pauseDebate. destruct (status (debate e)); cbn; split; congruence.
  - unfold resumeDebate. destruct (status (debate e)); cbn; split; congruence.
  - unfold stopDebate. destruct (status (debate e)); cbn [snd Ui.inRun]; split;
      try discriminate; try (intros [H1 H2]; congruence); intros _; split; congruence.
  - destruct (startDebate_cases config (Ui.topicInput ui) maxRounds0 stamp suffix e)
      as [(_ & m & ->) | (Hs & _)]; [discriminate|].
    intros _. unfold startable in Hs.
    apply andb_true_iff in Hs. destruct Hs as [Hs H4].
    apply andb_true_iff in Hs. destruct Hs as [Hs H3].
    apply andb_true_iff in Hs. destruct Hs as [H1 H2].
    rewrite H3, H4. cbn [andb].
    assert (Ht : (0 <? String.length (trim (Ui.topicInput ui)))%nat = true).
    { destruct (trim (Ui.topicInput ui)); [discriminate|reflexivity]. }
    rewrite Ht. cbn [andb].
    destruct (Ui.inRun (status (debate e))) eqn:Hin; [|reflexivity].
    rewrite (inRun_promise config persisted e Hreach Hin) in H2. discriminate.
Qed.

Lemma controls_agree_witness :
  (Ui.canPause (Ui.getControlAvailability
                  (Ui.applyServerState (debate pausedAfterRound1) (agents pausedAfterRound1)
                                       Ui.initialUiState)) = true
   <-> snd (exec testConfig PauseDebate pausedAfterRound1) = Returned)
  /\ (Ui.canResume (Ui.getControlAvailability
                      (Ui.applyServerState (debate pausedAfterRound1)
                                           (agents pausedAfterRound1) Ui.initialUiState)) = true
      <-> snd (exec testConfig ResumeDebate pausedAfterRound1) = Returned)
  /\ (snd (exec testConfig StopDebate pausedAfterRound1) = Returned
      <-> Ui.canStop (Ui.getControlAvailability
                        (Ui.applyServerState (debate pausedAfterRound1)
                                             (agents pausedAfterRound1) Ui.initialUiState)) = true
          /\ status (debate pausedAfterRound1) <> stopping)
  /\ (snd (exec testConfig
                (StartDebate (Ui.topicInput
                                (Ui.applyServerState (debate pausedAfterRound1)
                                                     (agents pausedAfterRound1)
                                                     Ui.initialUiState))
                             None "20240101_000000" "abc123") pausedAfterRound1) = Returned
      -> Ui.canStart (Ui.getControlAvailability
                        (Ui.applyServerState (debate pausedAfterRound1)
                                             (agents pausedAfterRound1) Ui.initialUiState)) = true).
Proof.
  refine (controls_agree testConfig SessionStore.empty pausedAfterRound1
            (Ui.applyServerState (debate pausedAfterRound1) (agents pausedAfterRound1)
                                 Ui.initialUiState)
            None "20240101_000000" "abc123" _ _).
  - apply reachable_run, reachable_inRound1.
  - vm_compute. repeat split; auto.
Defined.

(** ** The lines of a panel (state.ts) *)

(** The last [n] elements of a list. *)
Lemma skipn_last_app {A} (n : nat) (l : list A) (x : A) :
  (1 <= n)%nat ->
  skipn (length (skipn (length l - n) l ++ [x]) - n) (skipn (length l - n) l ++ [x])
  = skipn (length (l ++ [x]) - n) (l ++ [x]).
Proof.
  intros Hn. rewrite !length_app, length_skipn. cbn [length].
  destruct (Nat.le_gt_cases (length l) n) as [Hle|Hgt].
  - replace (length l - n)%nat with 0%nat by lia. cbn [skipn].
    now rewrite Nat.sub_0_r.
  - replace (length l - (length l - n) + 1 - n)%nat with 1%nat by lia.
    replace (length l + 1 - n)%nat with (S (length l - n)) by lia.
    rewrite (skipn_app (S (length l - n)) l [x]).
    replace (S (length l - n) - length l)%nat with 0%nat by lia. cbn [skipn].
    remember (length l - n)%nat as k eqn:Ek.
    assert (Hk : (k < length l)%nat) by lia.
    clear Ek Hgt Hn. revert k Hk.
    induction l as [|a l IH]; intros k Hk; [cbn in Hk; lia|].
    destruct k as [|k].
    + cbn [skipn app]. reflexivity.
    + cbn [skipn]. destruct l as [|b l].
      * cbn in Hk. lia.
      * apply (IH k). cbn in Hk |- *. lia.
Qed.

Lemma pushLine_last (lines : list string) (line : string) (max : nat) :
  Ui.pushLine lines line max
  = skipn (length (lines ++ [line]) - max) (lines ++ [line]).
Proof.
  unfold Ui.pushLine. cbv zeta.
  destruct (max <? length (lines ++ [line]))%nat eqn:E; [reflexivity|].
  apply Nat.ltb_ge in E.
  replace (length (lines ++ [line]) - max)%nat with 0%nat by lia. reflexivity.
Qed.

(** X16.  A panel of the page holds the newest 2000 lines: after any sequence
    of [panel_output] actions on a panel, starting with the panel empty, the
    panel is the list of all the lines received without its first
    [length - 2000] ones, so it never holds more than 2000 lines and the line
    received last is the last line shown. *)
Theorem panel_newest_lines (name : PanelName) (lines : list string) (state : Ui.UiState) :
  Ui.panel (Ui.panels state) name = [] ->
  let state' := fold_left (fun s line => Ui.uiReducer s (Ui.ui_panel_output name line))
                          lines state in
  Ui.panel (Ui.panels state') name = skipn (length lines - Ui.maxLines) lines
  /\ (length (Ui.panel (Ui.panels state') name) <= Ui.maxLines)%nat
  /\ (forall other, other <> name ->
        Ui.panel (Ui.panels state') other = Ui.panel (Ui.panels state) other).
Proof.
  intros H0. cbv zeta.
  assert (G : forall ls s,
             Ui.panel (Ui.panels
                         (fold_left (fun s line => Ui.uiReducer s (Ui.ui_panel_output name line))
                                    (rev ls) s)) name
             = match ls with
               | [] => Ui.panel (Ui.panels s) name
               | _ => skipn (length (Ui.panel (Ui.panels s) name ++ rev ls) - Ui.maxLines)
                            (Ui.panel (Ui.panels s) name ++ rev ls)
               end
             /\ forall other, other <> name ->
                  Ui.panel (Ui.panels
                              (fold_left (fun s line =>
                                            Ui.uiReducer s (Ui.ui_panel_output name line))
                                         (rev ls) s)) other
                  = Ui.panel (Ui.panels s) other).
  { intros ls s. induction ls as [|x ls IH].
    - cbn [rev fold_left]. split; [reflexivity|]. intros; reflexivity.
    - cbn [rev]. rewrite fold_left_app. cbn [fold_left].
      destruct IH as [IH1 IH2].
      remember (fold_left (fun s line => Ui.uiReducer s (Ui.ui_panel_output name line))
                          (rev ls) s) as s1 eqn:E1. clear E1.
      split.
      + cbn [Ui.uiReducer Ui.panels].
        assert (Hset : forall v p, Ui.panel (Ui.setPanel name v p) name = v)
          by (intros v p; destruct name; reflexivity).
        rewrite Hset, pushLine_last, IH1.
        destruct ls as [|y ls].
        * cbn [rev app]. reflexivity.
        * rewrite skipn_last_app by (unfold Ui.maxLines; lia).
          now rewrite app_assoc.
      + intros other Ho. cbn [Ui.uiReducer Ui.panels]. rewrite <- (IH2 other Ho).
        destruct name, other; try reflexivity; now elim Ho. }
  destruct (G (rev lines) state) as [G1 G2]. rewrite rev_involutive in G1, G2.
  assert (E : Ui.panel (Ui.panels
                (fold_left (fun s line => Ui.uiReducer s (Ui.ui_panel_output name line))
                           lines state)) name
              = skipn (length lines - Ui.maxLines) lines).
  { rewrite G1, H0. cbn [app]. destruct (rev lines) eqn:Er.
    - apply (f_equal (@rev string)) in Er. rewrite rev_involutive in Er. cbn in Er.
      subst lines. reflexivity.
    - reflexivity. }
  split; [exact E|]. split; [|exact G2].
  rewrite E, length_skipn. lia.
Qed.

Lemma panel_newest_lines_witness :
  let state' := fold_left (fun s line => Ui.uiReducer s (Ui.ui_panel_output panel_left line))
                          ["a"; "b"] Ui.initialUiState in
  Ui.panel (Ui.panels state') panel_left = skipn (length ["a"; "b"] - Ui.maxLines) ["a"; "b"]
  /\ (length (Ui.panel (Ui.panels state') panel_left) <= Ui.maxLines)%nat
  /\ (forall other, other <> panel_left ->
        Ui.panel (Ui.panels state') other = Ui.panel (Ui.panels Ui.initialUiState) other).
Proof.
  refine (panel_newest_lines panel_left ["a"; "b"] Ui.initialUiState _).
  reflexivity.
Defined.

(** ** The summary of the run (runLoop, run-log-store.ts) *)

Lemma RunOk_same e e' :
  currentRun e' = currentRun e -> runLogStore e' = runLogStore e ->
  runId (debate e') = runId (debate e) -> topic (debate e') = topic (debate e) ->
  maxRounds (debate e') = maxRounds (debate e) ->
  RunOk e -> RunOk e'.
Proof.
  intros Hc Hs Hi Ht Hm (run & s & H1 & H2 & H3 & H4 & H5 & H6).
  exists run, s. rewrite Hc, Hs, Hi, Ht, Hm. repeat split; assumption.
Qed.

Ltac runok :=
  intros; unfold panelOutput, emitLines, setDebateStatus, setAgentStatus, emit;
  match goal with H : RunOk _ |- _ => revert H; apply RunOk_same; reflexivity end.

Lemma readSummary_updated now rid patch s s' k :
  RunLogStore.updateSummary now rid patch s = Some s' ->
  RunLogStore.readSummary k s'
  = if String.eqb k rid
    then option_map (RunLogStore.applyPatch now patch) (RunLogStore.readSummary rid s)
    else RunLogStore.readSummary k s.
Proof.
  unfold RunLogStore.updateSummary.
  destruct (RunLogStore.readSummary rid s) as [previous|] eqn:E; [|discriminate].
  intros [= <-]. unfold RunLogStore.readSummary.
  cbn [RunLogStore.summaryFiles RunLogStore.lookup option_map].
  destruct (String.eqb k rid); reflexivity.
Qed.

Lemma RunOk_appended entry e :
  RunOk e -> RunOk (set_runLogStore (RunLogStore.append entry (runLogStore e)) e).
Proof.
  intros (run & s & H1 & H2 & H3 & H4 & H5 & H6). exists run, s.
  repeat split; assumption.
Qed.

Lemma RunOk_updated now rid patch store e :
  keepsRun patch ->
  RunOk e -> RunLogStore.updateSummary now rid patch (runLogStore e) = Some store ->
  RunOk (set_runLogStore store e).
Proof.
  intros (K1 & K2 & K3 & K4) (run & s & H1 & H2 & H3 & H4 & H5 & H6) E.
  pose proof (readSummary_updated _ _ _ _ _ (runId (debate e)) E) as R.
  destruct (String.eqb_spec (runId (debate e)) rid) as [Heq|Hne].
  - subst rid. rewrite H3 in R. cbn [option_map] in R.
    exists run, (RunLogStore.applyPatch now patch s).
    proj. cbn [RunLogStore.applyPatch RunLogStore.rs_runId RunLogStore.rs_topic
               RunLogStore.rs_maxRounds].
    rewrite K1, K3, K4. cbn [RunLogStore.over]. repeat split; assumption.
  - exists run, s. proj. rewrite R. repeat split; assumption.
Qed.

Section Summary.

Variable config : RuntimeConfig.

(** The [finally] block writes the final status, round and reason. *)
Lemma finally_records st rsn e :
  RunOk e ->
  loop (runLoop_finally st rsn e) = LSettled
  /\ RunOk (runLoop_finally st rsn e)
  /\ summaryRecords (runLoop_finally st rsn e).
Proof.
  intros (run & s & H1 & H2 & H3 & H4 & H5 & H6).
  unfold runLoop_finally. cbv zeta.
  unfold panelOutput, setDebateStatus, emit. proj. rewrite H1.
  unfold RunLogStore.updateSummary. proj. rewrite H2, H3.
  split; [reflexivity|]. split.
  - exists run, (RunLogStore.applyPatch (clock e)
                   (finalPatch st (round (debate e)) rsn) s).
    proj. unfold RunLogStore.readSummary. cbn [RunLogStore.summaryFiles RunLogStore.lookup].
    rewrite String.eqb_refl. repeat split; assumption.
  - exists (RunLogStore.applyPatch (clock e)
              (finalPatch st (round (debate e)) rsn) s).
    proj. unfold RunLogStore.readSummary. cbn [RunLogStore.summaryFiles RunLogStore.lookup].
    rewrite String.eqb_refl. repeat split; reflexivity.
Qed.

Lemma Left_finally st rsn e : RunOk e -> Left (runLoop_finally st rsn e).
Proof.
  intros H. destruct (finally_records st rsn e H) as (Hl & Hr & Hs).
  split; [exact Hr|]. now rewrite Hl.
Qed.

Lemma Left_after st rsn e : RunOk e -> Left (runLoop_after st rsn e).
Proof. intros H. unfold runLoop_after. cbv zeta. now apply Left_finally. Qed.

Lemma Left_catch message e : RunOk e -> Left (runLoop_catch message e).
Proof. intros H. unfold runLoop_catch. cbv zeta. apply Left_finally. runok. Qed.

Lemma RunOk_invokeTurn from to rnd prompt e e' :
  RunOk e -> invokeTurn config from to rnd prompt e = inl e' -> RunOk e'.
Proof.
  apply F_invokeTurn with (P := RunOk); runok.
Qed.

Lemma Left_awaitTurn rnd x e : RunOk e -> Left (set_loop (LAwaitTurn rnd x) e).
Proof. intros H. split; [runok | exact I]. Qed.

Lemma Left_head rnd latestGemini e : RunOk e -> Left (runLoop_head config rnd latestGemini e).
Proof.
  intros H. unfold runLoop_head. cbv zeta.
  destruct (rnd <=? maxRounds (debate e)); [|now apply Left_after].
  destruct (stopRequested (control e)); [now apply Left_after|].
  match goal with
  | |- Left (match invokeTurn ?c ?f ?t ?r ?p ?x with _ => _ end) =>
      assert (H1 : RunOk x) by runok;
      destruct (invokeTurn c f t r p x) as [e'|m] eqn:E
  end.
  - apply Left_awaitTurn. exact (RunOk_invokeTurn _ _ _ _ _ _ H1 E).
  - now apply Left_catch.
Qed.

Lemma Left_afterCodex rnd codexTurn e :
  RunOk e -> Left (runLoop_afterCodex config rnd codexTurn e).
Proof.
  intros H. unfold runLoop_afterCodex.
  destruct (stopRequested (control e)); [now apply Left_after|].
  destruct (invokeTurn _ _ _ _ _ e) as [e'|m] eqn:E.
  - apply Left_awaitTurn. exact (RunOk_invokeTurn _ _ _ _ _ _ H E).
  - now apply Left_catch.
Qed.

Lemma Left_afterGemini rnd codexTurn geminiTurn e :
  RunOk e -> Left (runLoop_afterGemini config rnd codexTurn geminiTurn e).
Proof.
  intros H. unfold runLoop_afterGemini. cbv zeta.
  destruct (stopRequested (control e)); [now apply Left_after|].
  destruct (_ || _); [apply Left_after; runok|].
  destruct (pauseRequested (control e)); [|now apply Left_head].
  unfold waitUntilResumedOrStopped.
  destruct (stopRequested _); [split; [runok | exact I]|].
  destruct (negb _); (split; [runok | exact I]).
Qed.

Lemma Left_afterWait rnd latestGemini e :
  RunOk e -> Left (runLoop_afterWait config rnd latestGemini e).
Proof.
  intros H. unfold runLoop_afterWait.
  destruct (stopRequested (control e)); [now apply Left_after | now apply Left_head].
Qed.

Lemma RunOk_invokeTurn_resume from to rnd prompt rid result e :
  RunOk e -> RunOk (fst (invokeTurn_resume from to rnd prompt rid result e)).
Proof.
  apply F_invokeTurn_resume with (P := RunOk);
    try exact RunOk_appended; try exact RunOk_updated; runok.
Qed.

Lemma Left_turnSettled from to rnd prompt rid outcome e r x :
  loop e = LAwaitTurn r x -> RunOk e ->
  Left (fst (turnSettled config from to rnd prompt rid outcome e)).
Proof.
  intros Hl H. unfold turnSettled. rewrite Hl.
  destruct outcome as [result|message]; [|now apply Left_catch].
  pose proof (RunOk_invokeTurn_resume from to rnd prompt rid result e H) as H1.
  destruct (invokeTurn_resume from to rnd prompt rid result e) as [e1 [m|]]; cbn [fst] in *.
  - now apply Left_catch.
  - destruct x; [now apply Left_afterGemini | now apply Left_afterCodex].
Qed.

Lemma RunOk_prepared topic0 maxRounds0 stamp suffix e :
  RunOk (prepared config topic0 maxRounds0 stamp suffix e).
Proof.
  unfold prepared, RunLogStore.createRun. cbv zeta.
  unfold panelOutput, setDebateStatus, emit.
  eexists. eexists. proj. unfold RunLogStore.readSummary.
  cbn [RunLogStore.summaryFiles RunLogStore.lookup RunLogStore.rs_runId].
  rewrite String.eqb_refl. repeat split; reflexivity.
Qed.

Lemma Left_started topic0 maxRounds0 stamp suffix e :
  Left (started config topic0 maxRounds0 stamp suffix e).
Proof.
  pose proof (RunOk_prepared topic0 maxRounds0 stamp suffix e) as H.
  unfold started, runLoop.
  remember (prepared config topic0 maxRounds0 stamp suffix e) as e0 eqn:E0. clear E0.
  assert (G : Left (match currentRun e0 with
                    | Some _ => runLoop_head config 1 "" e0
                    | None => set_loop LSettled e0
                    end)).
  { destruct H as (run & s & H1 & H'). rewrite H1. apply Left_head.
    exists run, s. now split. }
  destruct G as [G1 G2]. split; [revert G1; apply RunOk_same; reflexivity | exact G2].
Qed.

Lemma runKept_refl e : runKept e e.
Proof. unfold runKept. repeat split; reflexivity. Qed.

Lemma runKept_debate e e' :
  currentRun e' = currentRun e -> runLogStore e' = runLogStore e -> debate e' = debate e ->
  runKept e e'.
Proof. intros H1 H2 H3. unfold runKept. rewrite H1, H2, H3. repeat split; reflexivity. Qed.

Lemma runKept_release e0 e :
  runKept e0 e -> runKept e0 (releasePauseWait e).
Proof.
  unfold releasePauseWait. destruct (pauseWait e); [|trivial]. now destruct (loop e).
Qed.

Lemma summary_kept e e' :
  runKept e e' ->
  (RunOk e /\ (ended (status (debate e)) -> summaryRecords e)) ->
  RunOk e' /\ (ended (status (debate e')) -> summaryRecords e').
Proof.
  intros (K1 & K2 & K3 & K4 & K5 & K6 & K7) [H1 H2]. split.
  - revert H1. now apply RunOk_same.
  - intros He. destruct (K7 He) as [K8 K9]. rewrite K8 in He.
    destruct (H2 He) as (s & S1 & S2 & S3 & S4). exists s.
    rewrite K2, K3, K6, K8, K9. repeat split; assumption.
Qed.

Lemma connectAgent_runKept agent resume e :
  runKept e (fst (connectAgent config agent resume e)).
Proof.
  apply runKept_debate.
  - apply F_connectAgent with (P := fun e' => currentRun e' = currentRun e);
      field_frame || reflexivity.
  - apply F_connectAgent with (P := fun e' => runLogStore e' = runLogStore e);
      field_frame || reflexivity.
  - apply F_connectAgent with (P := fun e' => debate e' = debate e);
      field_frame || reflexivity.
Qed.

Lemma connectAgent_resume_runKept agent outcome e0 e :
  runKept e0 e -> runKept e0 (fst (connectAgent_resume agent outcome e)).
Proof.
  intros H. apply F_connectAgent_resume with (P := runKept e0); try exact H;
    intros; unfold panelOutput, setAgentStatus, emit, runKept in *; proj; assumption.
Qed.

Ltac in_run :=
  unfold panelOutput, setDebateStatus, emit, runKept, ended; proj;
  repeat match goal with |- _ /\ _ => split end; try reflexivity;
  intros [X|X]; discriminate.

Lemma exec_summary l e :
  Inv e -> Coherent e ->
  (forall st, status (debate (fst (exec config l e))) = st -> ended st ->
              loop (fst (exec config l e)) = LNone
              \/ loop (fst (exec config l e)) = LSettled) ->
  (runId (debate e) <> "" -> RunOk e /\ (ended (status (debate e)) -> summaryRecords e)) ->
  runId (debate (fst (exec config l e))) <> "" ->
  RunOk (fst (exec config l e))
  /\ (ended (status (debate (fst (exec config l e)))) ->
      summaryRecords (fst (exec config l e))).
Proof.
  intros HI HC Hend HK.
  assert (Keep : runKept e (fst (exec config l e)) ->
                 runId (debate (fst (exec config l e))) <> "" ->
                 RunOk (fst (exec config l e))
                 /\ (ended (status (debate (fst (exec config l e)))) ->
                     summaryRecords (fst (exec config l e)))).
  { intros K Hid. apply (summary_kept e _ K). apply HK.
    destruct K as (_ & _ & K & _). now rewrite <- K. }
  assert (Run : Left (fst (exec config l e)) ->
                RunOk (fst (exec config l e))
                /\ (ended (status (debate (fst (exec config l e)))) ->
                    summaryRecords (fst (exec config l e)))).
  { intros [L1 L2]. split; [exact L1|]. intros He.
    destruct (Hend _ eq_refl He) as [Hl|Hl]; rewrite Hl in L2; [elim L2 | exact L2]. }
  assert (Hrun : loop e <> LNone -> RunOk e).
  { intros Hl. apply HK. destruct HI as [(H1 & _) _].
    cbn [core k_debate k_loop] in H1. destruct H1 as [H1|[_ H1]]; [exact H1 | now elim Hl]. }
  destruct l as [agent resume | topic0 mr stamp suffix | | | | k outcome
                | k line | k line | | | ]; cbn [exec] in *.
  - apply Keep, connectAgent_runKept.
  - destruct (startDebate_cases config topic0 mr stamp suffix e) as [[_ [m E]] | [_ E]];
      rewrite E in *; cbn [fst] in *.
    + apply Keep, runKept_refl.
    + intros _. apply Run, Left_started.
  - apply Keep. unfold pauseDebate. cbv zeta. destruct (negb _); cbn [fst];
      [apply runKept_refl|].
    in_run.
  - apply Keep. unfold resumeDebate. cbv zeta. destruct (negb _); cbn [fst];
      [apply runKept_refl|].
    apply runKept_release.
    in_run.
  - apply Keep. unfold stopDebate. cbv zeta.
    destruct (status (debate e)); cbn [fst]; try apply runKept_refl;
      apply runKept_release; in_run.
  - destruct (nth_error (pending e) k) as [call|]; [|apply Keep, runKept_refl].
    destruct (pc_awaiter call) as [agent|from to rnd prompt rid].
    + apply Keep, connectAgent_resume_runKept, runKept_debate; reflexivity.
    + destruct (loop e) as [|r x| |] eqn:Hl; try (apply Keep, runKept_refl).
      intros _. apply Run.
      apply (Left_turnSettled from to rnd prompt rid outcome _ r x); [exact Hl|].
      assert (H : RunOk e) by (apply Hrun; discriminate).
      revert H. apply RunOk_same; reflexivity.
  - apply Keep. destruct (nth_error (pending e) k); cbn [fst];
      [apply runKept_debate; reflexivity | apply runKept_refl].
  - apply Keep. destruct (nth_error (pending e) k); cbn [fst];
      [apply runKept_debate; reflexivity | apply runKept_refl].
  - destruct (loop e) as [| |r g [|]|] eqn:Hl; cbn [fst] in *;
      try (apply Keep, runKept_refl).
    intros _. apply Run, Left_afterWait, Hrun. discriminate.
  - apply Keep. destruct (loop e); cbn [fst]; try apply runKept_refl;
      apply runKept_debate; reflexivity.
  - apply Keep. cbn [fst]. apply runKept_debate; reflexivity.
Qed.

Lemma reachable_summary persisted e :
  reachable config persisted e ->
  runId (debate e) <> "" ->
  RunOk e /\ (ended (status (debate e)) -> summaryRecords e).
Proof.
  induction 1 as [|e l Hreach IH]; [intros H; now elim H|].
  apply exec_summary; [now apply (reachable_Inv config persisted)
                      | now apply (reachable_Coherent config persisted) | | exact IH].
  intros st Est Hst.
  pose proof (Coherent_status config persisted _ (reach_step config persisted e l Hreach)) as Hs.
  rewrite Est in Hs. destruct Hst as [-> | ->]; exact Hs.
Qed.

(** X17.  In every state the engine reaches after a debate was started, the
    runs directory holds the summary of the run of the state, with its run
    id, topic and number of rounds; and once the run has ended (status
    stopped or completed) the summary records the final status, the round
    reached and the reason, as the state has them. *)
Theorem summary_records_run (persisted : SessionStore.SessionFileData) (e : DebateEngine) :
  reachable config persisted e -> status (debate e) <> idle ->
  exists summary entries,
    RunLogStore.readRun (runId (debate e)) (runLogStore e) = Some (summary, entries)
    /\ RunLogStore.rs_runId summary = runId (debate e)
    /\ RunLogStore.rs_topic summary = topic (debate e)
    /\ RunLogStore.rs_maxRounds summary = maxRounds (debate e)
    /\ (status (debate e) = stopped \/ status (debate e) = completed ->
        RunLogStore.rs_status summary = status (debate e)
        /\ RunLogStore.rs_round summary = round (debate e)
        /\ RunLogStore.rs_reason summary = reason (debate e)).
Proof.
  intros Hreach Hst.
  assert (Hid : runId (debate e) <> "").
  { destruct (reachable_Inv config persisted e Hreach) as [(H1 & _) _].
    cbn [core k_debate] in H1. destruct H1 as [H1|[H1 _]]; [exact H1 | now elim Hst]. }
  destruct (reachable_summary persisted e Hreach Hid)
    as ((run & s & H1 & H2 & H3 & H4 & H5 & H6) & Hend).
  unfold RunLogStore.readRun. rewrite H3. eexists. eexists.
  split; [reflexivity|]. repeat split; try assumption;
    destruct (Hend H) as (s' & S1 & S2 & S3 & S4); rewrite H3 in S1;
    injection S1 as <-; assumption.
Qed.

End Summary.

Lemma summary_records_run_witness :
  exists summary entries,
    RunLogStore.readRun (runId (debate stoppedInRound1)) (runLogStore stoppedInRound1)
    = Some (summary, entries)
    /\ RunLogStore.rs_runId summary = runId (debate stoppedInRound1)
    /\ RunLogStore.rs_topic summary = topic (debate stoppedInRound1)
    /\ RunLogStore.rs_maxRounds summary = maxRounds (debate stoppedInRound1)
    /\ (status (debate stoppedInRound1) = stopped
        \/ status (debate stoppedInRound1) = completed ->
        RunLogStore.rs_status summary = status (debate stoppedInRound1)
        /\ RunLogStore.rs_round summary = round (debate stoppedInRound1)
        /\ RunLogStore.rs_reason summary = reason (debate stoppedInRound1)).
Proof.
  refine (summary_records_run testConfig SessionStore.empty stoppedInRound1 _ _).
  - apply reachable_run, reachable_inRound1.
  - vm_compute. discriminate.
Defined.

(** ** The log of the turns (invokeTurn, run-log-store.ts) *)

Section TurnLog.

Variable config : RuntimeConfig.

(** [invokeTurn], resumed with a response that is not the second empty one
    in a row, appends the entry of the turn and emits it. *)
Lemma invokeTurn_resume_log from to rnd prompt rid result e summary entries :
  RunLogStore.readRun rid (runLogStore e) = Some (summary, entries) ->
  (trim (res_text result) = "" -> consecutiveEmptyResponses e < 1) ->
  let entry := mkEntry rid (clock e) rnd from to prompt (trim (res_text result))
                       (res_stdout result) (res_stderr result) in
  let r := invokeTurn_resume from to rnd prompt rid result e in
  snd r = None
  /\ (exists summary',
        RunLogStore.readRun rid (runLogStore (fst r)) = Some (summary', (entries ++ [entry])%list))
  /\ In (turn_log entry) (emitted (fst r)).
Proof.
  intros Hrun Hne entry r. subst r entry. unfold invokeTurn_resume.
  set (e1 := if truthy (res_sessionId result) && _ then _ else e).
  assert (H1 : runLogStore e1 = runLogStore e /\ clock e1 = clock e
               /\ consecutiveEmptyResponses e1 = consecutiveEmptyResponses e).
  { subst e1. destruct (truthy (res_sessionId result) && _); [|now repeat split].
    unfold setAgentStatus, emit. proj. now repeat split. }
  destruct H1 as (Hs & Hk & Hn). clearbody e1.
  set (e2 := if negb (truthy (trim (res_text result))) then _ else _).
  assert (H2 : runLogStore e2 = runLogStore e /\ clock e2 = clock e
               /\ (negb (truthy (trim (res_text result)))
                   && (2 <=? consecutiveEmptyResponses e2) = false)).
  { subst e2. destruct (trim (res_text result)) as [|c t] eqn:Et; cbn [truthy negb andb]; proj.
    - rewrite Hs, Hk, Hn. repeat split. apply Z.leb_gt.
      specialize (Hne eq_refl). lia.
    - rewrite Hs, Hk. now repeat split. }
  destruct H2 as (Hs2 & Hk2 & Hc2). clearbody e2. rewrite Hc2. proj. rewrite Hs2, Hk2.
  pose proof (readRun_append rid
                (mkEntry rid (clock e) rnd from to prompt (trim (res_text result))
                         (res_stdout result) (res_stderr result)) (runLogStore e)) as Ha.
  rewrite Hrun in Ha. cbn [te_runId] in Ha. rewrite String.eqb_refl in Ha.
  destruct (RunLogStore.updateSummary _ _ _ _) as [store|] eqn:Hu.
  - cbn [fst snd]. unfold panelOutput, emit. proj. split; [reflexivity|]. split.
    + rewrite (readRun_updateSummary rid _ _ _ _ _ Hu), Ha. eauto.
    + rewrite !in_app_iff. left. right. now left.
  - exfalso. apply updateSummary_none in Hu. rewrite readSummary_append in Hu.
    unfold RunLogStore.readRun in Hrun. rewrite Hu in Hrun. discriminate.
Qed.

Lemma log_kept_updated rid entries now k patch store e :
  (exists summary, RunLogStore.readRun rid (runLogStore e) = Some (summary, entries)) ->
  RunLogStore.updateSummary now k patch (runLogStore e) = Some store ->
  exists summary,
    RunLogStore.readRun rid (runLogStore (set_runLogStore store e)) = Some (summary, entries).
Proof.
  intros [summary H] Hu. proj. rewrite (readRun_updateSummary rid _ _ _ _ _ Hu), H. eauto.
Qed.

Ltac events_frame :=
  intros; unfold panelOutput, emitLines, setDebateStatus, setAgentStatus, emit; proj;
  rewrite ?in_app_iff; auto.

(** What follows the turn in [runLoop] leaves the log and the events. *)
Lemma after_turn_keeps rid entries ev r x result message e :
  (exists summary, RunLogStore.readRun rid (runLogStore e) = Some (summary, entries)) ->
  In ev (emitted e) ->
  forall e',
    e' = runLoop_catch message e
    \/ e' = match x with
            | None => runLoop_afterCodex config r result e
            | Some c => runLoop_afterGemini config r c result e
            end ->
    (exists summary, RunLogStore.readRun rid (runLogStore e') = Some (summary, entries))
    /\ In ev (emitted e').
Proof.
  intros Hlog Hev e' [-> | ->]; [|destruct x]; split.
  - apply F_catch
      with (P := fun e' => exists summary,
                     RunLogStore.readRun rid (runLogStore e') = Some (summary, entries));
      try exact Hlog;
      try (intros ? ? ? ? ? _; now apply log_kept_updated); field_frame.
  - apply F_catch with (P := fun e' => In ev (emitted e')); try exact Hev; events_frame.
  - apply F_afterGemini
      with (P := fun e' => exists summary,
                     RunLogStore.readRun rid (runLogStore e') = Some (summary, entries));
      try exact Hlog;
      try (intros ? ? ? ? ? _; now apply log_kept_updated); field_frame.
  - apply F_afterGemini with (P := fun e' => In ev (emitted e')); try exact Hev; events_frame.
  - apply F_afterCodex
      with (P := fun e' => exists summary,
                     RunLogStore.readRun rid (runLogStore e') = Some (summary, entries));
      try exact Hlog;
      try (intros ? ? ? ? ? _; now apply log_kept_updated); field_frame.
  - apply F_afterCodex with (P := fun e' => In ev (emitted e')); try exact Hev; events_frame.
Qed.

(** X18.  A turn that is answered is logged: when the runner's promise of the
    turn in flight is fulfilled, and the response is not the second empty
    one in a row, the log of the run grows in that job by exactly one entry,
    which carries the run id, the round, the two agents and the prompt of the
    call, the response text trimmed but whole, and the raw output; the same
    entry is emitted as a [turn_log] event. *)
Theorem turn_logged (persisted : SessionStore.SessionFileData) (e : DebateEngine)
        (k : nat) (call : PendingCall) (r : Z) (x : option AgentRunResult)
        (result : AgentRunResult) :
  reachable config persisted e ->
  loop e = LAwaitTurn r x ->
  nth_error (pending e) k = Some call -> isTurn call = true ->
  (trim (res_text result) = "" -> consecutiveEmptyResponses e < 1) ->
  let e' := fst (exec config (Settle k (Resolved result)) e) in
  exists summary summary' entries entry,
    RunLogStore.readRun (runId (debate e)) (runLogStore e) = Some (summary, entries)
    /\ RunLogStore.readRun (runId (debate e)) (runLogStore e')
       = Some (summary', (entries ++ [entry])%list)
    /\ In (turn_log entry) (emitted e')
    /\ pc_awaiter call
       = ByTurn (te_from entry) (te_to entry) r (te_prompt entry) (runId (debate e))
    /\ te_from entry = turnAgent x
    /\ te_runId entry = runId (debate e)
    /\ te_round entry = r
    /\ te_response entry = trim (res_text result)
    /\ te_rawStdout entry = res_stdout result
    /\ te_rawStderr entry = res_stderr result.
Proof.
  intros Hreach Hl Hk Ht Hne e'.
  pose proof (reachable_Inv config persisted e Hreach) as HI.
  assert (Haw : exists prompt,
             pc_awaiter call
             = ByTurn (turnAgent x) (otherAgent (turnAgent x)) r prompt (runId (debate e))
             /\ RunLogStore.readSummary (runId (debate e)) (runLogStore e) <> None).
  { destruct HI as [(H1 & _ & H3) H4]. cbn [core k_loop k_pending k_debate] in H1, H3.
    rewrite Hl in H3. destruct H3 as (_ & _ & options & prompt & Hturns & _).
    destruct (turnsOf_removeNth_turn _ _ _ _ Hk Ht Hturns) as [-> _].
    exists prompt. split; [reflexivity|]. apply H4.
    destruct H1 as [H1|[_ H1]]; [exact H1 | congruence]. }
  destruct Haw as (prompt & Haw & Hsum).
  destruct (RunLogStore.readRun (runId (debate e)) (runLogStore e))
    as [[summary entries]|] eqn:Hrun;
    [|unfold RunLogStore.readRun in Hrun;
      destruct (RunLogStore.readSummary (runId (debate e)) (runLogStore e));
      [discriminate | now elim Hsum]].
  set (e0 := set_pending (removeNth k (pending e)) e).
  destruct (invokeTurn_resume_log (turnAgent x) (otherAgent (turnAgent x)) r prompt
              (runId (debate e)) result e0 summary entries Hrun Hne)
    as (Hthrown & Hlog & Hev).
  cbn zeta in Hthrown, Hlog, Hev.
  assert (He' : e' = match x with
                     | None =>
                         runLoop_afterCodex config r result
                           (fst (invokeTurn_resume (turnAgent x) (otherAgent (turnAgent x)) r
                                                   prompt (runId (debate e)) result e0))
                     | Some c =>
                         runLoop_afterGemini config r c result
                           (fst (invokeTurn_resume (turnAgent x) (otherAgent (turnAgent x)) r
                                                   prompt (runId (debate e)) result e0))
                     end).
  { subst e'. cbn [exec]. rewrite Hk, Haw, Hl. unfold turnSettled. fold e0.
    change (loop e0) with (loop e). rewrite Hl.
    destruct (invokeTurn_resume _ _ _ _ _ _ e0) as [e1 [m|]]; cbn [fst snd] in *;
      [discriminate|]. now destruct x. }
  destruct (after_turn_keeps (runId (debate e)) _ _ r x result "" _ Hlog Hev e'
              (or_intror He')) as [(summary' & Hlog') Hev'].
  exists summary, summary', entries.
  eexists. split; [reflexivity|]. split; [exact Hlog'|]. split; [exact Hev'|].
  cbn [te_from te_to te_prompt te_runId te_round te_response te_rawStdout te_rawStderr].
  repeat split. exact Haw.
Qed.

End TurnLog.

Lemma turn_logged_witness :
  let e' := fst (exec testConfig (Settle 0 (Resolved (reply codex "codex response")))
                      inRound1) in
  exists summary summary' entries entry,
    RunLogStore.readRun (runId (debate inRound1)) (runLogStore inRound1)
    = Some (summary, entries)
    /\ RunLogStore.readRun (runId (debate inRound1)) (runLogStore e')
       = Some (summary', (entries ++ [entry])%list)
    /\ In (turn_log entry) (emitted e')
    /\ pc_awaiter (firstPending inRound1)
       = ByTurn (te_from entry) (te_to entry) 1 (te_prompt entry) (runId (debate inRound1))
    /\ te_from entry = turnAgent None
    /\ te_runId entry = runId (debate inRound1)
    /\ te_round entry = 1
    /\ te_response entry = trim (res_text (reply codex "codex response"))
    /\ te_rawStdout entry = res_stdout (reply codex "codex response")
    /\ te_rawStderr entry = res_stderr (reply codex "codex response").
Proof.
  refine (turn_logged testConfig SessionStore.empty inRound1 0 (firstPending inRound1) 1 None
            (reply codex "codex response") _ _ _ _ _).
  - apply reachable_inRound1.
  - vm_compute. reflexivity.
  - vm_compute. reflexivity.
  - vm_compute. reflexivity.
  - intros H. vm_compute in H. discriminate H.
Defined.

(** ** Resuming a paused run (resumeDebate, runLoop) *)

Lemma headCore_next config rnd latestGemini e :
  rnd <= maxRounds (debate e) -> stopRequested (control e) = false ->
  headCore config rnd latestGemini e
  = awaitCore (withRound rnd (debate e)) rnd None
              (turnCall config codex gemini rnd
                        (codexPrompt rnd (topic (debate e)) latestGemini) e) e.
Proof.
  intros Hm Hs. unfold headCore.
  replace (rnd <=? maxRounds (debate e)) with true by (symmetry; apply Z.leb_le; lia).
  now rewrite Hs.
Qed.

(** X19.  A paused run goes on where it stopped.  In a state with status
    paused, reached after round [r], [resumeDebate] returns, sets the status
    running with reason resumed, calls nothing itself and releases the pause
    wait; when [runLoop] then wakes up, it starts round [r + 1] with one call
    of the runner, codex's turn, whose prompt is built from gemini's response
    of round [r]; or, if [r + 1] is above the number of rounds, ends the run
    as completed and calls nothing, the reason being max rounds reached when
    [r] is not below the number of rounds (the test [runLoop] makes after the
    loop). *)
Theorem resume_continues (config : RuntimeConfig)
        (persisted : SessionStore.SessionFileData) (e : DebateEngine) :
  reachable config persisted e -> status (debate e) = paused ->
  let e1 := fst (exec config ResumeDebate e) in
  let e2 := fst (exec config Wake e1) in
  snd (exec config ResumeDebate e) = Returned
  /\ status (debate e1) = running /\ reason (debate e1) = Some "resumed"
  /\ calls e1 = calls e /\ pauseWait e1 = false
  /\ exists r latestGemini,
       loop e = LAwaitResume r latestGemini false
       /\ round (debate e) = r
       /\ (r + 1 <= maxRounds (debate e) ->
           status (debate e2) = running /\ round (debate e2) = r + 1
           /\ exists next,
                calls e2 = (calls e ++ [next])%list
                /\ pc_awaiter next
                   = ByTurn codex gemini (r + 1) (opt_prompt (pc_options next))
                            (runId (debate e))
                /\ opt_prompt (pc_options next)
                   = codexPrompt (r + 1) (topic (debate e)) latestGemini)
       /\ (maxRounds (debate e) < r + 1 ->
           status (debate e2) = completed
           /\ round (debate e2) = r /\ calls e2 = calls e
           /\ (maxRounds (debate e) <= r ->
               reason (debate e2) = Some "max rounds reached")).
Proof.
  intros Hreach Hs e1 e2.
  pose proof (reachable_Inv config persisted e Hreach) as HI.
  pose proof (Coherent_status config persisted e Hreach) as Hst.
  rewrite Hs in Hst. destruct Hst as (r & g & Hl).
  pose proof (reachable_Coherent config persisted e Hreach) as (C1 & C2 & C3).
  cbn [core k_debate k_loop k_control] in C1, C2, C3. rewrite Hl in C1, C3.
  cbn [waits] in C1. destruct C3 as (_ & Hpause & Hstop).
  assert (Hround : 1 <= r /\ round (debate e) = r).
  { destruct HI as [(_ & _ & H3) _]. cbn [core k_loop k_debate] in H3.
    rewrite Hl in H3. tauto. }
  destruct Hround as [Hr1 Hround].
  assert (Hid : forall x, loop x <> LNone -> Inv x -> runId (debate x) <> "").
  { intros x Hx [([H|[_ H]] & _) _]; [exact H | now elim Hx]. }
  (* resumeDebate *)
  assert (HI1 : Inv e1) by (apply (reachable_Inv config persisted); now constructor).
  destruct (exec_core config ResumeDebate e) as [Hc1 _].
  { intros Hx. now apply Hid. }
  fold e1 in Hc1. cbn [step_core] in Hc1. rewrite Hs, C1, Hl, Hstop in Hc1.
  cbn [DebateStatus_eqb releasedLoop] in Hc1.
  destruct (core_fields_of _ _ Hc1) as (Kd1 & Kc1 & Kt1 & Kl1 & _).
  cbn [k_debate k_calls k_control k_loop] in Kd1, Kc1, Kt1, Kl1.
  assert (Hw1 : pauseWait e1 = false).
  { pose proof (reachable_Coherent config persisted e1
                  (reach_step config persisted e ResumeDebate Hreach)) as (W & _).
    cbn [core k_loop] in W. now rewrite W, Kl1. }
  assert (Hret : snd (exec config ResumeDebate e) = Returned).
  { cbn [exec]. unfold resumeDebate. now rewrite Hs. }
  split; [exact Hret|]. rewrite Kd1, Kc1. cbn [withStatus status reason].
  do 4 (split; [first [reflexivity | assumption]|]).
  exists r, g. split; [exact Hl|]. split; [exact Hround|].
  (* the loop wakes up *)
  destruct (exec_core config Wake e1) as [Hc2 _].
  { intros Hx. now apply Hid. }
  fold e2 in Hc2. cbn [step_core] in Hc2. rewrite Kl1 in Hc2.
  unfold afterWaitCore in Hc2. rewrite Kt1 in Hc2. cbn [stopRequested] in Hc2.
  split.
  - intros Hmore.
    rewrite headCore_next in Hc2
      by (rewrite ?Kd1, ?Kt1; cbn [withStatus maxRounds stopRequested]; (lia || reflexivity)).
    destruct (core_fields_of _ _ Hc2) as (Kd2 & Kc2 & _).
    cbn [awaitCore k_debate k_calls] in Kd2, Kc2.
    rewrite Kd2, Kc2, Kd1, Kc1. cbn [withRound withStatus status round topic].
    split; [reflexivity|]. split; [reflexivity|].
    eexists. split; [reflexivity|].
    cbn [turnCall pc_awaiter pc_options opt_prompt]. rewrite Kd1.
    cbn [withStatus runId]. split; reflexivity.
  - intros Hlast.
    rewrite headCore_beyond in Hc2
      by (rewrite ?Kd1, ?Kt1; cbn [withStatus maxRounds round stopRequested];
          (lia || reflexivity)).
    destruct (core_fields_of _ _ Hc2) as (Kd2 & Kc2 & _).
    destruct (endCore_fields completed "max rounds reached" e1) as (Ed & Ec & _).
    rewrite Kd2, Kc2, Ed, Ec, Kd1, Kc1. cbn [withStatus status reason round].
    repeat split; assumption.
Qed.

Lemma resume_continues_witness :
  let e1 := fst (exec testConfig ResumeDebate pausedAfterRound1) in
  let e2 := fst (exec testConfig Wake e1) in
  snd (exec testConfig ResumeDebate pausedAfterRound1) = Returned
  /\ status (debate e1) = running /\ reason (debate e1) = Some "resumed"
  /\ calls e1 = calls pausedAfterRound1 /\ pauseWait e1 = false
  /\ exists r latestGemini,
       loop pausedAfterRound1 = LAwaitResume r latestGemini false
       /\ round (debate pausedAfterRound1) = r
       /\ (r + 1 <= maxRounds (debate pausedAfterRound1) ->
           status (debate e2) = running /\ round (debate e2) = r + 1
           /\ exists next,
                calls e2 = (calls pausedAfterRound1 ++ [next])%list
                /\ pc_awaiter next
                   = ByTurn codex gemini (r + 1) (opt_prompt (pc_options next))
                            (runId (debate pausedAfterRound1))
                /\ opt_prompt (pc_options next)
                   = codexPrompt (r + 1) (topic (debate pausedAfterRound1)) latestGemini)
       /\ (maxRounds (debate pausedAfterRound1) < r + 1 ->
           status (debate e2) = completed
           /\ round (debate e2) = r /\ calls e2 = calls pausedAfterRound1
           /\ (maxRounds (debate pausedAfterRound1) <= r ->
               reason (debate e2) = Some "max rounds reached")).
Proof.
  refine (resume_continues testConfig SessionStore.empty pausedAfterRound1 _ _).
  - apply reachable_run, reachable_inRound1.
  - vm_compute. reflexivity.
Defined.
